(** * irclog2html: line classification, nick colours, archive scheduler

    A shallow embedding of the parts of [irclog2html.py], [logs2html.py] and
    [irclogserver.py] that decide the behaviour of the log parser, the colour
    chooser, the nick colour table, the directory scheduler and the WSGI
    handler, together with the properties established about them.

    Conventions.
    - Python 2 byte strings are [string] (a list of 8-bit [ascii]).
    - Python exceptions are values of [exn]; a computation that may raise
      returns [pyresult A].
    - Dictionaries are stdpp [gmap]s; the file system is a [gmap] from paths
      to files. *)

From Stdlib Require Import ZArith QArith Qround Qabs Qpower Ascii String List Bool Lia Lqa.
From stdpp Require Import gmap strings list.

(** ** Exceptions and results *)

Inductive exn :=
| NameError (name : string)
| AssertionError
| Error (msg : string)          (* logs2html.Error, the application error *)
| ValueError (msg : string)
| IOError (path : string)
| OSError (path : string)
| IndexError (msg : string)
| OverflowError (msg : string)
| SystemExit (msg : string)
| ZeroDivisionError (msg : string)
| ReError (msg : string).       (* re.error / sre_constants.error *)

Inductive pyresult (A : Type) :=
| Ok (a : A)
| Raise (e : exn).
Arguments Ok {A} a.
Arguments Raise {A} e.

(** Sequencing stops at the first exception; [x ← c; k] is stdpp's notation
    for [mbind]. *)
#[global] Instance pyresult_bind : MBind pyresult := fun A B f x =>
  match x with
  | Ok a => f a
  | Raise e => Raise e
  end.

#[global] Instance pyresult_ret : MRet pyresult := fun A a => Ok a.

(** ** Byte-string helpers *)

(** [s.startswith(p)] *)
Definition startswith (s p : string) : bool := String.prefix p s.

(** [s.endswith(p)] *)
Fixpoint endswith (s p : string) : bool :=
  String.eqb s p ||
  match s with
  | EmptyString => false
  | String _ s' => endswith s' p
  end.

(** [sub in s] for byte strings: [sub] occurs at some offset of [s]. *)
Fixpoint contains (sub s : string) : bool :=
  String.prefix sub s ||
  match s with
  | EmptyString => false
  | String _ s' => contains sub s'
  end.

(** [s[n:]] for [n >= 0] *)
Fixpoint drop_str (n : nat) (s : string) : string :=
  match n, s with
  | O, _ => s
  | S n', String _ s' => drop_str n' s'
  | S _, EmptyString => EmptyString
  end.

(** [s[:n]] for [n >= 0] *)
Fixpoint take_str (n : nat) (s : string) : string :=
  match n, s with
  | S n', String c s' => String c (take_str n' s')
  | _, _ => EmptyString
  end.

Definition is_digit (c : ascii) : bool :=
  ((48 <=? nat_of_ascii c) && (nat_of_ascii c <=? 57))%nat.

Definition is_octdigit (c : ascii) : bool :=
  ((48 <=? nat_of_ascii c) && (nat_of_ascii c <=? 55))%nat.

(** [\s] for byte patterns: space, \t, \n, \v, \f, \r. *)
Definition is_space (c : ascii) : bool :=
  let n := nat_of_ascii c in
  ((n =? 32) || ((9 <=? n) && (n <=? 13)))%nat.

Definition is_nonspace (c : ascii) : bool := negb (is_space c).

(** [.] without DOTALL: anything but a newline. *)
Definition is_dot (c : ascii) : bool := negb (nat_of_ascii c =? 10)%nat.

(** [s.upper()] for a byte string in the C locale *)
Definition upper_char (c : ascii) : ascii :=
  let n := nat_of_ascii c in
  if ((97 <=? n) && (n <=? 122))%nat then ascii_of_nat (n - 32) else c.

Fixpoint upper (s : string) : string :=
  match s with
  | EmptyString => EmptyString
  | String c s' => String (upper_char c) (upper s')
  end.

Definition backslash : ascii := "092".
Definition dquote : ascii := "034".

Definition digit_val (c : ascii) : Z := Z.of_nat (nat_of_ascii c) - 48.

(** [int(s)] for a string of ASCII digits. *)
Definition int_of_digits (s : string) : Z :=
  fold_left (fun acc c => 10 * acc + digit_val c)%Z (list_ascii_of_string s) 0%Z.

(** ** A backtracking matcher for the patterns of the program

    The matcher follows the priority order of Python's [re]: alternatives
    left to right, greedy items longest first, lazy items shortest first, and
    the first complete match wins.  Every repetition in the program's
    patterns is over a single-character item, so [Star] and [LazyStar] take a
    character predicate. *)

Module Re.

Inductive regex :=
| Eps                                   (* the empty pattern *)
| Bol                                   (* ^ *)
| Lit (c : ascii)
| Class (p : ascii -> bool)
| Seq (r1 r2 : regex)
| Alt (r1 r2 : regex)
| Maybe (r : regex)                     (* r? *)
| Star (p : ascii -> bool)              (* c* *)
| LazyStar (p : ascii -> bool)          (* c*? *)
| Group (n : nat) (r : regex).          (* ( r ), numbered from 1 *)

Definition caps := list (nat * string).

Definition cont := nat -> string -> caps -> option (nat * caps).

Fixpoint star_greedy (p : ascii -> bool) (k : cont)
    (pos : nat) (s : string) (cs : caps) {struct s} : option (nat * caps) :=
  match s with
  | String a s' =>
      if p a then
        match star_greedy p k (S pos) s' cs with
        | Some r => Some r
        | None => k pos s cs
        end
      else k pos s cs
  | EmptyString => k pos s cs
  end.

Fixpoint star_lazy (p : ascii -> bool) (k : cont)
    (pos : nat) (s : string) (cs : caps) {struct s} : option (nat * caps) :=
  match k pos s cs with
  | Some r => Some r
  | None =>
      match s with
      | String a s' => if p a then star_lazy p k (S pos) s' cs else None
      | EmptyString => None
      end
  end.

(** [run subj r pos s cs k]: match [r] against [s], the suffix of the subject
    [subj] at offset [pos], and hand the rest to [k]. *)
Fixpoint run (subj : string) (r : regex) (pos : nat) (s : string) (cs : caps)
    (k : cont) {struct r} : option (nat * caps) :=
  match r with
  | Eps => k pos s cs
  | Bol => if (pos =? 0)%nat then k pos s cs else None
  | Lit c =>
      match s with
      | String a s' => if Ascii.eqb a c then k (S pos) s' cs else None
      | EmptyString => None
      end
  | Class p =>
      match s with
      | String a s' => if p a then k (S pos) s' cs else None
      | EmptyString => None
      end
  | Seq r1 r2 =>
      run subj r1 pos s cs (fun pos' s' cs' => run subj r2 pos' s' cs' k)
  | Alt r1 r2 =>
      match run subj r1 pos s cs k with
      | Some r => Some r
      | None => run subj r2 pos s cs k
      end
  | Maybe r1 =>
      match run subj r1 pos s cs k with
      | Some r => Some r
      | None => k pos s cs
      end
  | Star p => star_greedy p k pos s cs
  | LazyStar p => star_lazy p k pos s cs
  | Group n r1 =>
      run subj r1 pos s cs
        (fun pos' s' cs' =>
           k pos' s' ((n, String.substring pos (pos' - pos) subj) :: cs'))
  end.

(** A match object: the subject, where the match starts and ends, and the
    groups that took part. *)
Record match_obj := {
  m_subject : string;
  m_start : nat;
  m_end : nat;
  m_caps : caps;
  m_ngroups : nat            (* number of groups of the pattern *)
}.

Fixpoint ngroups (r : regex) : nat :=
  match r with
  | Seq r1 r2 | Alt r1 r2 => Nat.max (ngroups r1) (ngroups r2)
  | Maybe r1 => ngroups r1
  | Group n r1 => Nat.max n (ngroups r1)
  | _ => 0
  end.

Fixpoint lookup_cap (n : nat) (cs : caps) : option string :=
  match cs with
  | [] => None
  | (i, v) :: cs' => if (i =? n)%nat then Some v else lookup_cap n cs'
  end.

(** [m.group(n)]; [None] is Python's [None] for a group that did not take
    part. *)
Definition group (m : match_obj) (n : nat) : option string :=
  match n with
  | O => Some (String.substring (m_start m) (m_end m - m_start m) (m_subject m))
  | _ => lookup_cap n (m_caps m)
  end.

Definition match_at (r : regex) (subj : string) (pos : nat) (s : string)
    : option match_obj :=
  match run subj r pos s [] (fun e _ cs => Some (e, cs)) with
  | Some (e, cs) =>
      Some {| m_subject := subj; m_start := pos; m_end := e; m_caps := cs;
              m_ngroups := ngroups r |}
  | None => None
  end.

(** [pattern.match(s)] *)
Definition re_match (r : regex) (s : string) : option match_obj :=
  match_at r s 0 s.

(** Pattern builders. *)
Fixpoint seqs (rs : list regex) : regex :=
  match rs with
  | [] => Eps
  | [r] => r
  | r :: rs' => Seq r (seqs rs')
  end.

Fixpoint lits_aux (c : ascii) (s : string) : regex :=
  match s with
  | EmptyString => Lit c
  | String c' s' => Seq (Lit c) (lits_aux c' s')
  end.

(** A literal word. *)
Definition lits (s : string) : regex :=
  match s with
  | EmptyString => Eps
  | String c s' => lits_aux c s'
  end.

Definition digit : regex := Class is_digit.

(** [r+] for a one-character class *)
Definition plus (p : ascii -> bool) : regex := Seq (Class p) (Star p).

End Re.

(** ** irclog2html.py: log parsing *)

(** The Python values the parser puts in an event payload. *)
Inductive pyval :=
| VNone
| VStr (s : string)
| VGlobal (name : string).      (* the object bound to a module-level name *)

Definition val_of_group (g : option string) : pyval :=
  match g with
  | Some s => VStr s
  | None => VNone
  end.

(** [len(m.group(0))] *)
Definition match_len (m : Re.match_obj) : nat := Re.m_end m - Re.m_start m.

(** [s.rstrip('\r\n')]: drop the trailing run of CR and LF characters. *)
Fixpoint rstrip_crlf (s : string) : string :=
  match s with
  | EmptyString => EmptyString
  | String c s' =>
      match rstrip_crlf s' with
      | EmptyString =>
          if (Ascii.eqb c "013" || Ascii.eqb c "010")%bool then EmptyString
          else String c EmptyString
      | r => String c r
      end
  end.

Module LogParser.
Import Re.

Inductive kind := COMMENT | ACTION | JOIN | PART | NICKCHANGE | SERVER | OTHER.

Inductive info :=
| NickText (nick : pyval) (text : string)                 (* (nick, text) *)
| Line (text : string)                                    (* text *)
| Rename (text : string) (oldnick newnick : pyval).       (* (text, oldnick, newnick) *)

(** One yielded triple [time, what, info]; [time] is [None] when the line
    carries no timestamp. *)
Definition event : Type := option string * kind * info.

(** The pattern "^\[?((?:\d\d\d\d-\d\d-\d\dT)?\d\d:\d\d(:\d\d)?)\]? +" *)
Definition TIME_REGEXP : regex :=
  seqs [Bol; Maybe (Lit "[");
        Group 1 (seqs [Maybe (seqs [digit; digit; digit; digit; Lit "-";
                                    digit; digit; Lit "-"; digit; digit;
                                    Lit "T"]);
                       digit; digit; Lit ":"; digit; digit;
                       Maybe (Group 2 (seqs [Lit ":"; digit; digit]))]);
        Maybe (Lit "]"); plus (Ascii.eqb " ")].

(** The pattern "^<(.*?)>\s" *)
Definition NICK_REGEXP : regex :=
  seqs [Bol; Lit "<"; Group 1 (LazyStar is_dot); Lit ">"; Class is_space].

(** The pattern "^(?:\*\*\*|---) (.*?) (?:are|is) now known as " followed by
    a greedy group of any characters. *)
Definition NICK_CHANGE_REGEXP : regex :=
  seqs [Bol; Alt (lits "***") (lits "---"); Lit " ";
        Group 1 (LazyStar is_dot); Lit " ";
        Alt (lits "are") (lits "is"); lits " now known as ";
        Group 2 (Star is_dot)].

(** The names bound at module level in irclog2html.py.  A name that a
    function body never assigns is looked up here (and then among the
    builtins) when the body runs. *)
Definition module_globals : list string :=
  ["os"; "re"; "sys"; "optparse"; "VERSION"; "RELEASE"; "Enum"; "LogParser";
   "ColourChooser"; "NickColourizer"; "URL_REGEXP"; "createlinks"; "escape";
   "AbstractStyle"; "SimpleTextStyle"; "TextStyle"; "SimpleTableStyle";
   "TableStyle"; "STYLES"; "COLOURS"; "main"; "log2html"].

(** Loading a name that is not local to the running function. None of the
    names the parser loads this way is a builtin. *)
Definition load_global (name : string) : pyresult pyval :=
  if existsb (String.eqb name) module_globals then Ok (VGlobal name)
  else Raise (NameError name).

(** Step 1 of the loop body: split off the timestamp. *)
Definition strip_time (line : string) : option string * string :=
  match re_match TIME_REGEXP line with
  | Some m => (group m 1, drop_str (match_len m) line)
  | None => (None, line)
  end.

(** The rest of the loop body of [LogParser.__iter__], on the line left
    after the timestamp. The body assigns [nick_old] and [nick_new] and then
    builds the tuple from [oldnick] and [newnick], which are not local. *)
Definition classify_rest (time : option string) (line : string)
    : pyresult event :=
  match re_match NICK_REGEXP line with
  | Some m =>
      let nick := val_of_group (group m 1) in
      let text := drop_str (match_len m) line in
      Ok (time, COMMENT, NickText nick text)
  | None =>
      if startswith line "* " then Ok (time, ACTION, Line line)
      else if startswith line "*** "
              || (startswith line "--> " && contains "joined" line)
      then Ok (time, JOIN, Line line)
      else if startswith line "*** "
              || (startswith line "--> "
                  && (contains "left" line || contains "quit" line))
      then Ok (time, PART, Line line)
      else
        match re_match NICK_CHANGE_REGEXP line with
        | Some m =>
            let nick_old := val_of_group (group m 1) in
            let nick_new := val_of_group (group m 2) in
            oldnick ← load_global "oldnick";
            newnick ← load_global "newnick";
            Ok (time, NICKCHANGE, Rename line oldnick newnick)
        | None =>
            if startswith line "*** " || startswith line "--- "
            then Ok (time, SERVER, Line line)
            else Ok (time, OTHER, Line line)
        end
  end.

(** The loop body for one non-empty, stripped line. *)
Definition classify (line : string) : pyresult event :=
  let '(time, rest) := strip_time line in
  classify_rest time rest.

(** [LogParser.__iter__]: the events yielded for the lines of [infile], and
    the exception that ended the iteration, if any. *)
Fixpoint iter (infile : list string) : list event * option exn :=
  match infile with
  | [] => ([], None)
  | raw :: more =>
      let line := rstrip_crlf raw in
      match line with
      | EmptyString => iter more
      | _ =>
          match classify line with
          | Ok ev => let '(evs, e) := iter more in (ev :: evs, e)
          | Raise e => ([], Some e)
          end
      end
  end.

(** The locals [nick_old] and [nick_new] of the last branch: what the
    pattern captured, whether or not the tuple could be built. *)
Definition nick_change_locals (line : string) : option (pyval * pyval) :=
  match re_match NICK_CHANGE_REGEXP line with
  | Some m => Some (val_of_group (group m 1), val_of_group (group m 2))
  | None => None
  end.

End LogParser.


(** ** Python floats

    A Python float is an IEEE 754 binary64 value; every operation rounds the
    exact result to the nearest representable value, ties to even. Finite
    values are kept as the rational they denote. *)

Module Float64.
Local Open Scope Q_scope.

(** A binary64 value. The sign of zero is not kept: no operation below
    observes it. *)
Inductive t :=
| Fin (q : Q)
| Inf (negative : bool)
| NaN.

(** [floor (log2 x)] for [x > 0] *)
Definition ilog2 (x : Q) : Z :=
  let k := (Z.log2 (Qnum x) - Z.log2 (Zpos (Qden x)))%Z in
  if Qle_bool (2 ^ k) x then k else (k - 1)%Z.

(** Round to the nearest integer, ties to even. *)
Definition rne (x : Q) : Z :=
  let f := Qfloor x in
  match Qcompare (x - inject_Z f) (1 # 2) with
  | Lt => f
  | Gt => (f + 1)%Z
  | Eq => if Z.even f then f else (f + 1)%Z
  end.

(** The exponent of the last place of [x > 0]: 53 significant bits, and
    nothing finer than [2 ^ -1074]. *)
Definition ulp_exp (x : Q) : Z := Z.max (ilog2 x - 52) (-1074).

(** The nearest value with 53 significant bits, for [x >= 0], before the
    test for overflow. *)
Definition rnd_pos (x : Q) : Q :=
  if Qle_bool x 0 then 0
  else let e := ulp_exp x in inject_Z (rne (x / 2 ^ e)) * 2 ^ e.

Definition rnd (x : Q) : Q :=
  if Qle_bool 0 x then rnd_pos x else - rnd_pos (- x).

(** The result of an operation whose exact value is [x]: the nearest
    binary64 value, an infinity when that is out of range. *)
Definition round (x : Q) : t :=
  let v := rnd x in
  if Qle_bool (2 ^ 1024) (Qabs v) then Inf (negb (Qle_bool 0 x))
  else Fin (Qred v).

Definition is_zero (q : Q) : bool := Qeq_bool q 0.
Definition is_neg (q : Q) : bool := negb (Qle_bool 0 q).

(** [float(z)], and the conversion of an int operand of a float operation *)
Definition of_int (z : Z) : pyresult t :=
  match round (inject_Z z) with
  | Fin q => Ok (Fin q)
  | _ => Raise (OverflowError "long int too large to convert to float")
  end.

(** [a * b] *)
Definition mul (a b : t) : t :=
  match a, b with
  | Fin x, Fin y => round (x * y)
  | Fin x, Inf s | Inf s, Fin x =>
      if is_zero x then NaN else Inf (xorb s (is_neg x))
  | Inf s1, Inf s2 => Inf (xorb s1 s2)
  | _, _ => NaN
  end.

(** [a + b] *)
Definition add (a b : t) : t :=
  match a, b with
  | Fin x, Fin y => round (x + y)
  | Fin _, Inf s | Inf s, Fin _ => Inf s
  | Inf s1, Inf s2 => if Bool.eqb s1 s2 then Inf s1 else NaN
  | _, _ => NaN
  end.

(** [a / b] *)
Definition div (a b : t) : pyresult t :=
  match a, b with
  | _, Fin y =>
      if is_zero y then Raise (ZeroDivisionError "float division")
      else
        match a with
        | Fin x => Ok (round (x / y))
        | Inf s => Ok (Inf (xorb s (is_neg y)))
        | NaN => Ok NaN
        end
  | Fin _, Inf _ => Ok (Fin 0)
  | _, _ => Ok NaN
  end.

(** [int(a)]: the integer part, towards zero *)
Definition to_int (a : t) : pyresult Z :=
  match a with
  | Fin x => Ok (if Qle_bool 0 x then Qfloor x else Qceiling x)
  | Inf _ => Raise (OverflowError "cannot convert float infinity to integer")
  | NaN => Raise (ValueError "cannot convert float NaN to integer")
  end.

(** A float literal: the nearest binary64 value to the decimal written. *)
Definition literal (q : Q) : t := round q.

End Float64.

(** ** irclog2html.py: colours *)

Definition hex_digit (z : Z) : ascii :=
  if (z <? 10)%Z then ascii_of_nat (48 + Z.to_nat z)
  else ascii_of_nat (87 + Z.to_nat z).

Fixpoint hex_digits (fuel : nat) (z : Z) : string :=
  match fuel with
  | O => EmptyString
  | S f =>
      if (z <? 16)%Z then String (hex_digit z) EmptyString
      else hex_digits f (z / 16) +:+ String (hex_digit (z mod 16)) EmptyString
  end.

(** [z] in lower-case hexadecimal, for [z >= 0] *)
Definition hex (z : Z) : string := hex_digits (S (Z.to_nat (Z.log2 z))) z.

(** ['%02x' % z] *)
Definition fmt_02x (z : Z) : string :=
  let s := if (z <? 0)%Z then "-" +:+ hex (- z) else hex z in
  if (String.length s <? 2)%nat then "0" +:+ s else s.

Definition assert (b : bool) : pyresult unit :=
  if b then Ok tt else Raise AssertionError.

Module ColourChooser.
Import Float64.

Definition triple : Type := Float64.t * Float64.t * Float64.t.

Record t := {
  rgbmin : Z;
  rgbmax : Z;
  rgb : list triple
}.

Definition in_unit (x : Float64.t) : bool :=
  match x with
  | Fin q => Qle_bool 0 q && Qle_bool q 1
  | _ => false
  end.

(** [ColourChooser.__init__] *)
Definition init (rgbmin rgbmax : Z) (rgb : list triple) (a b : Float64.t)
    : pyresult t :=
  _ ← assert ((0 <=? rgbmin) && (rgbmin <? 256))%Z;
  _ ← assert ((0 <=? rgbmax) && (rgbmax <? 256))%Z;
  rgb ← match rgb with
        | [] =>
            _ ← assert (in_unit a);
            _ ← assert (in_unit b);
            Ok [(a, b, b); (b, a, b); (b, b, a); (a, a, b); (a, b, a); (b, a, a)]
        | _ =>
            _ ← assert (forallb (fun '(r, g, b) =>
                                   in_unit r && in_unit g && in_unit b) rgb);
            Ok rgb
        end;
  Ok {| rgbmin := rgbmin; rgbmax := rgbmax; rgb := rgb |}.

(** The chooser [ColourChooser()] builds: the default arguments
    [rgbmin=240, rgbmax=125, rgb=None, a=0.95, b=0.5]. *)
Definition default_chooser : t :=
  let a := literal (95 # 100) in
  let b := literal (5 # 10) in
  {| rgbmin := 240; rgbmax := 125;
     rgb := [(a, b, b); (b, a, b); (b, b, a); (a, a, b); (a, b, a); (b, a, a)] |}.

(** The magnitude [m] of [choose]:
    [self.rgbmin + (self.rgbmax - self.rgbmin) * float(n - i) / n]. *)
Definition magnitude (self : t) (i n : Z) : pyresult Float64.t :=
  d ← of_int (n - i);
  c ← of_int (rgbmax self - rgbmin self);
  let p := mul c d in
  nf ← of_int n;
  q ← div p nf;
  lo ← of_int (rgbmin self);
  Ok (add lo q).

(** [ColourChooser.choose] *)
Definition choose (self : t) (i n : Z) : pyresult string :=
  let n := if (n =? 0)%Z then 1%Z else n in
  match length (rgb self) with
  | O => Raise (ZeroDivisionError "integer division or modulo by zero")
  | len =>
      match rgb self !! Z.to_nat (i mod Z.of_nat len) with
      | None => Raise (IndexError "list index out of range")
      | Some (r, g, b) =>
          m ← magnitude self i n;
          r ← to_int (mul r m);
          g ← to_int (mul g m);
          b ← to_int (mul b m);
          _ ← assert ((0 <=? r) && (r <? 256))%Z;
          _ ← assert ((0 <=? g) && (g <? 256))%Z;
          _ ← assert ((0 <=? b) && (b <? 256))%Z;
          Ok ("#" +:+ fmt_02x r +:+ fmt_02x g +:+ fmt_02x b)
      end
  end.

End ColourChooser.

Module NickColourizer.

Record t := {
  colour_chooser : ColourChooser.t;
  nickcount : Z;
  maxnicks : Z;
  nick_colour : gmap string string
}.

(** [NickColourizer.__init__] with the default chooser *)
Definition init (maxnicks : Z) (default_colours : gmap string string) : t :=
  {| colour_chooser := ColourChooser.default_chooser;
     nickcount := 0;
     maxnicks := maxnicks;
     nick_colour := default_colours |}.

(** [NickColourizer.__getitem__]: the colour, and the colourizer after the
    call. A nick whose entry is missing or empty gets a fresh colour. *)
Definition getitem (self : t) (nick : string) : pyresult string * t :=
  match nick_colour self !! nick with
  | Some (String c s) => (Ok (String c s), self)
  | _ =>
      let nickcount := (nickcount self + 1)%Z in
      let maxnicks :=
        if (maxnicks self <=? nickcount)%Z then (maxnicks self * 2)%Z
        else maxnicks self in
      let counted colours :=
        {| colour_chooser := colour_chooser self;
           nickcount := nickcount;
           maxnicks := maxnicks;
           nick_colour := colours |} in
      match ColourChooser.choose (colour_chooser self) nickcount maxnicks with
      | Ok colour =>
          (Ok colour, counted (<[nick := colour]> (nick_colour self)))
      | Raise e => (Raise e, counted (nick_colour self))
      end
  end.

(** [NickColourizer.nickchange]:
    [if oldnick in d: d[newnick] = d.pop(oldnick)] *)
Definition nickchange (self : t) (oldnick newnick : string) : t :=
  match nick_colour self !! oldnick with
  | Some colour =>
      {| colour_chooser := colour_chooser self;
         nickcount := nickcount self;
         maxnicks := maxnicks self;
         nick_colour := <[newnick := colour]> (delete oldnick (nick_colour self)) |}
  | None => self
  end.

End NickColourizer.

(** ** Substitution with a replacement template ([pattern.sub(repl, s)]) *)

Module Template.
Import Re.

(** A parsed template: literal characters and group references. *)
Inductive item :=
| TLit (c : ascii)
| TGroup (n : nat).

(** Where the template parser stands after the characters read so far. *)
Inductive mode :=
| Normal
| Esc                         (* after a backslash *)
| Oct0 (v k : nat)            (* in \0..: value so far, octal digits still allowed *)
| Dig1 (c : ascii)            (* after \c, c in 1..9 *)
| Dig2 (c d : ascii)          (* after \cd, both digits *)
| GOpen                       (* after \g *)
| GName (acc : string).       (* after \g<, reading the name *)

Definition oct_val (c : ascii) : nat := nat_of_ascii c - 48.

(** [makechar(int(digits, 8) & 0xff)] *)
Definition makechar (v : nat) : ascii := ascii_of_nat (v mod 256).

(** sre_parse.ESCAPES, for the second character of an escape *)
Definition escape_char (c : ascii) : option ascii :=
  if Ascii.eqb c "a" then Some "007"%char
  else if Ascii.eqb c "b" then Some "008"%char
  else if Ascii.eqb c "f" then Some "012"%char
  else if Ascii.eqb c "n" then Some "010"%char
  else if Ascii.eqb c "r" then Some "013"%char
  else if Ascii.eqb c "t" then Some "009"%char
  else if Ascii.eqb c "v" then Some "011"%char
  else if Ascii.eqb c backslash then Some backslash
  else None.

Definition all_digits (s : string) : bool :=
  forallb is_digit (list_ascii_of_string s).

Definition group_of_name (name : string) : pyresult item :=
  match name with
  | EmptyString => Raise (ReError "missing group name")
  | _ =>
      if all_digits name then Ok (TGroup (Z.to_nat (int_of_digits name)))
      else Raise (IndexError "unknown group name")
  end.

(** What a pending escape stands for when the next token does not extend
    it. *)
Definition flush (m : mode) : pyresult (list item) :=
  match m with
  | Normal => Ok []
  | Esc => Raise (ReError "bogus escape (end of line)")
  | Oct0 v _ => Ok [TLit (makechar v)]
  | Dig1 c => Ok [TGroup (oct_val c)]
  | Dig2 c d => Ok [TGroup (10 * oct_val c + oct_val d)]
  | GOpen => Raise (ReError "missing group name")
  | GName _ => Raise (ReError "unterminated group name")
  end.

Definition cons_items (xs : list item) (r : pyresult (list item))
    : pyresult (list item) :=
  match r with
  | Ok ys => Ok (xs ++ ys)
  | Raise e => Raise e
  end.

(** sre_parse.parse_template, one character at a time. A backslash followed
    by [0] starts an octal escape of up to three digits, which denotes the
    character with that code; a backslash followed by [1]..[9] is a group
    reference. *)
Fixpoint parse (m : mode) (s : string) : pyresult (list item) :=
  match s with
  | EmptyString => flush m
  | String c s' =>
      match m with
      | Normal =>
          if Ascii.eqb c backslash then parse Esc s'
          else cons_items [TLit c] (parse Normal s')
      | Esc =>
          if Ascii.eqb c "g" then parse GOpen s'
          else if Ascii.eqb c "0" then parse (Oct0 0 2) s'
          else if is_digit c then parse (Dig1 c) s'
          else
            match escape_char c with
            | Some e => cons_items [TLit e] (parse Normal s')
            | None => cons_items [TLit backslash; TLit c] (parse Normal s')
            end
      | Oct0 v (S k) =>
          if is_octdigit c then parse (Oct0 (8 * v + oct_val c) k) s'
          else
            if Ascii.eqb c backslash then cons_items [TLit (makechar v)] (parse Esc s')
            else cons_items [TLit (makechar v); TLit c] (parse Normal s')
      | Oct0 v O =>
          if Ascii.eqb c backslash then cons_items [TLit (makechar v)] (parse Esc s')
          else cons_items [TLit (makechar v); TLit c] (parse Normal s')
      | Dig1 d1 =>
          if is_digit c then parse (Dig2 d1 c) s'
          else
            if Ascii.eqb c backslash then cons_items [TGroup (oct_val d1)] (parse Esc s')
            else cons_items [TGroup (oct_val d1); TLit c] (parse Normal s')
      | Dig2 d1 d2 =>
          if is_octdigit d1 && is_octdigit d2 && is_octdigit c then
            cons_items
              [TLit (makechar (64 * oct_val d1 + 8 * oct_val d2 + oct_val c))]
              (parse Normal s')
          else
            let g := TGroup (10 * oct_val d1 + oct_val d2) in
            if Ascii.eqb c backslash then cons_items [g] (parse Esc s')
            else cons_items [g; TLit c] (parse Normal s')
      | GOpen =>
          if Ascii.eqb c "<" then parse (GName EmptyString) s'
          else Raise (ReError "missing group name")
      | GName acc =>
          if Ascii.eqb c ">" then
            match group_of_name acc with
            | Ok g => cons_items [g] (parse Normal s')
            | Raise e => Raise e
            end
          else parse (GName (acc +:+ String c EmptyString)) s'
      end
  end.

Definition parse_template (repl : string) : pyresult (list item) :=
  parse Normal repl.

(** sre_parse.expand_template *)
Fixpoint expand_template (t : list item) (m : match_obj) : pyresult string :=
  match t with
  | [] => Ok EmptyString
  | TLit c :: t' =>
      rest ← expand_template t' m; Ok (String c rest)
  | TGroup n :: t' =>
      if (m_ngroups m <? n)%nat then Raise (ReError "invalid group reference")
      else
        match group m n with
        | None => Raise (ReError "unmatched group")
        | Some g => rest ← expand_template t' m; Ok (g +:+ rest)
        end
  end.

(** The substitution loop, walking the subject from left to right.
    [skip] counts the characters still covered by the last match, [i] is the
    end of the last match and [n] the number of replacements made. An empty
    match next to the previous match is ignored. *)
Fixpoint sub_scan (r : regex) (t : list item) (subj : string)
    (pos : nat) (s : string) (skip i n : nat) {struct s} : pyresult string :=
  match s with
  | EmptyString =>
      match skip, match_at r subj pos s with
      | O, Some m =>
          if (i =? pos)%nat && (0 <? n)%nat then Ok EmptyString
          else expand_template t m
      | _, _ => Ok EmptyString
      end
  | String c s' =>
      match skip with
      | S k => sub_scan r t subj (S pos) s' k i n
      | O =>
          match match_at r subj pos s with
          | None =>
              rest ← sub_scan r t subj (S pos) s' 0 i n; Ok (String c rest)
          | Some m =>
              let e := m_end m in
              if (e =? pos)%nat then
                if (i =? pos)%nat && (0 <? n)%nat then
                  rest ← sub_scan r t subj (S pos) s' 0 i n;
                  Ok (String c rest)
                else
                  rep ← expand_template t m;
                  rest ← sub_scan r t subj (S pos) s' 0 pos (S n);
                  Ok (rep +:+ String c rest)
              else
                rep ← expand_template t m;
                rest ← sub_scan r t subj (S pos) s' (e - pos - 1) e (S n);
                Ok (rep +:+ rest)
          end
      end
  end.

(** [pattern.sub(repl, s)] for a string [repl] *)
Definition re_sub (r : regex) (repl : string) (s : string) : pyresult string :=
  t ← parse_template repl;
  sub_scan r t s 0 s 0 0 0.

End Template.

(** ** irclog2html.py: HTML *)

(** The pattern "(http|https|ftp|gopher|news)://\S*" *)
Definition URL_REGEXP : Re.regex :=
  Re.seqs [Re.Group 1 (Re.Alt (Re.lits "http")
                      (Re.Alt (Re.lits "https")
                      (Re.Alt (Re.lits "ftp")
                      (Re.Alt (Re.lits "gopher") (Re.lits "news")))));
           Re.lits "://"; Re.Star is_nonspace].

(** The replacement template of [createlinks], as written in the source: a
    raw string, so each backslash reaches the template parser. It reads
    [<a href=] quote backslash [0] quote [>] backslash [0</a>]. *)
Definition link_template : string :=
  "<a href=" +:+ String dquote (String backslash ("0" +:+ String dquote
    (">" +:+ String backslash "0</a>"))).

(** [createlinks] *)
Definition createlinks (text : string) : pyresult string :=
  Template.re_sub URL_REGEXP link_template text.

(** ** irclog2html.py: escaping and output styles *)

(** [s.replace(old, new)] for a non-empty [old]: occurrences are replaced
    from left to right and do not overlap. [skip] counts the characters
    still covered by the occurrence just replaced. *)
Fixpoint replace_scan (old new s : string) (skip : nat) : string :=
  match s with
  | EmptyString => EmptyString
  | String c s' =>
      match skip with
      | S k => replace_scan old new s' k
      | O =>
          if String.prefix old s
          then new +:+ replace_scan old new s' (String.length old - 1)
          else String c (replace_scan old new s' 0)
      end
  end.

(** [new] after every character of [s] *)
Fixpoint follow_each (new s : string) : string :=
  match s with
  | EmptyString => EmptyString
  | String c s' => String c (new +:+ follow_each new s')
  end.

(** [s.replace(old, new)]; an empty [old] matches before every character
    and at the end. *)
Definition replace (old new s : string) : string :=
  match old with
  | EmptyString => new +:+ follow_each new s
  | _ => replace_scan old new s 0
  end.

(** [''.join([c for c in s if p(c)])] *)
Fixpoint filter_str (p : ascii -> bool) (s : string) : string :=
  match s with
  | EmptyString => EmptyString
  | String c s' => if p c then String c (filter_str p s') else filter_str p s'
  end.

(** [escape] *)
Definition escape (s : string) : string :=
  let s := replace ">" "&gt;" (replace "<" "&lt;" (replace "&" "&amp;" s)) in
  filter_str (fun c => (31 <? nat_of_ascii c)%nat) s.

Definition VERSION : string := "2.1mg".
Definition RELEASE : string := "2005-01-09".

Definition tab : ascii := "009".
Definition newline : ascii := "010".

(** [s] between double quotes *)
Definition quoted (s : string) : string :=
  String dquote (s +:+ String dquote EmptyString).

(** What [print >> outfile, s] writes. *)
Definition print (s : string) : string := s +:+ String newline EmptyString.

(** The lines of a text, each but the last followed by a newline. *)
Fixpoint unlines (l : list string) : string :=
  match l with
  | [] => EmptyString
  | [s] => s
  | s :: l' => s +:+ String newline (unlines l')
  end.

(** The dictionary [colours] of a style: a colour for some kinds of event. *)
Definition colours_t : Type := LogParser.kind -> option string.

Definition kind_eqb (a b : LogParser.kind) : bool :=
  match a, b with
  | LogParser.COMMENT, LogParser.COMMENT
  | LogParser.ACTION, LogParser.ACTION
  | LogParser.JOIN, LogParser.JOIN
  | LogParser.PART, LogParser.PART
  | LogParser.NICKCHANGE, LogParser.NICKCHANGE
  | LogParser.SERVER, LogParser.SERVER
  | LogParser.OTHER, LogParser.OTHER => true
  | _, _ => false
  end.

(** [colours[what] = colour] *)
Definition set_colour (what : LogParser.kind) (colour : string)
    (colours : colours_t) : colours_t :=
  fun k => if kind_eqb k what then Some colour else colours k.

Module Style.

(** An output style: the text each method writes to [outfile]. [servermsg]
    is the same method in every style and calls [_servermsg] of the style
    at hand. *)
Record t := {
  name : string;
  head : string -> string;                          (* head(title) *)
  foot : string;                                    (* foot() *)
  _servermsg : string -> string;                    (* _servermsg(line) *)
  nicktext : string -> string -> string -> string   (* nicktext(nick, text, htmlcolour) *)
}.

(** [SimpleTextStyle.head], with the default charset *)
Definition simple_head (title : string) : string :=
  let charset := "iso-8859-1" in
  print (unlines
    ["<!DOCTYPE HTML PUBLIC " +:+ quoted "-//W3C//DTD HTML 4.0 Transitional//EN"
       +:+ ">";
     "<html>";
     "<head>";
     String tab ("<title>" +:+ title +:+ "</title>");
     String tab ("<meta name=" +:+ quoted "generator" +:+ " content="
       +:+ quoted ("irclog2html.py " +:+ VERSION +:+ " by Marius Gedminas")
       +:+ ">");
     String tab ("<meta name=" +:+ quoted "version" +:+ " content="
       +:+ quoted (VERSION +:+ " - " +:+ RELEASE) +:+ ">");
     String tab ("<meta http-equiv=" +:+ quoted "Content-Type" +:+ " content="
       +:+ quoted ("text/html; charset=" +:+ charset) +:+ ">");
     "</head>";
     "<body text=" +:+ quoted "#000000" +:+ " bgcolor=" +:+ quoted "#ffffff"
       +:+ "><tt>"]).

(** [SimpleTextStyle.foot]; the statement ends with a comma, so no newline
    follows the text. *)
Definition simple_foot : string :=
  unlines
    [EmptyString;
     "<br>Generated by irclog2html.py " +:+ VERSION +:+ " by <a href="
       +:+ quoted "mailto:marius@pov.lt" +:+ ">Marius Gedminas</a>";
     " - find it at <a href=" +:+ quoted "http://mg.pov.lt/irclog2html.py"
       +:+ ">mg.pov.lt</a>!";
     "</tt></body></html>"].

Definition SimpleTextStyle : t :=
  {| name := "simplett";
     head := simple_head;
     foot := simple_foot;
     _servermsg := fun line => print (line +:+ "<br>");
     nicktext := fun nick text htmlcolour =>
       print ("&lt;" +:+ nick +:+ "&gt; " +:+ text +:+ "<br>") |}.

Definition TextStyle : t :=
  {| name := "tt";
     head := head SimpleTextStyle;
     foot := foot SimpleTextStyle;
     _servermsg := _servermsg SimpleTextStyle;
     nicktext := fun nick text htmlcolour =>
       print ("<font color=" +:+ quoted htmlcolour +:+ ">&lt;" +:+ nick
              +:+ "&gt;</font>" +:+ " <font color=" +:+ quoted "#000000"
              +:+ ">" +:+ text +:+ "</font><br>") |}.

Definition SimpleTableStyle : t :=
  {| name := "simpletable";
     head := fun title =>
       head SimpleTextStyle title
       +:+ print "<table cellspacing=3 cellpadding=2 border=0>";
     foot := print "</table>" +:+ foot SimpleTextStyle;
     _servermsg := fun line =>
       print ("<tr><td colspan=2><tt>" +:+ line +:+ "</tt></td></tr>");
     nicktext := fun nick text htmlcolour =>
       print ("<tr bgcolor=" +:+ quoted "#eeeeee" +:+ "><th><font color="
              +:+ quoted htmlcolour +:+ ">" +:+ "<tt>" +:+ nick
              +:+ "</tt></font></th>" +:+ "<td width=" +:+ quoted "100%"
              +:+ "><tt>" +:+ text +:+ "</tt></td></tr>") |}.

Definition TableStyle : t :=
  {| name := "table";
     head := head SimpleTableStyle;
     foot := foot SimpleTableStyle;
     _servermsg := _servermsg SimpleTableStyle;
     nicktext := fun nick text htmlcolour =>
       print ("<tr><th bgcolor=" +:+ quoted htmlcolour +:+ "><font color="
              +:+ quoted "#ffffff" +:+ ">" +:+ "<tt>" +:+ nick
              +:+ "</tt></font></th>" +:+ "<td width=" +:+ quoted "100%"
              +:+ " bgcolor=" +:+ quoted "#eeeeee" +:+ "><tt><font"
              +:+ " color=" +:+ quoted htmlcolour +:+ ">" +:+ text
              +:+ "</font></tt></td></tr>") |}.

Definition STYLES : list t :=
  [SimpleTextStyle; TextStyle; SimpleTableStyle; TableStyle].

(** [SimpleTextStyle.servermsg], which every style inherits *)
Definition servermsg (st : t) (colours : colours_t)
    (what : LogParser.kind) (text : string) : string :=
  let text :=
    match colours what with
    | Some (String c s) =>
        "<font color=" +:+ quoted (String c s) +:+ ">" +:+ text +:+ "</font>"
    | _ => text
    end in
  _servermsg st text.

End Style.

(** COLOURS: option name, default, and the kind of event it colours *)
Definition COLOURS : list (string * string * LogParser.kind) :=
  [("part", "#000099", LogParser.PART);
   ("join", "#009900", LogParser.JOIN);
   ("server", "#009900", LogParser.SERVER);
   ("nickchange", "#009900", LogParser.ACTION);
   ("action", "#CC00CC", LogParser.NICKCHANGE)].

(** The value of the option with destination [colour_name]: what the
    command line gave, or the default. *)
Definition option_value (given : gmap string string) (name default : string)
    : string :=
  match given !! ("colour_" +:+ name) with
  | Some v => v
  | None => default
  end.

(** The dictionary [main] builds from the options:
    [for name, default, what in COLOURS: colours[what] = options.colour_name] *)
Definition colours_of_options (given : gmap string string) : colours_t :=
  fold_left (fun colours '(name, default, what) =>
               set_colour what (option_value given name default) colours)
            COLOURS (fun _ => None).

(** ** irclog2html.py: the conversion *)

(** An exception of the conversion: one of [exn], or the AttributeError for
    a missing attribute. *)
Inductive raised :=
| Exn (e : exn)
| AttributeError (attr : string).

(** The calls [log2html] makes on the formatter, in order. *)
Inductive call :=
| CallHead (title : string)
| CallNickText (nick text htmlcolour : string)
| CallServerMsg (what : LogParser.kind) (text : string)
| CallFoot.

(** The items of a payload when it is iterated: the members of a tuple, the
    characters of a string. *)
Definition items (i : LogParser.info) : list pyval :=
  match i with
  | LogParser.NickText nick text => [nick; VStr text]
  | LogParser.Line text =>
      map (fun c => VStr (String c EmptyString)) (list_ascii_of_string text)
  | LogParser.Rename text oldnick newnick => [VStr text; oldnick; newnick]
  end.

(** [map(escape, items)]; [None] when an item is no string and so has no
    method [replace]. *)
Fixpoint map_escape (vs : list pyval) : option (list string) :=
  match vs with
  | [] => Some []
  | VStr s :: vs' =>
      match map_escape vs' with
      | Some r => Some (escape s :: r)
      | None => None
      end
  | _ :: _ => None
  end.

(** The ValueError of unpacking [got] values into [want] names,
    [got <> want], with the messages of CPython 2.7. *)
Definition unpack_error (want got : nat) : exn :=
  if (want <? got)%nat then ValueError "too many values to unpack"
  else
    match got with
    | 0%nat => ValueError "need more than 0 values to unpack"
    | 1%nat => ValueError "need more than 1 value to unpack"
    | _ => ValueError "need more than 2 values to unpack"
    end.

(** The body of the loop of [log2html] for one event: the calls made on the
    formatter, the colourizer afterwards, and the exception raised, if
    any. The colourizer has no method [change]. *)
Definition on_event (ev : LogParser.event) (nick_colour : NickColourizer.t)
    : list call * NickColourizer.t * option raised :=
  let '(time, what, info) := ev in
  match what with
  | LogParser.COMMENT =>
      match map_escape (items info) with
      | None => ([], nick_colour, Some (AttributeError "replace"))
      | Some [nick; text] =>
          match createlinks text with
          | Raise e => ([], nick_colour, Some (Exn e))
          | Ok text =>
              let text := replace "  " "&nbsp;&nbsp;" text in
              match NickColourizer.getitem nick_colour nick with
              | (Raise e, nick_colour) => ([], nick_colour, Some (Exn e))
              | (Ok htmlcolour, nick_colour) =>
                  ([CallNickText nick text htmlcolour], nick_colour, None)
              end
          end
      | Some vs => ([], nick_colour, Some (Exn (unpack_error 2 (length vs))))
      end
  | LogParser.NICKCHANGE =>
      match map_escape (items info) with
      | None => ([], nick_colour, Some (AttributeError "replace"))
      | Some [text; oldnick; newnick] =>
          ([], nick_colour, Some (AttributeError "change"))
      | Some vs => ([], nick_colour, Some (Exn (unpack_error 3 (length vs))))
      end
  | _ =>
      match info with
      | LogParser.Line text =>
          match createlinks (escape text) with
          | Raise e => ([], nick_colour, Some (Exn e))
          | Ok text => ([CallServerMsg what text], nick_colour, None)
          end
      | _ => ([], nick_colour, Some (AttributeError "replace"))
      end
  end.

(** The loop of [log2html] over the events the parser yields. *)
Fixpoint log2html_loop (evs : list LogParser.event)
    (nick_colour : NickColourizer.t)
    : list call * NickColourizer.t * option raised :=
  match evs with
  | [] => ([], nick_colour, None)
  | ev :: evs' =>
      match on_event ev nick_colour with
      | (cs, nick_colour, Some e) => (cs, nick_colour, Some e)
      | (cs, nick_colour, None) =>
          let '(cs', nick_colour, r) := log2html_loop evs' nick_colour in
          (cs ++ cs', nick_colour, r)
      end
  end.

(** [log2html] on the lines of the log: the calls made on the formatter and
    the exception that ended the conversion, if any. The parser is a
    generator: the events before the line it fails on are handled first. *)
Definition log2html (infile : list string) (title : string)
    : list call * option raised :=
  let nick_colour := NickColourizer.init 30 ∅ in
  let '(evs, stop) := LogParser.iter infile in
  let '(cs, _, r) := log2html_loop evs nick_colour in
  match r, stop with
  | Some e, _ => (CallHead title :: cs, Some e)
  | None, Some e => (CallHead title :: cs, Some (Exn e))
  | None, None => (CallHead title :: cs ++ [CallFoot], None)
  end.

(** What a style writes for one call. *)
Definition render (st : Style.t) (colours : colours_t) (c : call) : string :=
  match c with
  | CallHead title => Style.head st title
  | CallNickText nick text htmlcolour => Style.nicktext st nick text htmlcolour
  | CallServerMsg what text => Style.servermsg st colours what text
  | CallFoot => Style.foot st
  end.

(** The text in [outfile] when [log2html] returns or raises. *)
Definition written (st : Style.t) (colours : colours_t) (cs : list call)
    : string :=
  fold_right (fun c rest => render st colours c +:+ rest) EmptyString cs.


(** ** logs2html.py: the directory scheduler *)

(** [os.path.basename]: what follows the last slash. *)
Fixpoint basename (p : string) : string :=
  match p with
  | EmptyString => EmptyString
  | String c p' =>
      if contains "/" p then basename p' else p
  end.

(** [os.path.join] of two components (posixpath). *)
Definition path_join (a b : string) : string :=
  if startswith b "/" then b
  else
    match a with
    | EmptyString => b
    | _ => if endswith a "/" then a +:+ b else a +:+ "/" +:+ b
    end.

(** A calendar date as [datetime.date] holds it. *)
Record date := { year : Z; month : Z; day : Z }.

Definition is_leap (y : Z) : bool :=
  ((y mod 4 =? 0) && (negb (y mod 100 =? 0) || (y mod 400 =? 0)))%Z.

Definition days_in_month (y m : Z) : Z :=
  if (m =? 2)%Z then (if is_leap y then 29 else 28)%Z
  else if ((m =? 4) || (m =? 6) || (m =? 9) || (m =? 11))%Z then 30%Z
  else 31%Z.

(** [datetime.date(year, month, day)], with the messages of CPython 2.7 *)
Definition make_date (y m d : Z) : pyresult date :=
  if negb ((1 <=? y) && (y <=? 9999))%Z
  then Raise (ValueError "year is out of range")
  else if negb ((1 <=? m) && (m <=? 12))%Z
  then Raise (ValueError "month must be in 1..12")
  else if negb ((1 <=? d) && (d <=? days_in_month y m))%Z
  then Raise (ValueError "day is out of range for month")
  else Ok {| year := y; month := m; day := d |}.

(** ["%d" % z] for [z >= 0]: the decimal digits, most significant first. *)
Fixpoint decimal_digits (fuel : nat) (z : Z) (acc : string) : string :=
  match fuel with
  | O => acc
  | S fuel' =>
      let acc' := String (ascii_of_nat (48 + Z.to_nat (z mod 10))) acc in
      if (z <? 10)%Z then acc' else decimal_digits fuel' (z / 10) acc'
  end.

Definition decimal (z : Z) : string :=
  decimal_digits (S (Z.to_nat (Z.log2 z))) z EmptyString.

(** DATE_REGEXP, the pattern "^.*(\d\d\d\d)-?(\d\d)-?(\d\d)" *)
Definition DATE_REGEXP : Re.regex :=
  Re.seqs [Re.Bol; Re.Star is_dot;
           Re.Group 1 (Re.seqs [Re.digit; Re.digit; Re.digit; Re.digit]);
           Re.Maybe (Re.Lit "-");
           Re.Group 2 (Re.seqs [Re.digit; Re.digit]);
           Re.Maybe (Re.Lit "-");
           Re.Group 3 (Re.seqs [Re.digit; Re.digit])].

(** Stable sort of a list by a string key ([sorted(..., key=...)]). *)
Section Sorted.
Context {A : Type} (key : A -> string).

Fixpoint insert_sorted (x : A) (l : list A) : list A :=
  match l with
  | [] => [x]
  | y :: l' =>
      if String.leb (key x) (key y) then x :: l
      else y :: insert_sorted x l'
  end.

Definition sorted (l : list A) : list A :=
  fold_right insert_sorted [] l.
End Sorted.

(** The file system as the scheduler sees it: the modification time of
    every existing path, in a unit fine enough to tell two times apart. *)
Definition files := gmap string Z.

(** [os.path.exists] *)
Definition path_exists (fs : files) (p : string) : bool :=
  bool_decide (is_Some (fs !! p)).

(** [os.stat(p).st_mtime] *)
Definition stat_mtime (fs : files) (p : string) : pyresult Z :=
  match fs !! p with
  | Some t => Ok t
  | None => Raise (OSError p)
  end.

Module LogFile.

(** A [LogFile] object. [newfile_cache] is the attribute [_newfile], absent
    until [newfile] is first called. *)
Record t := {
  filename : string;
  date_ : date;
  link : string;
  title : string;
  newfile_cache : option bool
}.

Definition set_cache (b : bool) (lf : t) : t :=
  {| filename := filename lf; date_ := date_ lf; link := link lf;
     title := title lf; newfile_cache := Some b |}.

End LogFile.

(** The calls a run makes on the outside world, in order; a call is
    recorded when it is made, whether it succeeds or fails. *)
Inductive effect :=
| EGenerate (argv : list string)             (* irclog2html.main(argv) *)
| EUnlink (dst : string)
| ESymlink (src dst : string)
| EWriteIndex (path : string) (links : list string)
| ECopy (src dst : string).

(** The state a run works on: the files, the [LogFile] objects of the run
    (shared by position: [prev] and [next] are the very objects of the
    list), the clock that stamps written files, and the effects so far. *)
Record world := {
  fs : files;
  objs : list LogFile.t;
  clock : Z;
  trace : list effect
}.

Definition set_fs (f : files) (w : world) : world :=
  {| fs := f; objs := objs w; clock := clock w; trace := trace w |}.
Definition set_objs (o : list LogFile.t) (w : world) : world :=
  {| fs := fs w; objs := o; clock := clock w; trace := trace w |}.
Definition emit (e : effect) (w : world) : world :=
  {| fs := fs w; objs := objs w; clock := clock w; trace := trace w ++ [e] |}.

(** Computations on the world that may raise; the world as it stands when
    the exception is raised is kept. *)
Definition run_t (A : Type) : Type := world -> pyresult A * world.

#[global] Instance run_ret : MRet run_t := fun A a w => (Ok a, w).
#[global] Instance run_bind : MBind run_t := fun A B f c w =>
  match c w with
  | (Ok a, w') => f a w'
  | (Raise e, w') => (Raise e, w')
  end.

Definition raise {A} (e : exn) : run_t A := fun w => (Raise e, w).
Definition lift {A} (r : pyresult A) : run_t A := fun w => (r, w).
Definition get_world : run_t world := fun w => (Ok w, w).
Definition modify (f : world -> world) : run_t unit := fun w => (Ok tt, f w).

Record options := {
  opt_style : string;
  opt_title : string;
  opt_prefix : string;
  opt_force : bool;
  opt_searchbox : bool;
  opt_dircproxy : bool;
  opt_pattern : string
}.

Section Scheduler.
(** Parts of the package that lie outside the files at hand. *)

(** [irclog2html.pick_output_filename] *)
Variable pick_output_filename : string -> string.
(** the text [date.strftime(format)] gives for a date it accepts *)
Variable strftime : date -> string -> string.
(** [irclog2html.main(argv)]: what rendering does to the files, at a given
    time; it may exit or fail. *)
Variable irclog2html_main : list string -> Z -> files -> pyresult unit * files.
(** [glob.glob(pattern)] at the time of the run *)
Variable glob_glob : string -> list string.
(** [hasattr(os, "symlink")] *)
Variable has_symlink : bool.
(** [os.symlink(src, dst)] at the time of the run: the text of the OSError
    it raises, if it fails (the name is taken, the directory cannot be
    written) *)
Variable symlink_error : string -> string -> option string.
(** [open(path, 'w')] at the time of the run; an [IOError] carries its
    text, [str(e)] *)
Variable open_write : string -> pyresult unit.
(** the writes of [write_index(outfile, title, logfiles, searchbox,
    latest_log_link)] to the file just opened, up to [outfile.close()]:
    they may fail *)
Variable write_index :
  string -> list LogFile.t -> bool -> option string -> pyresult unit.
(** [shutil.copy(src, dst)] at the time of the run *)
Variable shutil_copy : string -> string -> pyresult unit.
(** CSS_FILE *)
Variable CSS_FILE : string.

(** [date.strftime(format)] as CPython 2.7 has it: a year before 1900 is
    refused, whatever the format. *)
Definition date_strftime (d : date) (format : string) : pyresult string :=
  if (year d <? 1900)%Z then
    Raise (ValueError
             ("year=" +:+ decimal (year d) +:+ " is before 1900; "
              +:+ "the datetime strftime() methods require year >= 1900"))
  else Ok (strftime d format).

(** [LogFile.__init__]. The file name is a Python 2 string: the digits of
    the pattern and of [int] are the ten ASCII digits. *)
Definition LogFile_init (filename : string) : pyresult LogFile.t :=
  let base := basename filename in
  match Re.re_match DATE_REGEXP base with
  | None =>
      Raise (Error ("File name does not contain a YYYY-MM-DD date: "
                    +:+ filename))
  | Some m =>
      let num n := int_of_digits (default EmptyString (Re.group m n)) in
      d ← make_date (num 1%nat) (num 2%nat) (num 3%nat);
      let link := pick_output_filename base in
      title ← date_strftime d "%Y-%m-%d (%A)";
      Ok {| LogFile.filename := filename;
            LogFile.date_ := d;
            LogFile.link := link;
            LogFile.title := title;
            LogFile.newfile_cache := None |}
  end.

(** The object at position [n] of the run's list. *)
Definition obj (n : nat) : run_t LogFile.t := fun w =>
  match objs w !! n with
  | Some lf => (Ok lf, w)
  | None => (Raise (IndexError "list index out of range"), w)
  end.

(** [LogFile.newfile], on the object at position [n]: the answer of the
    first call is kept in the object and returned ever after. *)
Definition newfile (n : nat) : run_t bool :=
  lf ← obj n;
  match LogFile.newfile_cache lf with
  | Some b => mret b
  | None =>
      w ← get_world;
      let b := negb (path_exists (fs w) (LogFile.filename lf +:+ ".html")) in
      _ ← modify (fun w => set_objs (<[n := LogFile.set_cache b lf]> (objs w)) w);
      mret b
  end.

(** [LogFile.uptodate] *)
Definition uptodate (n : nat) : run_t bool :=
  lf ← obj n;
  w ← get_world;
  log_mtime ← lift (stat_mtime (fs w) (LogFile.filename lf));
  match stat_mtime (fs w) (LogFile.filename lf +:+ ".html") with
  | Raise _ => mret false
  | Ok html_mtime => mret (log_mtime <? html_mtime)%Z
  end.

(** The call [irclog2html.main(argv)] *)
Definition call_main (argv : list string) : run_t unit := fun w =>
  let '(r, f) := irclog2html_main argv (clock w) (fs w) in
  (r, emit (EGenerate argv) (set_fs f w)).

(** The statements [if prev: argv += ...] and [if next: argv += ...] of
    [LogFile.generate]: the arguments that name a neighbour, with its day
    as [date.strftime] writes it. *)
Definition neighbour_args (argv : list string) (x : option nat)
    (args : LogFile.t -> string -> list string) : run_t (list string) :=
  match x with
  | Some i =>
      other ← obj i;
      day ← lift (date_strftime (LogFile.date_ other) "%A, %Y-%m-%d");
      mret (argv ++ args other day)
  | None => mret argv
  end.

(** [LogFile.generate] *)
Definition generate (n : nat) (style title_prefix : string)
    (prev next : option nat) (extra_args : list string) : run_t unit :=
  _ ← newfile n;
  self ← obj n;
  let argv := ["irclog2html.py"; "-s"; style] ++ extra_args in
  day ← lift (date_strftime (LogFile.date_ self) "%A, %Y-%m-%d");
  let argv := argv ++ ["-t"; title_prefix +:+ day] in
  argv ← neighbour_args argv prev
           (fun prev day =>
              ["--prev-url"; LogFile.link prev; "--prev-title";
               "&#171; " +:+ day]);
  let argv := argv ++ ["--index-url=index.html"; "--index-title=Index"] in
  argv ← neighbour_args argv next
           (fun next day =>
              ["--next-url"; LogFile.link next; "--next-title";
               day +:+ " &#187;"]);
  let argv := argv ++ [LogFile.filename self] in
  call_main argv.

(** The list comprehension of [find_log_files]: the first file name that
    cannot be made a [LogFile] ends it. *)
Fixpoint make_logfiles (names : list string) : pyresult (list LogFile.t) :=
  match names with
  | [] => Ok []
  | f :: names' =>
      lf ← LogFile_init f;
      rest ← make_logfiles names';
      Ok (lf :: rest)
  end.

(** [find_log_files] *)
Definition find_log_files (directory pattern : string)
    : pyresult (list LogFile.t) :=
  let pattern := path_join directory pattern in
  l ← make_logfiles (glob_glob pattern ++ glob_glob (pattern +:+ ".gz"));
  Ok (sorted LogFile.filename l).

(** [x and x.newfile()] for a neighbour [x] that may be [None] *)
Definition and_newfile (x : option nat) : run_t bool :=
  match x with
  | Some i => newfile i
  | None => mret false
  end.

(** The test of the loop body of [process], with Python's short-circuit
    evaluation of [or] and [and]. *)
Definition needs_generating (force : bool) (n : nat) (prev next : option nat)
    : run_t bool :=
  if force then mret true
  else
    u ← uptodate n;
    if negb u then mret true
    else
      p ← and_newfile prev;
      if (p : bool) then mret true
      else and_newfile next.

(** One turn of the loop of [process]; answers whether the file was
    generated. *)
Definition process_one (o : options) (extra_args : list string)
    (len n : nat) : run_t bool :=
  let next := if (0 <? n)%nat then Some (n - 1)%nat else None in
  let prev := if (n + 1 <? len)%nat then Some (n + 1)%nat else None in
  g ← needs_generating (opt_force o) n prev next;
  if (g : bool) then
    _ ← generate n (opt_style o) (opt_prefix o) prev next extra_args;
    mret true
  else mret false.

(** The loop of [process] over the positions [ns]; answers the positions
    generated. *)
Fixpoint process_loop (o : options) (extra_args : list string)
    (len : nat) (ns : list nat) : run_t (list nat) :=
  match ns with
  | [] => mret []
  | n :: ns' =>
      g ← process_one o extra_args len n;
      gs ← process_loop o extra_args len ns';
      mret (if (g : bool) then n :: gs else gs)
  end.

(** The first lines of [process], on their own: the options passed on to
    the renderer. *)
Definition extra_args_of (o : options) : list string :=
  let extra_args := [] in
  let extra_args :=
    if opt_searchbox o then extra_args ++ ["-S"] else extra_args in
  let extra_args :=
    if opt_dircproxy o then extra_args ++ ["--dircproxy"] else extra_args in
  extra_args.

(** [move_symlink]: a failure of [os.unlink] is passed over, one of
    [os.symlink] is not. The two calls are recorded as they are made. *)
Definition move_symlink (src dst : string) : run_t unit :=
  _ ← modify (emit (EUnlink dst));
  _ ← modify (emit (ESymlink src dst));
  match symlink_error src dst with
  | None => mret tt
  | Some text => raise (OSError text)
  end.

(** [process]; answers the positions (newest first) that were generated. *)
Definition process (dir : string) (o : options) : run_t (list nat) :=
  let extra_args := [] in
  let extra_args :=
    if opt_searchbox o then extra_args ++ ["-S"] else extra_args in
  let extra_args :=
    if opt_dircproxy o then extra_args ++ ["--dircproxy"] else extra_args in
  logfiles ← lift (find_log_files dir (opt_pattern o));
  let logfiles := rev logfiles in
  _ ← modify (set_objs logfiles);
  gs ← process_loop o extra_args (length logfiles) (seq 0 (length logfiles));
  latest_log_link ←
    match logfiles with
    | newest :: _ =>
        if has_symlink then
          _ ← move_symlink (LogFile.link newest)
                           (path_join dir "latest.log.html");
          mret (Some "latest.log.html")
        else mret None
    | [] => mret None
    end;
  let outfilename := path_join dir "index.html" in
  _ ← match open_write outfilename with
      | Ok _ => modify (fun w => set_fs (<[outfilename := clock w]> (fs w)) w)
      | Raise (IOError text) =>
          raise (Error ("cannot open " +:+ outfilename +:+ " for writing: "
                        +:+ text))
      | Raise e => raise e
      end;
  _ ← modify (emit (EWriteIndex outfilename (map LogFile.link logfiles)));
  _ ← lift (write_index (opt_title o) logfiles (opt_searchbox o)
                        latest_log_link);
  let css_file := path_join dir "irclog.css" in
  w ← get_world;
  _ ← (if negb (path_exists (fs w) css_file) && path_exists (fs w) CSS_FILE
       then
         (* a copy that fails is taken to leave no style sheet behind *)
         _ ← modify (emit (ECopy CSS_FILE css_file));
         _ ← lift (shutil_copy CSS_FILE css_file);
         modify (fun w => set_fs (<[css_file := clock w]> (fs w)) w)
       else mret tt);
  mret gs.

End Scheduler.

(** [logs2html.main], from the call of [process] on: the application error
    becomes the exit message, any other exception passes through. *)
Definition main_try {A} (progname : string) (run : run_t A) : run_t unit :=
  fun w =>
    match run w with
    | (Ok _, w') => (Ok tt, w')
    | (Raise (Error msg), w') =>
        (Raise (SystemExit (progname +:+ ": " +:+ msg)), w')
    | (Raise e, w') => (Raise e, w')
    end.

(** ** irclogserver.py: the WSGI handler *)

(** [s.split('/', 1)] when [s] holds a slash: what precedes and what follows
    the first one. *)
Fixpoint split_slash (s : string) : string * string :=
  match s with
  | EmptyString => (EmptyString, EmptyString)
  | String c s' =>
      if Ascii.eqb c "/" then (EmptyString, s')
      else let '(a, b) := split_slash s' in (String c a, b)
  end.

(** Truth value of an optional string: [None] and the empty string are
    false. *)
Definition truthy (x : option string) : bool :=
  match x with
  | Some (String _ _) => true
  | _ => false
  end.

(** [x or d] *)
Definition or_default (x : option string) (d : string) : string :=
  match x with
  | Some (String c s) => String c s
  | _ => d
  end.

Record response := {
  status : string;
  content_type : string;
  body : string
}.

Definition not_found : response :=
  {| status := "404 Not Found"; content_type := "text/plain";
     body := "Not found" |}.

Definition ok_html (b : string) : response :=
  {| status := "200 Ok"; content_type := "text/html; charset=UTF-8";
     body := b |}.

Section Server.
(** Parts of the package and of the process that lie outside the files at
    hand. *)
Variable pick_output_filename : string -> string.
Variable strftime : date -> string -> string.
Variable glob_glob : string -> list string.
Variable CSS_FILE : string.
Variable DEFAULT_LOGFILE_PATH : string.
Variable DEFAULT_LOGFILE_PATTERN : string.
(** [os.environ] *)
Variable os_environ : gmap string string.
(** the readable files and their contents ([open(path, "rb")]) *)
Variable store : gmap string string.
(** [convert_irc_log] on the contents of a log, with a title: the page
    written to the stream, or an exception *)
Variable convert_irc_log : string -> string -> pyresult string.
(** [write_index] with a search box: the page written to the stream *)
Variable write_index : string -> list LogFile.t -> string.
(** the fields of a request, as a [cgi.FieldStorage] object holds them *)
Variable form : Type.
(** the fields of a GET or HEAD request; [cgi] reads them from QUERY_STRING
    and accepts any string *)
Variable query_fields : gmap string string -> form.
(** the fields of any other request; [cgi] reads them from the body,
    [environ['wsgi.input']], and raises when it cannot parse it *)
Variable body_fields : gmap string string -> pyresult form.
(** [search_page] and [dir_listing]: the page written, or an exception *)
Variable search_page : form -> string -> string -> pyresult string.
Variable dir_listing : string -> pyresult string.
(** the re-encoding of a plain log served as text *)
Variable decode_lines : string -> string.

(** [open(path, "rb").read()] *)
Definition read_file (path : string) : pyresult string :=
  match store !! path with
  | Some c => Ok c
  | None => Raise (IOError path)
  end.

(** [environ.get(name, os.environ.get(name))] *)
Definition getenv (environ : gmap string string) (name : string)
    : option string :=
  match environ !! name with
  | Some v => Some v
  | None => os_environ !! name
  end.

(** [parse_path]: the channel and the file name; a file name of [None]
    means 404. *)
Definition parse_path (environ : gmap string string)
    : option string * option string :=
  let path := default "/" (environ !! "PATH_INFO") in
  let path := drop_str 1 path in
  let '(channel, path, dotdot) :=
    if truthy (getenv environ "IRCLOG_CHAN_DIR") && contains "/" path then
      let '(c, p) := split_slash path in
      (Some c, p, String.eqb c "..")
    else (None, path, false) in
  if dotdot then (None, None)
  else if contains "/" path || contains (String backslash EmptyString) path
  then (channel, None)
  else (channel,
        Some (match path with EmptyString => "index.html" | _ => path end)).

(** [log_listing] *)
Definition log_listing (path pattern : string) (channel : option string)
    : pyresult string :=
  logfiles ← find_log_files pick_output_filename strftime glob_glob
               path pattern;
  let logfiles := rev logfiles in
  let title :=
    if truthy channel then "IRC logs of " +:+ default EmptyString channel
    else "IRC logs" in
  Ok (write_index title logfiles).

(** [dynamic_log]; the date is formatted by [date.__format__], that is by
    [date.strftime]. *)
Definition dynamic_log (path : string) (channel : option string)
    : pyresult string :=
  lf ← LogFile_init pick_output_filename strftime path;
  f ← read_file path;
  let title :=
    if truthy channel then "IRC log of " +:+ default EmptyString channel
    else "IRC log" in
  day ← date_strftime strftime (LogFile.date_ lf) "%A, %Y-%m-%d";
  let title := title +:+ " for " +:+ day in
  convert_irc_log f title.

(** The clause [except (Error, IOError)] around [dynamic_log] *)
Definition caught_by_handler (e : exn) : bool :=
  match e with
  | Error _ | IOError _ => true
  | _ => false
  end.

(** [cgi.FieldStorage(fp=environ['wsgi.input'], environ=environ)], on the
    environment of a WSGI server (which always holds the input stream): the
    method is that of REQUEST_METHOD in upper case, GET when there is none;
    the fields of a GET or HEAD request come from the query string, those
    of any other request from the body. *)
Definition FieldStorage (environ : gmap string string) : pyresult form :=
  let method := upper (default "GET" (environ !! "REQUEST_METHOD")) in
  if String.eqb method "GET" || String.eqb method "HEAD"
  then Ok (query_fields environ)
  else body_fields environ.

(** What [application] does once the form is parsed. *)
Definition respond (environ : gmap string string) (form_ : form)
    : pyresult response :=
  let chan_path := getenv environ "IRCLOG_CHAN_DIR" in
  let logfile_path :=
    or_default (getenv environ "IRCLOG_LOCATION") DEFAULT_LOGFILE_PATH in
  let logfile_pattern :=
    or_default (getenv environ "IRCLOG_GLOB") DEFAULT_LOGFILE_PATTERN in
  let '(channel, path) := parse_path environ in
  let logfile_path :=
    if truthy channel
    then path_join (default EmptyString chan_path)
                   (default EmptyString channel)
    else logfile_path in
  match path with
  | None => Ok not_found
  | Some path =>
      if String.eqb path "index.html" && truthy chan_path
         && bool_decide (channel = None)
      then
        page ← dir_listing (default EmptyString chan_path); Ok (ok_html page)
      else if String.eqb path "search" then
        page ← search_page form_ logfile_path logfile_pattern;
        Ok (ok_html page)
      else if String.eqb path "irclog.css" then
        match read_file CSS_FILE with
        | Ok css => Ok {| status := "200 Ok"; content_type := "text/css";
                          body := css |}
        | Raise (IOError _) => Ok not_found
        | Raise e => Raise e
        end
      else
        match read_file (path_join logfile_path path) with
        | Raise (IOError _) =>
            if String.eqb path "index.html" then
              page ← log_listing logfile_path logfile_pattern channel;
              Ok (ok_html page)
            else if endswith path ".html" then
              match dynamic_log
                      (path_join logfile_path
                         (take_str (String.length path - 5) path))
                      channel with
              | Ok page => Ok (ok_html page)
              | Raise e =>
                  if caught_by_handler e then Ok not_found else Raise e
              end
            else Ok not_found
        | Raise e => Raise e
        | Ok content =>
            if endswith path ".css" then
              Ok {| status := "200 Ok"; content_type := "text/css";
                    body := content |}
            else if endswith path ".log" || endswith path ".txt" then
              Ok {| status := "200 Ok";
                    content_type := "text/plain; charset=UTF-8";
                    body := decode_lines content |}
            else Ok (ok_html content)
        end
  end.

(** [application]: the response handed to the server, or the exception
    that leaves the handler. The form is parsed first, outside any [try]. *)
Definition application (environ : gmap string string) : pyresult response :=
  form_ ← FieldStorage environ;
  respond environ form_.

End Server.

(** * Properties *)

(** ** Strings *)

Lemma prefix_split (p s : string) :
  String.prefix p s = true -> exists t, s = p +:+ t.
Proof.
  revert s; induction p as [|c p IH]; intros s H.
  - exists s; reflexivity.
  - destruct s as [|d s]; simpl in H; [discriminate|].
    destruct (Ascii.ascii_dec c d) as [->|]; [|discriminate].
    destruct (IH _ H) as [t ->]. exists t; reflexivity.
Qed.

Lemma startswith_split (s p : string) :
  startswith s p = true -> exists t, s = p +:+ t.
Proof. apply prefix_split. Qed.

(** ** The log parser *)

Section ParserFacts.
Import LogParser.

Lemma strip_time_fst_snd (line : string) :
  classify line = classify_rest (strip_time line).1 (strip_time line).2.
Proof. unfold classify. destruct (strip_time line); reflexivity. Qed.

(** A line that begins with three stars or with an arrow is no comment
    and no action. *)
Lemma stars_not_comment (t : string) :
  Re.re_match NICK_REGEXP ("*** " +:+ t) = None
  /\ startswith ("*** " +:+ t) "* " = false.
Proof. split; reflexivity. Qed.

Lemma arrow_not_comment (t : string) :
  Re.re_match NICK_REGEXP ("--> " +:+ t) = None
  /\ startswith ("--> " +:+ t) "* " = false
  /\ startswith ("--> " +:+ t) "*** " = false.
Proof. repeat split; reflexivity. Qed.

Lemma load_oldnick : load_global "oldnick" = Raise (NameError "oldnick").
Proof. reflexivity. Qed.
End ParserFacts.

(** C1. A line that matches the nick-change pattern and reaches the last
    branch of the classifier should yield a NICKCHANGE event carrying the two
    names of the match. The code captures the names ("alice" and "alice2" for
    the line "--- alice is now known as alice2") in [nick_old] and
    [nick_new], then builds the payload from the unbound names [oldnick] and
    [newnick]: the branch raises NameError, and no line at all yields a
    NICKCHANGE event. The starred form of the example line never reaches the
    branch: it is classified JOIN. *)
Theorem C1_nickchange_payload_unbound :
  LogParser.nick_change_locals "--- alice is now known as alice2"
    = Some (VStr "alice", VStr "alice2")
  /\ LogParser.classify "--- alice is now known as alice2"
     = Raise (NameError "oldnick")
  /\ LogParser.classify "*** alice is now known as alice2"
     = Ok (None, LogParser.JOIN, LogParser.Line "*** alice is now known as alice2")
  /\ (forall line time info,
        LogParser.classify line <> Ok (time, LogParser.NICKCHANGE, info)).
Proof.
  repeat split; try reflexivity.
  intros line time info. rewrite strip_time_fst_snd.
  generalize (LogParser.strip_time line).1 (LogParser.strip_time line).2.
  intros t l. unfold LogParser.classify_rest.
  repeat match goal with
         | |- context [match ?x with _ => _ end] => destruct x
         end; simpl; congruence.
Qed.

(** C2. Classification should yield exactly one event for every non-empty
    stripped line. The code yields an event for every line except those that
    reach the nick-change branch, where it raises NameError and ends the
    iteration: the events of the lines after it are lost. *)
Theorem C2_classify_total_except_nickchange :
  (forall line,
     (exists ev, LogParser.classify line = Ok ev)
     \/ LogParser.classify line = Raise (NameError "oldnick"))
  /\ LogParser.classify "--- alice is now known as alice2"
     = Raise (NameError "oldnick")
  /\ LogParser.iter ["<bob> hi"; "--- alice is now known as alice2"; "<bob> bye"]
     = ([(None, LogParser.COMMENT, LogParser.NickText (VStr "bob") "hi")],
        Some (NameError "oldnick")).
Proof.
  repeat split; try reflexivity.
  intros line. rewrite strip_time_fst_snd.
  generalize (LogParser.strip_time line).1 (LogParser.strip_time line).2.
  intros t l. unfold LogParser.classify_rest.
  repeat match goal with
         | |- context [match ?x with _ => _ end] => destruct x
         end; simpl; eauto.
Qed.

(** The reading of C3 as it is written, on the line left after the
    timestamp. *)
Definition C3_as_stated : Prop :=
  forall line,
    let time := (LogParser.strip_time line).1 in
    let rest := (LogParser.strip_time line).2 in
    (startswith rest "*** " = true ->
       LogParser.classify line = Ok (time, LogParser.JOIN, LogParser.Line rest))
    /\ (startswith rest "--> " = true -> contains "joined" rest = true ->
       LogParser.classify line = Ok (time, LogParser.JOIN, LogParser.Line rest))
    /\ (startswith rest "--> " = true ->
        contains "left" rest || contains "quit" rest = true ->
       LogParser.classify line = Ok (time, LogParser.PART, LogParser.Line rest))
    /\ (forall t i, LogParser.classify line = Ok (t, LogParser.PART, i) ->
        startswith rest "*** " = false).

(** C3, counterexample. The line "--> bob joined and left" starts with the
    arrow and holds "left", and is classified JOIN, not PART: the JOIN test
    comes first. *)
Lemma C3_counterexample : ~ C3_as_stated.
Proof.
  intros H. specialize (H "--> bob joined and left").
  destruct H as (_ & _ & H & _).
  specialize (H eq_refl eq_refl). vm_compute in H. discriminate.
Qed.

(** C3, amended. On the line left after the timestamp, when it is neither a
    comment nor an action: a line that starts with three stars and a space
    is JOIN whatever follows; a line that starts with an arrow is JOIN when
    it holds "joined", and PART when it holds "left" or "quit" and does not
    hold "joined"; no line that starts with three stars is PART. *)
Theorem C3_join_part_precedence :
  forall line,
    let time := (LogParser.strip_time line).1 in
    let rest := (LogParser.strip_time line).2 in
    (startswith rest "*** " = true ->
       LogParser.classify line = Ok (time, LogParser.JOIN, LogParser.Line rest))
    /\ (startswith rest "--> " = true -> contains "joined" rest = true ->
       LogParser.classify line = Ok (time, LogParser.JOIN, LogParser.Line rest))
    /\ (startswith rest "--> " = true -> contains "joined" rest = false ->
        contains "left" rest || contains "quit" rest = true ->
       LogParser.classify line = Ok (time, LogParser.PART, LogParser.Line rest))
    /\ (forall t i, LogParser.classify line = Ok (t, LogParser.PART, i) ->
        startswith rest "*** " = false).
Proof.
  intros line time rest. rewrite strip_time_fst_snd.
  fold time rest. clearbody time rest. unfold LogParser.classify_rest.
  repeat split.
  - intros H. destruct (startswith_split _ _ H) as [t ->].
    destruct (stars_not_comment t) as [-> ->]. rewrite H. reflexivity.
  - intros H J. destruct (startswith_split _ _ H) as [t ->].
    destruct (arrow_not_comment t) as (-> & -> & ->). rewrite H, J. reflexivity.
  - intros H J P. destruct (startswith_split _ _ H) as [t ->].
    destruct (arrow_not_comment t) as (-> & -> & ->). rewrite H, J, P.
    reflexivity.
  - intros t i.
    destruct (Re.re_match LogParser.NICK_REGEXP rest); [discriminate|].
    destruct (startswith rest "* "); [discriminate|].
    destruct (startswith rest "*** "); [discriminate|]. reflexivity.
Qed.

(** C3, at the two example lines and at a line with a timestamp. *)
Lemma C3_witness :
  LogParser.classify "*** alice has joined #chan"
    = Ok (None, LogParser.JOIN, LogParser.Line "*** alice has joined #chan")
  /\ LogParser.classify "[12:34] --> bob has quit"
    = Ok (Some "12:34", LogParser.PART, LogParser.Line "--> bob has quit").
Proof.
  split.
  - apply (proj1 (C3_join_part_precedence "*** alice has joined #chan")).
    reflexivity.
  - apply (proj1 (proj2 (proj2
             (C3_join_part_precedence "[12:34] --> bob has quit"))));
      reflexivity.
Defined.

(** ** Links *)

(** The anchor that [createlinks] puts in place of every URL: its [href] and
    its text are the character with code 0. *)
Definition nul_anchor : string :=
  "<a href=" +:+ String dquote (String "000" (String dquote
    (">" +:+ String "000" "</a>"))).

(** C5. [createlinks] should turn every URL into a link to itself. The
    template writes the whole match as backslash-zero, which the template
    parser reads as the octal escape for the character with code 0: the
    replacement does not depend on the match, and the URL is lost from the
    text. *)
Theorem C5_createlinks_drops_url :
  Template.parse_template link_template
    = Ok (map Template.TLit (list_ascii_of_string nul_anchor))
  /\ (forall m : Re.match_obj,
        Template.expand_template
          (map Template.TLit (list_ascii_of_string nul_anchor)) m
        = Ok nul_anchor)
  /\ createlinks "see http://example.org/x now"
     = Ok ("see " +:+ nul_anchor +:+ " now")
  /\ createlinks "see http://example.org/x now"
     <> Ok ("see <a href=" +:+ String dquote ("http://example.org/x"
              +:+ String dquote ">http://example.org/x</a> now")).
Proof.
  repeat split; try reflexivity.
  vm_compute. discriminate.
Qed.

(** ** The nick colour table *)

(** The reading of C8 as it is written. *)
Definition C8_as_stated : Prop :=
  forall (self : NickColourizer.t) (old new : string),
    (forall c, NickColourizer.nick_colour self !! old = Some c ->
       NickColourizer.nick_colour (NickColourizer.nickchange self old new) !! new
         = Some c
       /\ NickColourizer.nick_colour (NickColourizer.nickchange self old new) !! old
         = None)
    /\ (NickColourizer.nick_colour self !! old = None ->
        NickColourizer.nickchange self old new = self).

(** C8, counterexample. Renaming a nick to itself keeps it a known key. *)
Lemma C8_counterexample : ~ C8_as_stated.
Proof.
  intros H.
  destruct (H (NickColourizer.init 30 {[ "a" := "#763e3e" ]}) "a" "a") as [H1 _].
  destruct (H1 "#763e3e" eq_refl) as [_ H2].
  vm_compute in H2. discriminate.
Qed.

(** C8, amended. If the old name has a colour, the rename gives that colour
    to the new name, removes the old name from the table when the two names
    differ, and leaves every other name as it was; if the old name has no
    colour the rename changes nothing. *)
Theorem C8_nickchange_moves_colour :
  forall (self : NickColourizer.t) (old new : string),
    (forall c, NickColourizer.nick_colour self !! old = Some c ->
       NickColourizer.nick_colour (NickColourizer.nickchange self old new) !! new
         = Some c
       /\ (old <> new ->
           NickColourizer.nick_colour (NickColourizer.nickchange self old new) !! old
             = None)
       /\ (forall other, other <> old -> other <> new ->
           NickColourizer.nick_colour (NickColourizer.nickchange self old new) !! other
             = NickColourizer.nick_colour self !! other))
    /\ (NickColourizer.nick_colour self !! old = None ->
        NickColourizer.nickchange self old new = self).
Proof.
  intros self old new. unfold NickColourizer.nickchange. split.
  - intros c ->. simpl. repeat split.
    + apply lookup_insert_eq.
    + intros Hne. rewrite lookup_insert_ne by congruence.
      apply lookup_delete_eq.
    + intros other H1 H2. rewrite lookup_insert_ne by congruence.
      apply lookup_delete_ne. congruence.
  - intros ->. reflexivity.
Qed.

(** C8, at a table with a colour for "a" renamed to "b". *)
Lemma C8_witness :
  let self := NickColourizer.init 30 {[ "a" := "#763e3e" ]} in
  NickColourizer.nick_colour (NickColourizer.nickchange self "a" "b") !! "b"
    = Some "#763e3e"
  /\ NickColourizer.nick_colour (NickColourizer.nickchange self "a" "b") !! "a"
    = None.
Proof.
  intros self.
  destruct (C8_nickchange_moves_colour self "a" "b") as [H _].
  destruct (H "#763e3e" eq_refl) as (H1 & H2 & _).
  split; [exact H1 | apply H2; discriminate].
Defined.

(** ** The scheduler *)

Lemma run_bind_inv {A B} (c : run_t A) (f : A -> run_t B) w r w' :
  (c ≫= f) w = (r, w') ->
  (exists a w1, c w = (Ok a, w1) /\ f a w1 = (r, w'))
  \/ (exists e, c w = (Raise e, w') /\ r = Raise e).
Proof.
  unfold mbind, run_bind. destruct (c w) as [[a|e] w1]; intros H.
  - left. eauto.
  - right. inversion H; subst. eauto.
Qed.

Lemma run_bind_ok {A B} (c : run_t A) (f : A -> run_t B) w b w' :
  (c ≫= f) w = (Ok b, w') ->
  exists a w1, c w = (Ok a, w1) /\ f a w1 = (Ok b, w').
Proof.
  intros H. destruct (run_bind_inv _ _ _ _ _ H) as [?|(e & _ & ?)];
    [assumption | discriminate].
Qed.

(** The answer kept in the object at position [k], if any. *)
Definition cache_of (w : world) (k : nat) : option bool :=
  match objs w !! k with
  | Some lf => LogFile.newfile_cache lf
  | None => None
  end.

(** From [w] to [w'] the objects keep their place, their file name and any
    answer they hold. *)
Definition caches_kept (w w' : world) : Prop :=
  forall k lf, objs w !! k = Some lf ->
    exists lf', objs w' !! k = Some lf'
      /\ LogFile.filename lf' = LogFile.filename lf
      /\ (forall b, LogFile.newfile_cache lf = Some b ->
                    LogFile.newfile_cache lf' = Some b).

Lemma caches_kept_refl w : caches_kept w w.
Proof. intros k lf H. exists lf. auto. Qed.

Lemma caches_kept_trans w1 w2 w3 :
  caches_kept w1 w2 -> caches_kept w2 w3 -> caches_kept w1 w3.
Proof.
  intros H12 H23 k lf H.
  destruct (H12 _ _ H) as (lf2 & H2 & Hn2 & Hc2).
  destruct (H23 _ _ H2) as (lf3 & H3 & Hn3 & Hc3).
  exists lf3. repeat split; [assumption | congruence | auto].
Qed.

Lemma caches_kept_objs w w' : objs w' = objs w -> caches_kept w w'.
Proof. intros E k lf H. exists lf. rewrite E. auto. Qed.

Lemma caches_kept_cache w w' k b :
  caches_kept w w' -> cache_of w k = Some b -> cache_of w' k = Some b.
Proof.
  unfold cache_of. intros K H.
  destruct (objs w !! k) as [lf|] eqn:E; [|discriminate].
  destruct (K _ _ E) as (lf' & -> & _ & Hc). auto.
Qed.

Lemma obj_inv n w r w' :
  obj n w = (r, w') ->
  w' = w /\ (forall lf, r = Ok lf -> objs w !! n = Some lf).
Proof.
  unfold obj. destruct (objs w !! n) eqn:E; intros H; inversion H; subst;
    split; auto; intros lf' Hl; inversion Hl; subst; auto; discriminate.
Qed.

(** [newfile] touches nothing but the object's answer; it returns the
    answer the object holds, and when the object holds none it asks the
    file system and keeps what it finds. *)
Lemma newfile_inv n w r w' :
  newfile n w = (r, w') ->
  caches_kept w w' /\ fs w' = fs w
  /\ (forall b, r = Ok b ->
        cache_of w' n = Some b
        /\ (cache_of w n = None ->
            exists lf, objs w !! n = Some lf
              /\ b = negb (path_exists (fs w)
                                       (LogFile.filename lf +:+ ".html")))).
Proof.
  unfold newfile. intros H.
  apply run_bind_inv in H as [(lf & w1 & Ho & H)|(e & Ho & ->)].
  - apply obj_inv in Ho as [-> Ho]. specialize (Ho _ eq_refl).
    destruct (LogFile.newfile_cache lf) as [b|] eqn:Ec.
    + inversion H; subst.
      split; [apply caches_kept_refl | split; [reflexivity|]].
      intros b' Hb; inversion Hb; subst. unfold cache_of. rewrite Ho.
      split; [assumption | congruence].
    + cbv [mbind run_bind get_world modify mret run_ret] in H.
      inversion H; subst; clear H. simpl.
      split; [|split; [reflexivity|]].
      * intros k lf' Hk. destruct (decide (k = n)) as [->|Hne].
        -- exists (LogFile.set_cache
                     (negb (path_exists (fs w) (LogFile.filename lf +:+ ".html")))
                     lf).
           unfold set_objs; simpl.
           rewrite list_lookup_insert_eq by (eapply lookup_lt_Some; eauto).
           rewrite Ho in Hk; inversion Hk; subst.
           split; [reflexivity | split; [reflexivity|]].
           intros b Hb; congruence.
        -- exists lf'. unfold set_objs; simpl.
           rewrite list_lookup_insert_ne by congruence. auto.
      * intros b Hb; inversion Hb; subst. unfold cache_of; simpl.
        rewrite list_lookup_insert_eq by (eapply lookup_lt_Some; eauto).
        split; [reflexivity | eauto].
  - apply obj_inv in Ho as [-> _].
    split; [apply caches_kept_refl | split; [reflexivity|]].
    intros b Hb; discriminate.
Qed.

Lemma and_newfile_inv x w r w' :
  and_newfile x w = (r, w') ->
  caches_kept w w' /\ fs w' = fs w
  /\ (forall b, r = Ok b ->
        match x with
        | Some i => cache_of w' i = Some b
        | None => b = false
        end).
Proof.
  destruct x as [i|]; simpl; intros H.
  - apply newfile_inv in H as (K & F & Hb).
    split; [assumption | split; [assumption|]].
    intros b Hr. apply (Hb b Hr).
  - inversion H; subst.
    split; [apply caches_kept_refl | split; [reflexivity|]].
    intros b Hb; inversion Hb; reflexivity.
Qed.

(** The file that [newfile] and [uptodate] take for the artifact of a log
    file, its file name followed by [.html], is missing. *)
Definition artifact_missing (f : files) (lf : LogFile.t) : Prop :=
  f !! (LogFile.filename lf +:+ ".html") = None.

(** That file exists and its modification time is not strictly newer than
    that of the log file. *)
Definition artifact_not_newer (f : files) (lf : LogFile.t) : Prop :=
  exists h l, f !! (LogFile.filename lf +:+ ".html") = Some h
    /\ f !! LogFile.filename lf = Some l /\ (h <= l)%Z.

Lemma uptodate_inv n w r w' :
  uptodate n w = (r, w') ->
  w' = w
  /\ (forall u, r = Ok u ->
        exists lf, objs w !! n = Some lf
          /\ (u = false <->
              artifact_missing (fs w) lf \/ artifact_not_newer (fs w) lf)).
Proof.
  unfold uptodate. intros H.
  apply run_bind_inv in H as [(lf & w1 & Ho & H)|(e & Ho & ->)].
  2:{ apply obj_inv in Ho as [-> _]. split; auto. discriminate. }
  apply obj_inv in Ho as [-> Ho]. specialize (Ho _ eq_refl).
  cbv [mbind run_bind get_world lift mret run_ret] in H.
  unfold artifact_missing, artifact_not_newer, stat_mtime in *.
  destruct (fs w !! LogFile.filename lf) as [l|] eqn:El.
  2:{ inversion H; subst. split; auto. discriminate. }
  destruct (fs w !! (LogFile.filename lf +:+ ".html")) as [h|] eqn:Eh;
    inversion H; subst; (split; [reflexivity|]);
    intros u Hu; inversion Hu; subst; exists lf; (split; [assumption|]).
  - rewrite Z.ltb_ge. split.
    + intros Hle. right. exists h, l. auto.
    + intros [Hm|(h' & l' & Hh & Hl & Hle)]; [congruence|].
      assert (h' = h) by congruence. assert (l' = l) by congruence.
      subst; assumption.
  - split; auto.
Qed.

(** Every answer that appears between [w] and [w'] is that the artifact did
    not exist among the files [f]. *)
Definition checked_in (f : files) (w w' : world) : Prop :=
  forall k b, cache_of w k = None -> cache_of w' k = Some b ->
    exists lf, objs w' !! k = Some lf
      /\ b = negb (path_exists f (LogFile.filename lf +:+ ".html")).

Lemma checked_in_refl f w : checked_in f w w.
Proof. intros k b H1 H2. congruence. Qed.

Lemma checked_in_objs f w w' : objs w' = objs w -> checked_in f w w'.
Proof. intros E k b H1 H2. unfold cache_of in *. rewrite E in H2. congruence. Qed.

Lemma checked_in_trans f w1 w2 w3 :
  checked_in f w1 w2 -> caches_kept w2 w3 -> checked_in f w2 w3 ->
  checked_in f w1 w3.
Proof.
  intros C12 K23 C23 k b H1 H3.
  destruct (cache_of w2 k) as [b2|] eqn:E2.
  - destruct (C12 _ _ H1 E2) as (lf2 & Hl2 & Hb2).
    destruct (K23 _ _ Hl2) as (lf3 & Hl3 & Hn & _).
    pose proof (caches_kept_cache _ _ _ _ K23 E2) as E3.
    exists lf3. split; [assumption|]. rewrite Hn. congruence.
  - apply (C23 _ _ E2 H3).
Qed.

Lemma newfile_checked n w r w' :
  newfile n w = (r, w') -> checked_in (fs w) w w'.
Proof.
  intros H k b H1 H2.
  pose proof (newfile_inv _ _ _ _ H) as (K & _ & Hr).
  unfold newfile in H.
  apply run_bind_inv in H as [(lf & wa & Ho & H)|(e & Ho & ->)].
  2:{ apply obj_inv in Ho as [-> _]. congruence. }
  apply obj_inv in Ho as [-> Ho]. specialize (Ho _ eq_refl).
  destruct (LogFile.newfile_cache lf) as [c|] eqn:Ec.
  { inversion H; subst. congruence. }
  cbv [mbind run_bind get_world modify mret run_ret] in H.
  inversion H; subst; clear H.
  unfold cache_of in H1, H2. simpl in H2.
  destruct (decide (k = n)) as [->|Hne].
  - rewrite list_lookup_insert_eq in H2 by (eapply lookup_lt_Some; eauto).
    simpl in H2. inversion H2; subst.
    eexists. simpl.
    rewrite list_lookup_insert_eq by (eapply lookup_lt_Some; eauto).
    split; reflexivity.
  - rewrite list_lookup_insert_ne in H2 by congruence. congruence.
Qed.

Lemma and_newfile_checked x w r w' :
  and_newfile x w = (r, w') -> checked_in (fs w) w w'.
Proof.
  destruct x as [i|]; simpl; intros H.
  - eapply newfile_checked; eauto.
  - inversion H; subst. apply checked_in_refl.
Qed.

(** The test of the loop leaves the files alone, and the answers it
    collects are about the files it started from. *)
Lemma needs_generating_checked force n prev next w r w' :
  needs_generating force n prev next w = (r, w') ->
  fs w' = fs w /\ caches_kept w w' /\ checked_in (fs w) w w'.
Proof.
  unfold needs_generating. destruct force.
  { intros H; inversion H; subst.
    auto using caches_kept_refl, checked_in_refl. }
  intros H.
  apply run_bind_inv in H as [(u & w1 & Hu & H)|(e & Hu & ->)];
    apply uptodate_inv in Hu as [-> _];
    [|auto using caches_kept_refl, checked_in_refl].
  destruct u; simpl in H.
  2:{ inversion H; subst. auto using caches_kept_refl, checked_in_refl. }
  apply run_bind_inv in H as [(p & w1 & Hp & H)|(e & Hp & ->)].
  2:{ pose proof (and_newfile_checked _ _ _ _ Hp).
      apply and_newfile_inv in Hp as (K & F & _). auto. }
  pose proof (and_newfile_checked _ _ _ _ Hp) as C1.
  apply and_newfile_inv in Hp as (K1 & F1 & _).
  destruct p.
  { inversion H; subst. auto. }
  pose proof (and_newfile_checked _ _ _ _ H) as C2.
  apply and_newfile_inv in H as (K2 & F2 & _).
  rewrite F1 in C2.
  split; [congruence|]. split; [eapply caches_kept_trans; eauto|].
  eapply checked_in_trans; eauto.
Qed.

Section SchedulerFacts.
Context (strftime : date -> string -> string).
Context (irclog2html_main : list string -> Z -> files -> pyresult unit * files).

Lemma call_main_inv argv w r w' :
  call_main irclog2html_main argv w = (r, w') -> caches_kept w w'.
Proof.
  unfold call_main. destruct (irclog2html_main _ _ _) as [r0 f].
  intros H; inversion H; subst. apply caches_kept_objs. reflexivity.
Qed.

Lemma lift_inv {A} (c : pyresult A) w r w' :
  lift c w = (r, w') -> w' = w /\ r = c.
Proof. unfold lift. intros H; injection H as <- <-. auto. Qed.

Lemma neighbour_args_inv argv x args w r w' :
  neighbour_args strftime argv x args w = (r, w') -> w' = w.
Proof.
  unfold neighbour_args. destruct x as [i|].
  - intros H.
    apply run_bind_inv in H as [(lf & w1 & Ho & H)|(e & Ho & _)];
      apply obj_inv in Ho as [-> _]; [|reflexivity].
    apply run_bind_inv in H as [(day & w1 & Hd & H)|(e & Hd & _)];
      apply lift_inv in Hd as [-> _]; [|reflexivity].
    injection H as _ <-. reflexivity.
  - intros H; injection H as _ <-. reflexivity.
Qed.

(** [generate] asks [newfile] first; then either it fails before the call
    of the renderer and changes nothing more, or it calls the renderer
    once, with the file name of the object as the last argument. *)
Lemma generate_shape n style prefix prev next extra w r w' :
  generate strftime irclog2html_main n style prefix prev next extra w = (r, w') ->
  exists rn w1,
    newfile n w = (rn, w1)
    /\ ((w' = w1 /\ exists e, r = Raise e)
        \/ (exists argv self,
              objs w1 !! n = Some self
              /\ List.last argv EmptyString = LogFile.filename self
              /\ call_main irclog2html_main argv w1 = (r, w'))).
Proof.
  unfold generate. intros H.
  apply run_bind_inv in H as [(b & w1 & Hn & H)|(e & Hn & ->)].
  2:{ exists (Raise e), w'. split; [exact Hn|]. left. eauto. }
  exists (Ok b), w1. split; [exact Hn|].
  apply run_bind_inv in H as [(self & w2 & Ho & H)|(e & Ho & ->)];
    apply obj_inv in Ho as [-> Ho]; [|left; eauto].
  specialize (Ho _ eq_refl).
  apply run_bind_inv in H as [(day & w2 & Hd & H)|(e & Hd & ->)];
    apply lift_inv in Hd as [-> _]; [|left; eauto].
  apply run_bind_inv in H as [(argv1 & w2 & Hp & H)|(e & Hp & ->)];
    apply neighbour_args_inv in Hp as ->; [|left; eauto].
  apply run_bind_inv in H as [(argv2 & w2 & Hx & H)|(e & Hx & ->)];
    apply neighbour_args_inv in Hx as ->; [|left; eauto].
  right. eexists; exists self. split; [exact Ho|]. split; [|exact H].
  apply last_last.
Qed.

Lemma generate_inv n style prefix prev next extra w r w' :
  generate strftime irclog2html_main n style prefix prev next extra w = (r, w') ->
  caches_kept w w'.
Proof.
  intros H. apply generate_shape in H as (rn & w1 & Hn & H).
  apply newfile_inv in Hn as (K1 & _).
  destruct H as [[-> _]|(argv & self & _ & _ & H)]; [exact K1|].
  apply call_main_inv in H. eapply caches_kept_trans; eauto.
Qed.

(** The test of the loop: what it answers, in terms of the files when the
    test is made and of the answers the neighbours hold in any later world
    [wf]. *)
Lemma needs_generating_inv force n prev next w g w' :
  needs_generating force n prev next w = (Ok g, w') ->
  caches_kept w w'
  /\ forall wf, caches_kept w' wf ->
       (g = true <->
        force = true
        \/ (exists lf, objs w !! n = Some lf
              /\ (artifact_missing (fs w) lf \/ artifact_not_newer (fs w) lf))
        \/ (exists p, prev = Some p /\ cache_of wf p = Some true)
        \/ (exists x, next = Some x /\ cache_of wf x = Some true)).
Proof.
  unfold needs_generating. destruct force.
  { intros H; inversion H; subst. split; [apply caches_kept_refl|].
    intros wf _. split; auto. }
  intros H.
  apply run_bind_ok in H as (u & w1 & Hu & H).
  apply uptodate_inv in Hu as [-> Hu].
  destruct (Hu _ eq_refl) as (lf & Hlf & Hstale). clear Hu.
  destruct u; simpl in H.
  2:{ inversion H; subst. split; [apply caches_kept_refl|].
      intros wf _. split; auto. intros _. right; left.
      exists lf. split; [assumption|]. apply Hstale. reflexivity. }
  assert (Hfresh : forall lf', objs w !! n = Some lf' ->
            ~ (artifact_missing (fs w) lf' \/ artifact_not_newer (fs w) lf')).
  { intros lf' E S. rewrite Hlf in E; inversion E; subst.
    apply Hstale in S. discriminate. }
  apply run_bind_ok in H as (p & w1 & Hp & H).
  apply and_newfile_inv in Hp as (K1 & _ & Hp). specialize (Hp _ eq_refl).
  destruct p.
  { inversion H; subst. split; [assumption|].
    intros wf Kf. split; auto. intros _. right; right; left.
    destruct prev as [i|]; [|discriminate].
    exists i. split; [reflexivity|]. eapply caches_kept_cache; eauto. }
  apply and_newfile_inv in H as (K2 & _ & Hx). specialize (Hx _ eq_refl).
  split; [eapply caches_kept_trans; eauto|].
  intros wf Kf. split.
  - intros ->. right; right; right.
    destruct next as [i|]; [|discriminate].
    exists i. split; [reflexivity|]. eapply caches_kept_cache; eauto.
  - intros [F|[(lf' & E & S)|[(i & -> & C)|(i & -> & C)]]].
    + discriminate.
    + exfalso. eapply Hfresh; eauto.
    + assert (cache_of wf i = Some false) as C'.
      { eapply caches_kept_cache; [|eassumption].
        eapply caches_kept_trans; eauto. }
      congruence.
    + assert (cache_of wf i = Some g) as C'.
      { eapply caches_kept_cache; eauto. }
      congruence.
Qed.

(** The neighbours of position [n] among [len] files, newest first. *)
Definition prev_of (len n : nat) : option nat :=
  if (n + 1 <? len)%nat then Some (n + 1)%nat else None.
Definition next_of (n : nat) : option nat :=
  if (0 <? n)%nat then Some (n - 1)%nat else None.

(** The answer the object at position [k] holds in [w] is that its artifact
    did not exist. *)
Definition is_new (w : world) (k : nat) : Prop := cache_of w k = Some true.

(** What decides whether position [n] is generated: the files [f] when the
    file is examined, and the answers the neighbours hold in the end. *)
Definition must_generate (o : options) (len n : nat) (f : files)
    (lf : LogFile.t) (wf : world) : Prop :=
  opt_force o = true
  \/ artifact_missing f lf
  \/ artifact_not_newer f lf
  \/ ((n + 1 < len)%nat /\ is_new wf (n + 1))
  \/ ((0 < n)%nat /\ is_new wf (n - 1)).

Lemma process_one_inv o ea len n w g w' :
  process_one strftime irclog2html_main o ea len n w = (Ok g, w') ->
  caches_kept w w'
  /\ forall wf lf, caches_kept w' wf -> objs w !! n = Some lf ->
       (g = true <-> must_generate o len n (fs w) lf wf).
Proof.
  unfold process_one. intros H.
  apply run_bind_ok in H as (g0 & w1 & Hg & H).
  apply needs_generating_inv in Hg as (K1 & Hg).
  assert (K2 : caches_kept w1 w' /\ g = g0).
  { destruct g0.
    - apply run_bind_ok in H as ([] & w2 & Hgen & H).
      apply generate_inv in Hgen. inversion H; subst. auto.
    - inversion H; subst. split; [apply caches_kept_refl | reflexivity]. }
  destruct K2 as [K2 ->].
  split; [eapply caches_kept_trans; eauto|].
  intros wf lf Kf Hlf.
  rewrite (Hg wf) by (eapply caches_kept_trans; eauto).
  unfold must_generate, is_new.
  split.
  - intros [F|[(lf' & E & S)|[(p & E & C)|(x & E & C)]]].
    + auto.
    + rewrite Hlf in E; inversion E; subst. tauto.
    + right; right; right; left.
      destruct (n + 1 <? len)%nat eqn:L; [|discriminate].
      inversion E; subst. apply Nat.ltb_lt in L. auto.
    + right; right; right; right.
      destruct (0 <? n)%nat eqn:L; [|discriminate].
      inversion E; subst. apply Nat.ltb_lt in L. auto.
  - intros [F|[S|[S|[[L C]|[L C]]]]].
    + auto.
    + right; left. eauto.
    + right; left. eauto.
    + right; right; left. exists (n + 1)%nat.
      apply Nat.ltb_lt in L. rewrite L. auto.
    + right; right; right. exists (n - 1)%nat.
      apply Nat.ltb_lt in L. rewrite L. auto.
Qed.

Lemma process_loop_inv o ea len ns w gs w' :
  process_loop strftime irclog2html_main o ea len ns w = (Ok gs, w') ->
  caches_kept w w' /\ (forall n, In n gs -> In n ns).
Proof.
  revert w gs w'. induction ns as [|a ns IH]; simpl; intros w gs w' H.
  - inversion H; subst. split; [apply caches_kept_refl | auto].
  - apply run_bind_ok in H as (g & w1 & H1 & H).
    apply run_bind_ok in H as (gs' & w2 & H2 & H).
    inversion H; subst. apply process_one_inv in H1 as [K1 _].
    apply IH in H2 as [K2 Hsub].
    split; [eapply caches_kept_trans; eauto|].
    intros n. destruct g; simpl; intuition.
Qed.

(** Every position of the loop: the loop reaches it, and generates it
    exactly when the test says so. *)
Lemma process_loop_decides o ea len ns w gs w' :
  process_loop strftime irclog2html_main o ea len ns w = (Ok gs, w') ->
  List.NoDup ns ->
  forall wf, caches_kept w' wf ->
  forall pre n post lf, ns = pre ++ n :: post -> objs w !! n = Some lf ->
  exists gs_n w_n,
    process_loop strftime irclog2html_main o ea len pre w = (Ok gs_n, w_n)
    /\ (In n gs <-> must_generate o len n (fs w_n) lf wf).
Proof.
  revert w gs w'. induction ns as [|a ns IH]; intros w gs w' H ND wf Kf
    pre n post lf E Hlf.
  { destruct pre; discriminate. }
  simpl in H.
  apply run_bind_ok in H as (g & w1 & H1 & H).
  apply run_bind_ok in H as (gs' & w2 & H2 & H).
  inversion H; subst; clear H.
  pose proof (process_one_inv _ _ _ _ _ _ _ H1) as [K1 Hdec].
  pose proof (process_loop_inv _ _ _ _ _ _ _ H2) as [K2 Hsub].
  apply NoDup_cons_iff in ND as [Ha ND].
  destruct pre as [|b pre]; simpl in E; inversion E; subst.
  - exists [], w. split; [reflexivity|].
    rewrite <- (Hdec wf lf) by (eauto using caches_kept_trans).
    destruct g; simpl; split; intros Hin;
      try reflexivity; try discriminate;
      [left; reflexivity | exfalso; apply Ha; auto].
  - destruct (K1 _ _ Hlf) as (lf1 & Hlf1 & Hname & _).
    destruct (IH _ _ _ H2 ND wf Kf pre n post lf1 eq_refl Hlf1)
      as (gs_n & w_n & Hpre & Hiff).
    exists (if g then b :: gs_n else gs_n), w_n. split.
    + simpl. unfold mbind, run_bind at 1. rewrite H1.
      unfold mbind, run_bind at 1. rewrite Hpre. reflexivity.
    + assert (Hne : b <> n).
      { intros ->. apply Ha. apply in_or_app. right. left. reflexivity. }
      assert (Hsame : must_generate o len n (fs w_n) lf1 wf
                      <-> must_generate o len n (fs w_n) lf wf).
      { unfold must_generate, artifact_missing, artifact_not_newer.
        rewrite Hname. reflexivity. }
      rewrite <- Hsame, <- Hiff.
      destruct g; simpl; intuition.
Qed.

(** [generate] asks before it renders: the answer it may add is about the
    files before the rendering. *)
Lemma generate_checked n style prefix prev next extra w r w' :
  generate strftime irclog2html_main n style prefix prev next extra w = (r, w') ->
  checked_in (fs w) w w'.
Proof.
  intros H. apply generate_shape in H as (rn & w1 & Hn & H).
  pose proof (newfile_checked _ _ _ _ Hn) as C1.
  destruct H as [[-> _]|(argv & self & _ & _ & H)]; [exact C1|].
  pose proof (call_main_inv _ _ _ _ H) as K2.
  eapply checked_in_trans; eauto. apply checked_in_objs.
  unfold call_main in H. destruct (irclog2html_main _ _ _) as [r0 f].
  injection H as _ <-. reflexivity.
Qed.

Lemma process_one_checked o ea len n w r w' :
  process_one strftime irclog2html_main o ea len n w = (r, w') ->
  checked_in (fs w) w w'.
Proof.
  unfold process_one. intros H.
  apply run_bind_inv in H as [(g & w1 & Hg & H)|(e & Hg & ->)];
    apply needs_generating_checked in Hg as (F1 & K1 & C1); [|assumption].
  destruct g.
  - apply run_bind_inv in H as [([] & w2 & Hgen & H)|(e & Hgen & ->)];
      pose proof (generate_checked _ _ _ _ _ _ _ _ _ Hgen) as C2;
      apply generate_inv in Hgen; rewrite F1 in C2.
    + inversion H; subst. eapply checked_in_trans; eauto.
    + eapply checked_in_trans; eauto.
  - inversion H; subst. assumption.
Qed.

(** An answer that an object holds at the end of the loop and did not hold
    at its start was given by a check on the files as they stood at the
    start of one of the turns of the loop. *)
Lemma process_loop_first_check o ea len ns w gs w' :
  process_loop strftime irclog2html_main o ea len ns w = (Ok gs, w') ->
  forall k b, cache_of w k = None -> cache_of w' k = Some b ->
  exists pre n post gs_n w_n lf,
    ns = pre ++ n :: post
    /\ process_loop strftime irclog2html_main o ea len pre w = (Ok gs_n, w_n)
    /\ objs w' !! k = Some lf
    /\ b = negb (path_exists (fs w_n) (LogFile.filename lf +:+ ".html")).
Proof.
  revert w gs w'. induction ns as [|a ns IH]; intros w gs w' H k b H0 H1.
  { inversion H; subst. congruence. }
  simpl in H.
  apply run_bind_ok in H as (g & w1 & Hone & H).
  apply run_bind_ok in H as (gs' & w2 & Hrest & H).
  inversion H; subst; clear H.
  pose proof (process_one_checked _ _ _ _ _ _ _ Hone) as C1.
  pose proof (process_loop_inv _ _ _ _ _ _ _ Hrest) as [K2 _].
  destruct (cache_of w1 k) as [b1|] eqn:E1.
  - destruct (C1 _ _ H0 E1) as (lf1 & Hl1 & Hb1).
    destruct (K2 _ _ Hl1) as (lf' & Hl' & Hn & _).
    pose proof (caches_kept_cache _ _ _ _ K2 E1) as E'.
    exists [], a, ns, [], w, lf'.
    split; [reflexivity|]. split; [reflexivity|]. split; [assumption|].
    rewrite Hn. congruence.
  - destruct (IH _ _ _ Hrest k b E1 H1)
      as (pre & n & post & gs_n & w_n & lf & -> & Hpre & Hl & Hb).
    exists (a :: pre), n, post, (if g then a :: gs_n else gs_n), w_n, lf.
    split; [reflexivity|]. split; [|split; assumption].
    simpl. unfold mbind, run_bind at 1. rewrite Hone.
    unfold mbind, run_bind at 1. rewrite Hpre. reflexivity.
Qed.

End SchedulerFacts.

Section ProcessFacts.
Context (pick_output_filename : string -> string).
Context (strftime : date -> string -> string).
Context (irclog2html_main : list string -> Z -> files -> pyresult unit * files).
Context (glob_glob : string -> list string).
Context (has_symlink : bool).
Context (symlink_error : string -> string -> option string).
Context (open_write : string -> pyresult unit).
Context (write_index :
  string -> list LogFile.t -> bool -> option string -> pyresult unit).
Context (shutil_copy : string -> string -> pyresult unit).
Context (CSS_FILE : string).

Local Abbreviation find :=
  (find_log_files pick_output_filename strftime glob_glob).
Local Abbreviation loop := (process_loop strftime irclog2html_main).
Local Abbreviation run :=
  (process pick_output_filename strftime irclog2html_main glob_glob
           has_symlink symlink_error open_write write_index shutil_copy
           CSS_FILE).

(** The file names the run discovers, in the order of discovery. *)
Definition discovered (dir : string) (o : options) : list string :=
  glob_glob (path_join dir (opt_pattern o))
  ++ glob_glob (path_join dir (opt_pattern o) +:+ ".gz").

(** A run that cannot build its list of log files ends there, with the
    world as it found it. *)
Lemma process_find_raises dir o w e :
  find dir (opt_pattern o) = Raise e -> run dir o w = (Raise e, w).
Proof.
  intros H. unfold process, lift. unfold mbind at 1, run_bind at 1.
  rewrite H. reflexivity.
Qed.

(** A run that ends well went through the loop over all positions, newest
    first, and what it did afterwards left the objects alone. *)
Lemma process_ok_inv dir o w gs w1 :
  run dir o w = (Ok gs, w1) ->
  exists found w_loop,
    find dir (opt_pattern o) = Ok found
    /\ loop o (extra_args_of o) (length (rev found))
            (seq 0 (length (rev found))) (set_objs (rev found) w)
       = (Ok gs, w_loop)
    /\ objs w1 = objs w_loop.
Proof.
  unfold process, lift. intros H.
  apply run_bind_ok in H as (found & wa & Hf & H).
  injection Hf as Hfind <-.
  apply run_bind_ok in H as ([] & wb & Hs & H).
  injection Hs as <-.
  apply run_bind_ok in H as (gs0 & w_loop & Hl & H).
  exists found, w_loop. split; [assumption|].
  apply run_bind_ok in H as (latest & w2 & Hlat & H).
  assert (objs w2 = objs w_loop) as E2.
  { destruct (rev found) as [|newest rest]; [inversion Hlat; reflexivity|].
    destruct has_symlink; [|inversion Hlat; reflexivity].
    cbv [move_symlink mbind run_bind modify mret run_ret raise] in Hlat.
    destruct (symlink_error _ _); inversion Hlat; reflexivity. }
  apply run_bind_ok in H as ([] & w3 & Hw & H).
  assert (objs w3 = objs w2) as E3.
  { destruct (open_write _) as [[]|[]]; inversion Hw; reflexivity. }
  apply run_bind_ok in H as ([] & w4 & Hi & H).
  assert (objs w4 = objs w3) as E4 by (injection Hi as <-; reflexivity).
  apply run_bind_ok in H as ([] & w5 & Hwi & H).
  apply lift_inv in Hwi as [-> _].
  apply run_bind_ok in H as (w5 & w6 & Hg & H).
  assert (w6 = w4) as -> by (injection Hg as _ <-; reflexivity).
  apply run_bind_ok in H as ([] & w7 & Hc & H).
  assert (objs w7 = objs w4) as E7.
  { destruct (_ && _); [|injection Hc as <-; reflexivity].
    apply run_bind_ok in Hc as ([] & w8 & Hc1 & Hc).
    apply run_bind_ok in Hc as ([] & w9 & Hc2 & Hc).
    apply lift_inv in Hc2 as [-> _].
    injection Hc1 as <-. injection Hc as <-. reflexivity. }
  injection H as <- <-. split; [exact Hl | congruence].
Qed.

(** A [LogFile] object holds no answer when it is made, and sorting and
    reversing the list do not touch the objects. *)
Lemma make_logfiles_fresh names l :
  make_logfiles pick_output_filename strftime names = Ok l ->
  Forall (fun lf => LogFile.newfile_cache lf = None) l.
Proof.
  revert l. induction names as [|a names IH]; simpl; intros l H.
  { inversion H. constructor. }
  unfold mbind, pyresult_bind in H.
  destruct (LogFile_init pick_output_filename strftime a) as [lf|] eqn:Ea;
    [|discriminate].
  destruct (make_logfiles pick_output_filename strftime names) as [rest|];
    [|discriminate].
  inversion H; subst. constructor; [|auto].
  unfold LogFile_init in Ea.
  destruct (Re.re_match DATE_REGEXP (basename a)); [|discriminate].
  unfold mbind, pyresult_bind in Ea.
  destruct (make_date _ _ _); [|discriminate].
  destruct (date_strftime _ _ _); [|discriminate].
  inversion Ea; reflexivity.
Qed.

Lemma insert_sorted_Forall {A} (key : A -> string) (P : A -> Prop) x l :
  P x -> Forall P l -> Forall P (insert_sorted key x l).
Proof.
  intros Hx Hl. induction Hl as [|y l Hy Hl IH]; simpl.
  - constructor; [assumption | constructor].
  - destruct (String.leb (key x) (key y)); repeat constructor; assumption.
Qed.

Lemma sorted_Forall {A} (key : A -> string) (P : A -> Prop) l :
  Forall P l -> Forall P (sorted key l).
Proof.
  intros H. induction H as [|x l Hx Hl IH]; simpl; [constructor|].
  apply insert_sorted_Forall; assumption.
Qed.

Lemma find_fresh dir pattern found w k :
  find dir pattern = Ok found -> cache_of (set_objs (rev found) w) k = None.
Proof.
  unfold find_log_files. unfold mbind, pyresult_bind.
  destruct (make_logfiles _ _ _) as [l|] eqn:E; [|discriminate].
  intros H; inversion H; subst; clear H.
  apply make_logfiles_fresh in E.
  apply (sorted_Forall LogFile.filename) in E.
  unfold cache_of. simpl.
  destruct (rev (sorted LogFile.filename l) !! k) as [lf|] eqn:El;
    [|reflexivity].
  apply list_elem_of_lookup_2 in El. apply list_elem_of_In in El.
  apply in_rev in El. rewrite List.Forall_forall in E. auto.
Qed.

Lemma seq_split (a len : nat) pre n post :
  seq a len = pre ++ n :: post ->
  pre = seq a (length pre) /\ n = (a + length pre)%nat.
Proof.
  revert a len. induction pre as [|b pre IH]; intros a len H.
  - destruct len; simpl in H; inversion H. split; [reflexivity | simpl; lia].
  - destruct len; simpl in H; inversion H; subst.
    destruct (IH _ _ H2) as [E1 E2]. simpl. split; [congruence | lia].
Qed.

(** The test of the loop, for a run that ends well: the file at position
    [n] (newest first) is reported as generated if and only if the force
    flag is set, or no file bears its name followed by [.html], or that
    file is not strictly newer than the log when the log is examined, or
    the object of a neighbour (position [n + 1] or [n - 1]) holds the answer
    that it is new. That answer was given once, by a check on the files as
    they stood at the start of a turn of the loop, and kept. *)
Lemma generated_iff_stale dir o w gs w1 :
  run dir o w = (Ok gs, w1) ->
  exists found,
    find dir (opt_pattern o) = Ok found
    /\ (forall n lf, rev found !! n = Some lf ->
        exists gs_n w_n,
          loop o (extra_args_of o) (length found) (seq 0 n)
               (set_objs (rev found) w) = (Ok gs_n, w_n)
          /\ (In n gs <-> must_generate o (length found) n (fs w_n) lf w1))
    /\ (forall k, is_new w1 k ->
        exists n gs_n w_n lf,
          loop o (extra_args_of o) (length found) (seq 0 n)
               (set_objs (rev found) w) = (Ok gs_n, w_n)
          /\ objs w1 !! k = Some lf
          /\ artifact_missing (fs w_n) lf).
Proof.
  intros H. apply process_ok_inv in H as (found & w_loop & Hf & Hl & Eo).
  exists found. split; [assumption|].
  rewrite length_rev in Hl. split.
  - intros n lf Hn.
    assert (Hlt : (n < length found)%nat).
    { apply lookup_lt_Some in Hn. rewrite length_rev in Hn. assumption. }
    assert (Hseq : seq 0 (length found)
                   = seq 0 n ++ n :: seq (S n) (length found - S n)).
    { replace (length found) with (n + S (length found - S n))%nat at 1 by lia.
      rewrite seq_app. reflexivity. }
    eapply (process_loop_decides _ _ _ _ _ _ _ _ _ Hl (seq_NoDup _ _) w1
              (caches_kept_objs _ _ Eo) _ _ _ lf Hseq).
    exact Hn.
  - intros k Hk. unfold is_new, cache_of in Hk. rewrite Eo in Hk.
    destruct (process_loop_first_check _ _ _ _ _ _ _ _ _ Hl k true
                (find_fresh _ _ _ _ _ Hf) Hk)
      as (pre & n & post & gs_n & w_n & lf & Hs & Hpre & Hlf & Hb).
    apply seq_split in Hs as [Hp Hn]. simpl in Hn. subst n.
    rewrite Hp in Hpre.
    exists (length pre), gs_n, w_n, lf.
    split; [assumption|]. split; [congruence|].
    unfold artifact_missing. unfold path_exists in Hb.
    destruct (fs w_n !! (LogFile.filename lf +:+ ".html")) eqn:E;
      [|reflexivity].
    rewrite bool_decide_eq_true_2 in Hb by eauto. discriminate.
Qed.

(** [LogFile.__init__] fails with the application error for a name
    without the date pattern, and with ValueError otherwise. *)
Lemma LogFile_init_raises f e :
  LogFile_init pick_output_filename strftime f = Raise e ->
  (Re.re_match DATE_REGEXP (basename f) = None
   /\ e = Error ("File name does not contain a YYYY-MM-DD date: " +:+ f))
  \/ (exists msg, e = ValueError msg).
Proof.
  unfold LogFile_init.
  destruct (Re.re_match DATE_REGEXP (basename f)) as [m|];
    [|intros H; injection H as <-; left; auto].
  unfold mbind, pyresult_bind.
  destruct (make_date _ _ _) as [d|e'] eqn:Ed.
  - destruct (date_strftime strftime d _) as [t|e'] eqn:Es; [discriminate|].
    intros H; injection H as <-. unfold date_strftime in Es.
    destruct (_ <? _)%Z; [|discriminate]. injection Es as <-. right. eauto.
  - intros H; injection H as <-. unfold make_date in Ed.
    repeat match type of Ed with
           | context [if ?c then _ else _] => destruct c
           end; try discriminate; injection Ed as <-; right; eauto.
Qed.

(** A name that lacks the date pattern in the list of discovered names
    ends the list comprehension of [find_log_files] with an exception: the
    application error for the first such name, unless a name before it holds
    digits that [LogFile.__init__] refuses. *)
Lemma make_logfiles_dateless names :
  (exists f, In f names /\ Re.re_match DATE_REGEXP (basename f) = None) ->
  exists e,
    make_logfiles pick_output_filename strftime names = Raise e
    /\ ((exists f, In f names
                  /\ Re.re_match DATE_REGEXP (basename f) = None
                  /\ e = Error ("File name does not contain a YYYY-MM-DD date: "
                                +:+ f))
        \/ (exists g msg, In g names
                  /\ LogFile_init pick_output_filename strftime g
                     = Raise (ValueError msg)
                  /\ e = ValueError msg)).
Proof.
  induction names as [|a names IH]; intros (f & Hin & Hf).
  { destruct Hin. }
  simpl. unfold mbind at 1, pyresult_bind at 1.
  destruct (LogFile_init pick_output_filename strftime a) as [lf|e] eqn:Ea.
  - destruct Hin as [->|Hin].
    { unfold LogFile_init in Ea. rewrite Hf in Ea. discriminate. }
    destruct IH as (e & He & Hcase); [eauto|].
    exists e. rewrite He. split; [reflexivity|].
    destruct Hcase as [(f' & ? & ? & ?)|(g & msg & ? & ? & ?)];
      [left | right]; eauto 10.
  - exists e. split; [reflexivity|].
    destruct (LogFile_init_raises _ _ Ea) as [[Hm ->]|[msg ->]].
    + left. exists a. auto.
    + right. exists a, msg. auto.
Qed.

Lemma dateless_name_aborts dir o w :
  (exists f, In f (discovered dir o)
             /\ Re.re_match DATE_REGEXP (basename f) = None) ->
  exists e,
    run dir o w = (Raise e, w)
    /\ ((exists f, In f (discovered dir o)
                  /\ Re.re_match DATE_REGEXP (basename f) = None
                  /\ e = Error ("File name does not contain a YYYY-MM-DD date: "
                                +:+ f))
        \/ (exists g msg, In g (discovered dir o)
                  /\ LogFile_init pick_output_filename strftime g
                     = Raise (ValueError msg)
                  /\ e = ValueError msg)).
Proof.
  intros H. destruct (make_logfiles_dateless _ H) as (e & He & Hcase).
  exists e. split; [|assumption].
  apply process_find_raises. unfold find_log_files.
  unfold discovered in He. unfold mbind, pyresult_bind. rewrite He.
  reflexivity.
Qed.

End ProcessFacts.

(** ** A concrete archive

    A renderer that writes the artifact of the log it is given (the last
    argument) at the current time, and a directory [d] with three logs, the
    two newest already rendered. *)

Definition example_main (argv : list string) (now : Z) (f : files)
    : pyresult unit * files :=
  (Ok tt, <[List.last argv EmptyString +:+ ".html" := now]> f).

Definition example_glob (names : list string) (pattern : string)
    : list string :=
  if endswith pattern ".gz" then [] else names.

Definition example_options : options :=
  {| opt_style := "xhtmltable"; opt_title := "IRC logs";
     opt_prefix := EmptyString; opt_force := false; opt_searchbox := false;
     opt_dircproxy := false; opt_pattern := "*.log" |}.

Definition example_files : files :=
  list_to_map [("d/2005-01-01.log", 10%Z); ("d/2005-01-02.log", 20%Z);
               ("d/2005-01-03.log", 30%Z); ("d/2005-01-02.log.html", 50%Z);
               ("d/2005-01-03.log.html", 50%Z)].

Definition example_world : world :=
  {| fs := example_files; objs := []; clock := 100; trace := [] |}.

(** A directory in which the shortcut, the index and the style sheet can
    be written. *)
Definition example_symlink (src dst : string) : option string := None.
Definition example_open (path : string) : pyresult unit := Ok tt.
Definition example_write_index (title : string) (logfiles : list LogFile.t)
    (searchbox : bool) (latest : option string) : pyresult unit := Ok tt.
Definition example_copy (src dst : string) : pyresult unit := Ok tt.

Definition example_process (names : list string) : run_t (list nat) :=
  process (fun base => base +:+ ".html") (fun _ fmt => fmt) example_main
          (example_glob names) true example_symlink example_open
          example_write_index example_copy "/usr/share/irclog.css"
          "d" example_options.

Definition example_names : list string :=
  ["d/2005-01-02.log"; "d/2005-01-01.log"; "d/2005-01-03.log"].

(** In the example the newest log is left alone, the middle one is generated
    because its earlier neighbour is new, and the oldest because it has no
    artifact. *)
Lemma example_run_generates :
  (example_process example_names example_world).1 = Ok [1; 2]%nat.
Proof. vm_compute. reflexivity. Qed.

(** C9. A discovered name without the date pattern should abort the run
    with the application error before anything is written. The run does
    abort in [find_log_files], with the world untouched: nothing generated, no
    shortcut, no index. The exception is the application error for such a
    name, unless a name discovered before it holds eight digits that are no
    calendar date: then [datetime.date] raises ValueError, which is not the
    application error and which [main] does not catch. *)
Theorem C9_dateless_name_aborts_run :
  (forall pick_output_filename strftime irclog2html_main glob_glob
          has_symlink symlink_error open_write write_index shutil_copy
          CSS_FILE dir o w,
     (exists f, In f (discovered glob_glob dir o)
                /\ Re.re_match DATE_REGEXP (basename f) = None) ->
     exists e,
       process pick_output_filename strftime irclog2html_main glob_glob
               has_symlink symlink_error open_write write_index shutil_copy
               CSS_FILE dir o w = (Raise e, w)
       /\ ((exists f, In f (discovered glob_glob dir o)
                  /\ Re.re_match DATE_REGEXP (basename f) = None
                  /\ e = Error ("File name does not contain a YYYY-MM-DD date: "
                                +:+ f))
           \/ (exists g msg, In g (discovered glob_glob dir o)
                  /\ LogFile_init pick_output_filename strftime g
                     = Raise (ValueError msg)
                  /\ e = ValueError msg)))
  /\ example_process ["d/2005-01-02.log"; "d/nodate.log"] example_world
     = (Raise (Error "File name does not contain a YYYY-MM-DD date: d/nodate.log"),
        example_world)
  /\ example_process ["d/2005-13-01.log"; "d/nodate.log"] example_world
     = (Raise (ValueError "month must be in 1..12"), example_world).
Proof.
  split; [|split].
  - intros. apply dateless_name_aborts. assumption.
  - vm_compute. reflexivity.
  - vm_compute. reflexivity.
Qed.

(** C9, at the example archive with a name without a date. *)
Lemma C9_witness :
  exists e,
    example_process ["d/2005-01-02.log"; "d/nodate.log"] example_world
      = (Raise e, example_world).
Proof.
  destruct (proj1 C9_dateless_name_aborts_run
              (fun base => base +:+ ".html") (fun _ fmt => fmt) example_main
              (example_glob ["d/2005-01-02.log"; "d/nodate.log"]) true
              example_symlink example_open example_write_index example_copy
              "/usr/share/irclog.css" "d" example_options
              example_world) as (e & He & _).
  - exists "d/nodate.log". split; [right; left; reflexivity | reflexivity].
  - exists e. exact He.
Defined.

(** ** The WSGI handler *)

(** A request for the page of a log, with the logs in the directory
    [logs]. *)
Definition request (path_info : string) : gmap string string :=
  {[ "PATH_INFO" := path_info; "IRCLOG_LOCATION" := "logs" ]}.

Section ServerFacts.
Context (pick_output_filename : string -> string).
Context (strftime : date -> string -> string).
Context (glob_glob : string -> list string).
Context (CSS_FILE DEFAULT_LOGFILE_PATH DEFAULT_LOGFILE_PATTERN : string).
Context (store : gmap string string).
Context (convert_irc_log : string -> string -> pyresult string).
Context (write_index : string -> list LogFile.t -> string).
Context (form : Type).
Context (query_fields : gmap string string -> form).
Context (body_fields : gmap string string -> pyresult form).
Context (search_page : form -> string -> string -> pyresult string).
Context (dir_listing : string -> pyresult string).
Context (decode_lines : string -> string).

Local Abbreviation app :=
  (application pick_output_filename strftime glob_glob CSS_FILE
               DEFAULT_LOGFILE_PATH DEFAULT_LOGFILE_PATTERN ∅ store
               convert_irc_log write_index form query_fields body_fields
               search_page dir_listing decode_lines).

(** The handler on a request for an uncached page [name.html] of a log
    [name]: what [dynamic_log] returns, with the application error and
    IOError turned into 404 and every other exception passed on. *)
Lemma application_uncached (name : string) :
  parse_path ∅ (request ("/" +:+ name +:+ ".html"))
    = (None, Some (name +:+ ".html")) ->
  String.eqb (name +:+ ".html") "index.html" = false ->
  String.eqb (name +:+ ".html") "search" = false ->
  String.eqb (name +:+ ".html") "irclog.css" = false ->
  endswith (name +:+ ".html") ".html" = true ->
  take_str (String.length (name +:+ ".html") - 5) (name +:+ ".html") = name ->
  store !! path_join "logs" (name +:+ ".html") = None ->
  app (request ("/" +:+ name +:+ ".html"))
  = match dynamic_log pick_output_filename strftime store convert_irc_log
            (path_join "logs" name) None with
    | Ok page => Ok (ok_html page)
    | Raise e => if caught_by_handler e then Ok not_found else Raise e
    end.
Proof.
  intros Hp H1 H2 H3 H4 H5 Hs. unfold application.
  replace (FieldStorage form query_fields body_fields
             (request ("/" +:+ name +:+ ".html")))
    with (Ok (query_fields (request ("/" +:+ name +:+ ".html"))))
    by reflexivity.
  cbn [mbind pyresult_bind]. unfold respond.
  rewrite Hp.
  replace (getenv ∅ (request ("/" +:+ name +:+ ".html")) "IRCLOG_CHAN_DIR")
    with (@None string) by reflexivity.
  replace (getenv ∅ (request ("/" +:+ name +:+ ".html")) "IRCLOG_LOCATION")
    with (Some "logs") by reflexivity.
  cbn [truthy or_default andb].
  rewrite H1, H2, H3. cbn [andb].
  unfold read_file at 1. rewrite Hs, H4, H5. reflexivity.
Qed.

End ServerFacts.

(** C10. Every failure of the on-demand rendering of an uncached page should
    end in a 404 response. The handler catches the application error and
    IOError only: a name without a date gives 404, but a name whose eight
    digits are no calendar date makes [LogFile.__init__] raise ValueError,
    which leaves the handler. *)
Theorem C10_invalid_date_leaves_handler :
  forall pick_output_filename strftime glob_glob CSS_FILE
         DEFAULT_LOGFILE_PATH DEFAULT_LOGFILE_PATTERN
         (store : gmap string string)
         convert_irc_log write_index (form : Type) query_fields body_fields
         search_page dir_listing decode_lines,
    (store !! "logs/2005-13-45.log.html" = None ->
     application pick_output_filename strftime glob_glob CSS_FILE
       DEFAULT_LOGFILE_PATH DEFAULT_LOGFILE_PATTERN ∅ store
       convert_irc_log write_index form query_fields body_fields
       search_page dir_listing decode_lines
       (request "/2005-13-45.log.html")
     = Raise (ValueError "month must be in 1..12"))
    /\ (store !! "logs/nodate.log.html" = None ->
        application pick_output_filename strftime glob_glob CSS_FILE
          DEFAULT_LOGFILE_PATH DEFAULT_LOGFILE_PATTERN ∅ store
          convert_irc_log write_index form query_fields body_fields
          search_page dir_listing decode_lines
          (request "/nodate.log.html")
        = Ok not_found).
Proof.
  intros. split; intros Hs.
  - rewrite (application_uncached _ _ _ _ _ _ _ _ _ _ _ _ _ _ _
               "2005-13-45.log");
      try reflexivity; try exact Hs.
  - rewrite (application_uncached _ _ _ _ _ _ _ _ _ _ _ _ _ _ _ "nodate.log");
      try reflexivity; try exact Hs.
Qed.

(** C10, with no file at all in the log directory. *)
Lemma C10_witness :
  application (fun base => base +:+ ".html") (fun _ fmt => fmt)
    (fun _ => []) "/usr/share/irclog.css" "/var/www/irclogs" "*.log" ∅ ∅
    (fun _ _ => Ok EmptyString) (fun _ _ => EmptyString)
    unit (fun _ => tt) (fun _ => Ok tt)
    (fun _ _ _ => Ok EmptyString) (fun _ => Ok EmptyString) (fun s => s)
    (request "/2005-13-45.log.html")
  = Raise (ValueError "month must be in 1..12").
Proof.
  apply (proj1 (C10_invalid_date_leaves_handler
           (fun base => base +:+ ".html") (fun _ fmt => fmt)
           (fun _ => []) "/usr/share/irclog.css" "/var/www/irclogs" "*.log" ∅
           (fun _ _ => Ok EmptyString) (fun _ _ => EmptyString)
           unit (fun _ => tt) (fun _ => Ok tt)
           (fun _ _ _ => Ok EmptyString) (fun _ => Ok EmptyString) (fun s => s))).
  reflexivity.
Defined.

(** ** Floats

    Rounding is monotone, and it errs by less than the value itself. *)

Module Float64Facts.
Import Float64.
Local Open Scope Q_scope.

Lemma two_pow_pos (e : Z) : 0 < 2 ^ e.
Proof. apply Qpower_0_lt. reflexivity. Qed.

Lemma two_pow_le (a b : Z) : (a <= b)%Z -> 2 ^ a <= 2 ^ b.
Proof. intros H. apply Qpower_le_compat_l; [assumption | discriminate]. Qed.

Lemma two_pow_succ (a : Z) : 2 ^ (a + 1) == 2 * 2 ^ a.
Proof. rewrite Qpower_plus by discriminate. simpl. ring. Qed.

Lemma two_pow_inject (n : Z) : (0 <= n)%Z -> inject_Z (2 ^ n) == 2 ^ n.
Proof. intros H. rewrite Zpower_Qpower by assumption. reflexivity. Qed.

Lemma ilog2_spec (x : Q) :
  0 < x -> 2 ^ ilog2 x <= x /\ x < 2 ^ (ilog2 x + 1).
Proof.
  intros Hx. destruct x as [p q].
  assert (Hp : (0 < p)%Z) by (unfold Qlt in Hx; simpl in Hx; lia).
  unfold ilog2. cbn [Qnum Qden].
  set (lp := Z.log2 p). set (lq := Z.log2 (Zpos q)).
  assert (Hlp : (0 <= lp)%Z) by apply Z.log2_nonneg.
  assert (Hlq : (0 <= lq)%Z) by apply Z.log2_nonneg.
  destruct (Z.log2_spec p Hp) as [Hp1 Hp2]. fold lp in Hp1, Hp2.
  destruct (Z.log2_spec (Zpos q) eq_refl) as [Hq1 Hq2]. fold lq in Hq1, Hq2.
  set (P := inject_Z p). set (D := inject_Z (Zpos q)).
  assert (HP1 : 2 ^ lp <= P).
  { rewrite <- two_pow_inject by assumption. unfold P. rewrite <- Zle_Qle. assumption. }
  assert (HP2 : P < 2 * 2 ^ lp).
  { rewrite <- two_pow_succ, <- two_pow_inject by lia. unfold P.
    rewrite <- Zlt_Qlt. unfold Z.succ in Hp2. assumption. }
  assert (HD1 : 2 ^ lq <= D).
  { rewrite <- two_pow_inject by assumption. unfold D. rewrite <- Zle_Qle. assumption. }
  assert (HD2 : D < 2 * 2 ^ lq).
  { rewrite <- two_pow_succ, <- two_pow_inject by lia. unfold D.
    rewrite <- Zlt_Qlt. unfold Z.succ in Hq2. assumption. }
  assert (Hx' : p # q == P / D) by apply Qmake_Qdiv.
  pose proof (two_pow_pos lp) as Ha. pose proof (two_pow_pos lq) as Hb.
  assert (HD0 : 0 < D) by lra.
  assert (Hk : 2 ^ (lp - lq) == 2 ^ lp / 2 ^ lq).
  { apply Qpower_minus. discriminate. }
  assert (Hlow : 2 ^ (lp - lq - 1) <= P / D).
  { replace (lp - lq - 1)%Z with (lp - (lq + 1))%Z by lia.
    rewrite Qpower_minus by discriminate. rewrite two_pow_succ.
    apply Qle_shift_div_l; [assumption|].
    assert (E : 2 ^ lp / (2 * 2 ^ lq) * D == (2 ^ lp * D) / (2 * 2 ^ lq))
      by (field; lra).
    rewrite E. apply Qle_shift_div_r; [lra | nra]. }
  assert (Hhigh : P / D < 2 ^ (lp - lq + 1)).
  { rewrite two_pow_succ, Hk.
    apply Qlt_shift_div_r; [assumption|].
    assert (E : 2 * (2 ^ lp / 2 ^ lq) * D == (2 * 2 ^ lp * D) / 2 ^ lq)
      by (field; lra).
    rewrite E. apply Qlt_shift_div_l; [assumption | nra]. }
  destruct (Qle_bool (2 ^ (lp - lq)) (p # q)) eqn:B.
  - apply Qle_bool_iff in B. split; [assumption|]. rewrite Hx'. assumption.
  - assert (B' : p # q < 2 ^ (lp - lq)).
    { apply Qnot_le_lt. intros C. apply Qle_bool_iff in C. congruence. }
    replace (lp - lq - 1 + 1)%Z with (lp - lq)%Z by lia.
    split; [rewrite Hx'; assumption | assumption].
Qed.


Lemma ilog2_mono (x y : Q) : 0 < x -> x <= y -> (ilog2 x <= ilog2 y)%Z.
Proof.
  intros Hx Hxy.
  destruct (ilog2_spec x Hx) as [S1 _].
  destruct (ilog2_spec y ltac:(lra)) as [_ T2].
  destruct (Z_le_gt_dec (ilog2 x) (ilog2 y)) as [L|L]; [assumption|].
  pose proof (two_pow_le (ilog2 y + 1) (ilog2 x) ltac:(lia)). lra.
Qed.

(** *** Rounding to an integer *)

Lemma rne_floor (x : Q) : (Qfloor x <= rne x <= Qfloor x + 1)%Z.
Proof.
  unfold rne. destruct (Qcompare _ _); [destruct (Z.even _)| |]; lia.
Qed.

Lemma rne_ge_Z (x : Q) (z : Z) : inject_Z z <= x -> (z <= rne x)%Z.
Proof.
  intros H. apply Qfloor_resp_le in H. rewrite Qfloor_Z in H.
  pose proof (rne_floor x). lia.
Qed.


Lemma rne_le_Z (x : Q) (z : Z) : x <= inject_Z z -> (rne x <= z)%Z.
Proof.
  intros H. pose proof (rne_floor x) as F.
  pose proof (Qfloor_le x) as L1. pose proof (Qlt_floor x) as L2.
  destruct (Z_lt_le_dec (Qfloor x) z) as [L|L]; [lia|].
  assert (Hz : (Qfloor x <= z)%Z).
  { apply Qfloor_resp_le in H. rewrite Qfloor_Z in H. assumption. }
  assert (Ez : Qfloor x = z) by lia.
  assert (Ex : x - inject_Z (Qfloor x) == 0).
  { rewrite Ez in *. lra. }
  unfold rne.
  assert (C : Qcompare (x - inject_Z (Qfloor x)) (1 # 2) = Lt).
  { rewrite <- Qlt_alt. rewrite Ex. reflexivity. }
  rewrite C. lia.
Qed.

Lemma rne_mono (x y : Q) : x <= y -> (rne x <= rne y)%Z.
Proof.
  intros H. pose proof (Qfloor_resp_le _ _ H) as F.
  pose proof (rne_floor x) as Fx. pose proof (rne_floor y) as Fy.
  destruct (Z_lt_le_dec (Qfloor x) (Qfloor y)) as [L|L]; [lia|].
  assert (E : Qfloor x = Qfloor y) by lia.
  clear Fx Fy.
  unfold rne. rewrite E.
  set (f := Qfloor y).
  destruct (Qcompare (x - inject_Z f) (1 # 2)) eqn:Cx;
    destruct (Qcompare (y - inject_Z f) (1 # 2)) eqn:Cy;
    try (destruct (Z.even f); lia); try lia.
  - apply Qeq_alt in Cx. apply Qlt_alt in Cy. exfalso. lra.
  - apply Qgt_alt in Cx. apply Qeq_alt in Cy. exfalso. lra.
  - apply Qgt_alt in Cx. apply Qlt_alt in Cy. exfalso. lra.
Qed.

Lemma rne_le_twice (x : Q) : 0 <= x -> inject_Z (rne x) <= 2 * x.
Proof.
  intros H. pose proof (Qfloor_le x) as L1. pose proof (Qlt_floor x) as L2.
  assert (F0 : (0 <= Qfloor x)%Z).
  { pose proof (Qfloor_resp_le 0 x H) as F0. exact F0. }
  unfold rne.
  rewrite inject_Z_plus in L2.
  destruct (Qcompare (x - inject_Z (Qfloor x)) (1 # 2)) eqn:C.
  - apply Qeq_alt in C.
    destruct (Z.even (Qfloor x)) eqn:Ev.
    + assert (0 <= inject_Z (Qfloor x)) by (rewrite <- (Zle_Qle 0); assumption). lra.
    + assert (Hf : (1 <= Qfloor x)%Z).
      { destruct (Z.eq_dec (Qfloor x) 0%Z) as [E0|]; [rewrite E0 in Ev; discriminate | lia]. }
      rewrite inject_Z_plus.
      assert (1 <= inject_Z (Qfloor x)) by (rewrite <- (Zle_Qle 1); assumption).
      change (inject_Z 1) with 1. lra.
  - apply Qlt_alt in C.
    assert (0 <= inject_Z (Qfloor x)) by (rewrite <- (Zle_Qle 0); assumption). lra.
  - apply Qgt_alt in C. rewrite inject_Z_plus. change (inject_Z 1) with 1.
    assert (0 <= inject_Z (Qfloor x)) by (rewrite <- (Zle_Qle 0); assumption). lra.
Qed.

(** *** Rounding to 53 bits *)

Lemma rnd_pos_zero (x : Q) : x <= 0 -> rnd_pos x = 0.
Proof.
  intros H. unfold rnd_pos. apply Qle_bool_iff in H. rewrite H. reflexivity.
Qed.

Lemma rnd_pos_eq (x : Q) :
  0 < x -> rnd_pos x = inject_Z (rne (x / 2 ^ ulp_exp x)) * 2 ^ ulp_exp x.
Proof.
  intros H. unfold rnd_pos.
  destruct (Qle_bool x 0) eqn:B; [|reflexivity].
  apply Qle_bool_iff in B. lra.
Qed.

Lemma scale_unscale (x : Q) (e : Z) : x / 2 ^ e * 2 ^ e == x.
Proof. pose proof (two_pow_pos e). field. lra. Qed.


Lemma rnd_pos_nonneg (x : Q) : 0 <= rnd_pos x.
Proof.
  destruct (Qlt_le_dec 0 x) as [H|H].
  - rewrite rnd_pos_eq by assumption.
    pose proof (two_pow_pos (ulp_exp x)) as P.
    assert (Hs : inject_Z 0 <= x / 2 ^ ulp_exp x).
    { change (inject_Z 0) with 0. apply Qle_shift_div_l; lra. }
    apply rne_ge_Z in Hs. rewrite Zle_Qle in Hs.
    change (inject_Z 0) with 0 in Hs. nra.
  - rewrite rnd_pos_zero by assumption. lra.
Qed.

Lemma rnd_pos_le_twice (x : Q) : 0 <= x -> rnd_pos x <= 2 * x.
Proof.
  intros H0. destruct (Qlt_le_dec 0 x) as [H|H].
  - rewrite rnd_pos_eq by assumption.
    pose proof (two_pow_pos (ulp_exp x)) as P.
    assert (Hs : 0 <= x / 2 ^ ulp_exp x) by (apply Qle_shift_div_l; lra).
    apply rne_le_twice in Hs.
    pose proof (scale_unscale x (ulp_exp x)) as E.
    set (z := inject_Z (rne (x / 2 ^ ulp_exp x))) in *.
    set (s := x / 2 ^ ulp_exp x) in *. nra.
  - rewrite rnd_pos_zero by assumption. lra.
Qed.

Lemma rnd_pos_upper (x : Q) : 0 < x -> rnd_pos x <= 2 ^ (ulp_exp x + 53).
Proof.
  intros H. rewrite rnd_pos_eq by assumption.
  destruct (ilog2_spec x H) as [_ S2].
  pose proof (two_pow_pos (ulp_exp x)) as P.
  assert (He : (ilog2 x + 1 <= ulp_exp x + 53)%Z) by (unfold ulp_exp; lia).
  apply two_pow_le in He.
  rewrite (Qpower_plus 2 (ulp_exp x) 53) in * by discriminate.
  assert (Hs : x / 2 ^ ulp_exp x <= inject_Z (2 ^ 53)).
  { rewrite two_pow_inject by lia. apply Qle_shift_div_r; lra. }
  apply rne_le_Z in Hs. rewrite Zle_Qle in Hs.
  rewrite two_pow_inject in Hs by lia.
  set (z := inject_Z (rne (x / 2 ^ ulp_exp x))) in *.
  nra.
Qed.

Lemma rnd_pos_lower (x : Q) :
  0 < x -> ulp_exp x = (ilog2 x - 52)%Z -> 2 ^ (ulp_exp x + 52) <= rnd_pos x.
Proof.
  intros H He. rewrite rnd_pos_eq by assumption.
  destruct (ilog2_spec x H) as [S1 _].
  pose proof (two_pow_pos (ulp_exp x)) as P.
  replace (ilog2 x) with (ulp_exp x + 52)%Z in S1 by lia.
  rewrite (Qpower_plus 2 (ulp_exp x) 52) in * by discriminate.
  assert (Hs : inject_Z (2 ^ 52) <= x / 2 ^ ulp_exp x).
  { rewrite two_pow_inject by lia. apply Qle_shift_div_l; lra. }
  apply rne_ge_Z in Hs. rewrite Zle_Qle in Hs.
  rewrite two_pow_inject in Hs by lia.
  set (z := inject_Z (rne (x / 2 ^ ulp_exp x))) in *.
  nra.
Qed.

Lemma rnd_pos_mono (x y : Q) : x <= y -> rnd_pos x <= rnd_pos y.
Proof.
  intros Hxy. destruct (Qlt_le_dec 0 x) as [Hx|Hx].
  2:{ rewrite (rnd_pos_zero x) by assumption. apply rnd_pos_nonneg. }
  assert (Hy : 0 < y) by lra.
  assert (Hl : (ulp_exp x <= ulp_exp y)%Z).
  { pose proof (ilog2_mono x y Hx Hxy). unfold ulp_exp. lia. }
  destruct (Z.eq_dec (ulp_exp x) (ulp_exp y)) as [E|NE].
  - rewrite !rnd_pos_eq by assumption. rewrite E.
    pose proof (two_pow_pos (ulp_exp y)) as P.
    assert (Hs : x / 2 ^ ulp_exp y <= y / 2 ^ ulp_exp y).
    { apply Qle_shift_div_l; [assumption|]. rewrite scale_unscale. assumption. }
    apply rne_mono in Hs. rewrite Zle_Qle in Hs.
    set (a := inject_Z (rne (x / 2 ^ ulp_exp y))) in *.
    set (b := inject_Z (rne (y / 2 ^ ulp_exp y))) in *.
    nra.
  - assert (Hn : ulp_exp y = (ilog2 y - 52)%Z) by (unfold ulp_exp in *; lia).
    apply Qle_trans with (2 ^ (ulp_exp x + 53)); [apply rnd_pos_upper; assumption|].
    apply Qle_trans with (2 ^ (ulp_exp y + 52)); [|apply rnd_pos_lower; assumption].
    apply two_pow_le. lia.
Qed.

Lemma rnd_mono (x y : Q) : x <= y -> rnd x <= rnd y.
Proof.
  intros H. unfold rnd.
  destruct (Qle_bool 0 x) eqn:Bx; destruct (Qle_bool 0 y) eqn:By.
  - apply rnd_pos_mono. assumption.
  - apply Qle_bool_iff in Bx.
    assert (~ 0 <= y) by (intros C; apply Qle_bool_iff in C; congruence). lra.
  - pose proof (rnd_pos_nonneg (- x)). pose proof (rnd_pos_nonneg y). lra.
  - assert (Hm : rnd_pos (- y) <= rnd_pos (- x)) by (apply rnd_pos_mono; lra). lra.
Qed.

Lemma rnd_compat (x y : Q) : x == y -> rnd x == rnd y.
Proof.
  intros H. apply Qle_antisym; apply rnd_mono; lra.
Qed.




(** The largest finite magnitude is below [2 ^ 1024]. *)
Definition finite (v : Q) : Prop := - 2 ^ 1024 < v /\ v < 2 ^ 1024.

Lemma round_finite (x : Q) :
  finite (rnd x) -> exists v, round x = Fin v /\ v == rnd x.
Proof.
  intros [H1 H2]. unfold round.
  destruct (Qle_bool (2 ^ 1024) (Qabs (rnd x))) eqn:B.
  - apply Qle_bool_iff in B. exfalso.
    destruct (Qlt_le_dec (rnd x) 0) as [N|N].
    + rewrite Qabs_neg in B by lra. lra.
    + rewrite Qabs_pos in B by lra. lra.
  - exists (Qred (rnd x)). split; [reflexivity | apply Qred_correct].
Qed.

(** A result between two floats [lo] and [hi] rounds to a float between
    them. *)
Lemma round_between (x lo hi : Q) :
  rnd lo == lo -> rnd hi == hi -> finite lo -> finite hi ->
  lo <= x -> x <= hi ->
  exists v, round x = Fin v /\ v == rnd x /\ lo <= v /\ v <= hi.
Proof.
  intros El Eh [Fl _] [_ Fh] H1 H2.
  pose proof (rnd_mono _ _ H1) as M1. pose proof (rnd_mono _ _ H2) as M2.
  rewrite El in M1. rewrite Eh in M2.
  destruct (round_finite x) as (v & Hv & Ev).
  { split; lra. }
  exists v. split; [assumption|]. split; [assumption|]. split; lra.
Qed.

End Float64Facts.

(** ** The colour chooser *)

(** A lower-case hexadecimal digit. *)
Definition lower_hex (c : ascii) : bool :=
  is_digit c || ((97 <=? nat_of_ascii c) && (nat_of_ascii c <=? 102))%nat.

(** The pattern "#[0-9a-f]{6}" *)
Definition COLOUR_PATTERN : Re.regex :=
  Re.seqs [Re.Lit "#"; Re.Class lower_hex; Re.Class lower_hex;
           Re.Class lower_hex; Re.Class lower_hex; Re.Class lower_hex;
           Re.Class lower_hex].

(** The whole of [s] matches the colour pattern. *)
Definition matches_colour (s : string) : bool :=
  match Re.re_match COLOUR_PATTERN s with
  | Some m => (Re.m_end m =? String.length s)%nat
  | None => false
  end.

Lemma fmt_02x_byte (z : Z) :
  (0 <= z < 256)%Z ->
  exists h l, fmt_02x z = String h (String l EmptyString)
              /\ lower_hex h = true /\ lower_hex l = true.
Proof.
  intros H.
  assert (Hall : forallb
            (fun k => match fmt_02x (Z.of_nat k) with
                      | String h (String l EmptyString) =>
                          lower_hex h && lower_hex l
                      | _ => false
                      end) (seq 0 256) = true) by (vm_compute; reflexivity).
  rewrite forallb_forall in Hall.
  specialize (Hall (Z.to_nat z)). rewrite Z2Nat.id in Hall by lia.
  assert (Hin : In (Z.to_nat z) (seq 0 256)) by (apply in_seq; lia).
  specialize (Hall Hin).
  destruct (fmt_02x z) as [|h [|l [|]]]; try discriminate.
  apply andb_prop in Hall as [? ?]. eauto.
Qed.

Lemma colour_of_bytes (r g b : Z) :
  (0 <= r < 256)%Z -> (0 <= g < 256)%Z -> (0 <= b < 256)%Z ->
  matches_colour ("#" +:+ fmt_02x r +:+ fmt_02x g +:+ fmt_02x b) = true.
Proof.
  intros Hr Hg Hb.
  destruct (fmt_02x_byte r Hr) as (r1 & r2 & -> & R1 & R2).
  destruct (fmt_02x_byte g Hg) as (g1 & g2 & -> & G1 & G2).
  destruct (fmt_02x_byte b Hb) as (b1 & b2 & -> & B1 & B2).
  unfold matches_colour, Re.re_match, Re.match_at. simpl.
  rewrite R1, R2, G1, G2, B1, B2. reflexivity.
Qed.

Module ColourFacts.
Import Float64 Float64Facts ColourChooser.
Local Open Scope Q_scope.

Ltac exact_const := vm_compute; reflexivity.
Ltac finite_const := split; vm_compute; reflexivity.

(** The largest total for which the product by [rgbmax - rgbmin] stays
    finite whatever the index. *)
Definition max_total : Z := 2 ^ 1017.

Lemma rnd_neg (x : Q) : x < 0 -> rnd x == - rnd_pos (- x).
Proof.
  intros H. unfold rnd. destruct (Qle_bool 0 x) eqn:B; [|reflexivity].
  apply Qle_bool_iff in B. lra.
Qed.

Lemma of_int_between (z : Z) (lo hi : Q) :
  rnd lo == lo -> rnd hi == hi -> finite lo -> finite hi ->
  lo <= inject_Z z -> inject_Z z <= hi ->
  exists v, of_int z = Ok (Fin v) /\ v == rnd (inject_Z z)
            /\ lo <= v /\ v <= hi.
Proof.
  intros El Eh Fl Fh H1 H2.
  destruct (round_between _ _ _ El Eh Fl Fh H1 H2) as (v & Hv & Ev & B).
  exists v. unfold of_int. rewrite Hv. auto.
Qed.

(** The value of the magnitude, operation by operation. *)
Definition magnitude_value (i n : Z) : Q :=
  rnd (240 + rnd (rnd (-115 * rnd (inject_Z (n - i))) / rnd (inject_Z n))).

Lemma inject_bounds (z lo hi : Z) :
  (lo <= z <= hi)%Z -> inject_Z lo <= inject_Z z /\ inject_Z z <= inject_Z hi.
Proof. intros [H1 H2]. split; rewrite <- Zle_Qle; assumption. Qed.

(** With the default chooser, for a total of at most [max_total] and an
    index below the total, the magnitude is a finite float between 10 and
    [rgbmin]. *)
Lemma magnitude_finite (i n : Z) :
  (1 <= n <= max_total)%Z -> (0 <= i < n)%Z ->
  exists m, magnitude default_chooser i n = Ok (Fin m)
            /\ m == magnitude_value i n /\ 10 <= m /\ m <= 240.
Proof.
  intros Hn Hi. unfold magnitude, max_total in *.
  destruct (inject_bounds (n - i) 1 (2 ^ 1017) ltac:(lia)) as [D1 D2].
  destruct (of_int_between (n - i) (inject_Z 1) (inject_Z (2 ^ 1017)))
    as (fd & -> & Ed & Bd1 & Bd2);
    [exact_const | exact_const | finite_const | finite_const | assumption..|].
  destruct (inject_bounds n 1 (2 ^ 1017) ltac:(lia)) as [N1 N2].
  destruct (of_int_between n (inject_Z 1) (inject_Z (2 ^ 1017)))
    as (fn & En' & En & Bn1 & Bn2);
    [exact_const | exact_const | finite_const | finite_const | assumption..|].
  change (inject_Z 1) with 1 in *.
  cbn [mbind pyresult_bind rgbmax rgbmin default_chooser].
  replace (of_int (125 - 240)) with (Ok (Fin (-115))) by exact_const.
  cbn [mbind pyresult_bind]. rewrite En'. cbn [mbind pyresult_bind].
  unfold mul at 1.
  assert (Hfdn : fd <= fn).
  { rewrite Ed, En. apply rnd_mono. rewrite <- Zle_Qle. lia. }
  destruct (round_between (-115 * fd) (-115 * inject_Z (2 ^ 1017)) (-115))
    as (p & Hp & Ep & Bp1 & Bp2);
    [exact_const | exact_const | finite_const | finite_const | lra | lra |].
  rewrite Hp.
  assert (Hp2 : -230 * fd <= p).
  { rewrite Ep, rnd_neg by lra.
    pose proof (rnd_pos_le_twice (- (-115 * fd)) ltac:(lra)). lra. }
  unfold div.
  assert (Hz : is_zero fn = false).
  { unfold is_zero. destruct (Qeq_bool fn 0) eqn:B; [|reflexivity].
    apply Qeq_bool_iff in B. lra. }
  rewrite Hz.
  destruct (round_between (p / fn) (-230) 0)
    as (q & Hq & Eq & Bq1 & Bq2);
    [exact_const | exact_const | finite_const | finite_const | | |].
  { apply Qle_shift_div_l; [lra | nra]. }
  { apply Qle_shift_div_r; [lra | lra]. }
  rewrite Hq. cbn [mbind pyresult_bind].
  replace (of_int 240) with (Ok (Fin 240)) by exact_const.
  cbn [mbind pyresult_bind]. unfold add.
  destruct (round_between (240 + q) 10 240)
    as (m & Hm & Em & Bm1 & Bm2);
    [exact_const | exact_const | finite_const | finite_const | lra | lra |].
  rewrite Hm. exists m. split; [reflexivity|]. split; [|split; assumption].
  rewrite Em. unfold magnitude_value. apply rnd_compat.
  assert (E1 : q == rnd (rnd (-115 * rnd (inject_Z (n - i))) / rnd (inject_Z n))).
  { rewrite Eq. apply rnd_compat. rewrite Ep, En.
    assert (E2 : rnd (-115 * fd) == rnd (-115 * rnd (inject_Z (n - i)))).
    { apply rnd_compat. rewrite Ed. reflexivity. }
    rewrite E2. reflexivity. }
  rewrite E1. reflexivity.
Qed.

#[local] Instance rnd_proper : Proper (Qeq ==> Qeq) rnd.
Proof. intros x y H. apply rnd_compat. assumption. Qed.




(** The six hues of the default chooser have their components between 0
    and 1. *)
Lemma default_rgb_lookup (k : nat) :
  (k < 6)%nat ->
  exists r g b, rgb default_chooser !! k = Some (Fin r, Fin g, Fin b)
    /\ (0 <= r /\ r <= 1) /\ (0 <= g /\ g <= 1) /\ (0 <= b /\ b <= 1).
Proof.
  intros H.
  do 6 (destruct k as [|k];
        [do 3 eexists; split; [vm_compute; reflexivity|];
         repeat split; vm_compute; discriminate|]).
  lia.
Qed.

(** A hue component times the magnitude truncates to a byte. *)
Lemma channel_byte (c m : Q) :
  0 <= c -> c <= 1 -> 10 <= m -> m <= 240 ->
  exists z, to_int (mul (Fin c) (Fin m)) = Ok z /\ (0 <= z < 256)%Z.
Proof.
  intros C0 C1 M0 M1. unfold mul.
  destruct (round_between (c * m) 0 240) as (v & Hv & _ & V0 & V1);
    [exact_const | exact_const | finite_const | finite_const | nra | nra |].
  rewrite Hv. unfold to_int.
  assert (B : Qle_bool 0 v = true) by (apply Qle_bool_iff; assumption).
  rewrite B. exists (Qfloor v). split; [reflexivity|].
  pose proof (Qfloor_resp_le _ _ V0) as F0.
  pose proof (Qfloor_resp_le _ _ V1) as F1.
  change (Qfloor 0) with 0%Z in F0. change (Qfloor 240) with 240%Z in F1.
  lia.
Qed.

Lemma assert_byte (z : Z) :
  (0 <= z < 256)%Z -> assert ((0 <=? z) && (z <? 256))%Z = Ok tt.
Proof.
  intros [H0 H1]. apply Z.leb_le in H0. apply Z.ltb_lt in H1.
  rewrite H0, H1. reflexivity.
Qed.

(** With the default chooser, for a total of at most [max_total] and an
    index below the total, [choose] returns a colour made of three bytes. *)
Lemma choose_colour (i n : Z) :
  (1 <= n <= max_total)%Z -> (0 <= i < n)%Z ->
  exists r g b,
    choose default_chooser i n
      = Ok ("#" +:+ fmt_02x r +:+ fmt_02x g +:+ fmt_02x b)
    /\ (0 <= r < 256)%Z /\ (0 <= g < 256)%Z /\ (0 <= b < 256)%Z.
Proof.
  intros Hn Hi. unfold choose.
  assert (E0 : (n =? 0)%Z = false) by (apply Z.eqb_neq; lia). rewrite E0.
  change (length (rgb default_chooser)) with 6%nat. cbv iota.
  change (Z.of_nat 6) with 6%Z.
  destruct (default_rgb_lookup (Z.to_nat (i mod 6)))
    as (r & g & b & -> & [R0 R1] & [G0 G1] & [B0 B1]).
  { pose proof (Z.mod_pos_bound i 6 ltac:(lia)). lia. }
  destruct (magnitude_finite i n Hn Hi) as (m & -> & _ & M0 & M1).
  cbn [mbind pyresult_bind].
  destruct (channel_byte r m R0 R1 M0 M1) as (zr & -> & Zr).
  destruct (channel_byte g m G0 G1 M0 M1) as (zg & -> & Zg).
  destruct (channel_byte b m B0 B1 M0 M1) as (zb & -> & Zb).
  cbn [mbind pyresult_bind].
  rewrite !assert_byte by assumption. cbn [mbind pyresult_bind].
  exists zr, zg, zb. auto.
Qed.

End ColourFacts.

(** ** The magnitude and its exact value *)

Module MagnitudeFacts.
Import Float64 Float64Facts ColourChooser ColourFacts.
Local Open Scope Q_scope.


(** The unit roundoff of binary64, [2 ^ -53]. *)
Definition u : Q := 1 # 9007199254740992.















End MagnitudeFacts.






(** The reading of C7 as it is written, for the totals of at least 1. *)
Definition C7_as_stated : Prop :=
  forall n i : Z,
    (1 <= n)%Z -> (0 <= i)%Z -> (i < n)%Z ->
    exists r g b : Z,
      ColourChooser.choose ColourChooser.default_chooser i n
        = Ok ("#" +:+ fmt_02x r +:+ fmt_02x g +:+ fmt_02x b)
      /\ (0 <= r <= 255)%Z /\ (0 <= g <= 255)%Z /\ (0 <= b <= 255)%Z.

(** C7, counterexample. A total of [2 ^ 1024] is too large for [float]:
    the call raises OverflowError. *)
Lemma C7_counterexample : ~ C7_as_stated.
Proof.
  intros H.
  destruct (H (2 ^ 1024)%Z 0%Z ltac:(lia) ltac:(lia) ltac:(lia))
    as (r & g & b & E & _).
  vm_compute in E. discriminate.
Qed.

(** C7, amended. With the default chooser, for every total [n] with
    [1 <= n <= 2 ^ 1017] and every index [0 <= i < n], [choose] returns a
    string that matches the colour pattern and is made of three channels
    between 0 and 255, so the three assertions hold; and a call with a
    total of 0 is the call with a total of 1. *)
Theorem C7_choose_returns_colour :
  (forall n i : Z,
     (1 <= n <= ColourFacts.max_total)%Z -> (0 <= i)%Z -> (i < n)%Z ->
     exists r g b : Z,
       ColourChooser.choose ColourChooser.default_chooser i n
         = Ok ("#" +:+ fmt_02x r +:+ fmt_02x g +:+ fmt_02x b)
       /\ (0 <= r <= 255)%Z /\ (0 <= g <= 255)%Z /\ (0 <= b <= 255)%Z
       /\ matches_colour ("#" +:+ fmt_02x r +:+ fmt_02x g +:+ fmt_02x b)
          = true)
  /\ (forall (self : ColourChooser.t) (i : Z),
        ColourChooser.choose self i 0 = ColourChooser.choose self i 1).
Proof.
  split.
  - intros n i Hn Hi0 Hi.
    destruct (ColourFacts.choose_colour i n Hn ltac:(lia))
      as (r & g & b & E & Hr & Hg & Hb).
    exists r, g, b. split; [assumption|].
    repeat (split; [lia|]). apply colour_of_bytes; assumption.
  - intros self i. reflexivity.
Qed.

(** C7, at the first colour a fresh colourizer asks for: index 1 of 30. *)
Lemma C7_witness :
  exists r g b : Z,
    ColourChooser.choose ColourChooser.default_chooser 1 30
      = Ok ("#" +:+ fmt_02x r +:+ fmt_02x g +:+ fmt_02x b)
    /\ (0 <= r <= 255)%Z /\ (0 <= g <= 255)%Z /\ (0 <= b <= 255)%Z
    /\ matches_colour ("#" +:+ fmt_02x r +:+ fmt_02x g +:+ fmt_02x b) = true.
Proof.
  apply (proj1 C7_choose_returns_colour 30%Z 1%Z);
    unfold ColourFacts.max_total; lia.
Defined.

(** ** The float model at known values

    What Python computes at a few points: the literal 0.95, a colour whose
    green channel is 158 only because the product is rounded below 159, and
    the two ways in which a huge total fails. *)

Example literal_095 :
  Float64.literal (95 # 100)
  = Float64.Fin (4278419646001971 # 4503599627370496).
Proof. vm_compute. reflexivity. Qed.

Example choose_7_19 :
  ColourChooser.choose ColourChooser.default_chooser 7 19 = Ok "#539e53".
Proof. vm_compute. reflexivity. Qed.

Example choose_first_nick :
  (NickColourizer.getitem (NickColourizer.init 30 ∅) "bob").1 = Ok "#407a40".
Proof. vm_compute. reflexivity. Qed.

Example choose_huge_total :
  ColourChooser.choose ColourChooser.default_chooser 0 (2 ^ 1024)
  = Raise (OverflowError "long int too large to convert to float")
  /\ ColourChooser.choose ColourChooser.default_chooser 0 (2 ^ 1018)
     = Raise (OverflowError "cannot convert float infinity to integer").
Proof. split; vm_compute; reflexivity. Qed.

(** * Further properties

    Properties of the parts of the program that the claims above do not
    reach: comment lines and timestamps, escaping and links, the conversion
    loop, the colourizer, and more of the scheduler and of the handler. *)

(** ** Comment lines and timestamps *)

Lemma substring_length_app (a b : string) :
  substring 0 (String.length a) (a +:+ b) = a.
Proof.
  induction a as [|c a IH]; simpl.
  - destruct b; reflexivity.
  - f_equal. exact IH.
Qed.

Lemma drop_str_length_app (a b : string) :
  drop_str (String.length a) (a +:+ b) = b.
Proof. induction a as [|c a IH]; simpl; [reflexivity | exact IH]. Qed.

Lemma drop_str_add (n m : nat) (s : string) :
  drop_str (n + m) s = drop_str m (drop_str n s).
Proof.
  revert s; induction n as [|n IH]; intros s; simpl; [reflexivity|].
  destruct s as [|c s]; [destruct m; reflexivity | apply IH].
Qed.

Lemma star_lazy_skip (p : ascii -> bool) (k : Re.cont) (pre : string) :
  forall pos s cs,
    (forall pos' a s' cs', In a (list_ascii_of_string pre) ->
       k pos' (String a s') cs' = None) ->
    forallb p (list_ascii_of_string pre) = true ->
    Re.star_lazy p k pos (pre +:+ s) cs
    = Re.star_lazy p k (pos + String.length pre) s cs.
Proof.
  induction pre as [|c pre IH]; intros pos s cs Hk Hp.
  - simpl. rewrite Nat.add_0_r. reflexivity.
  - simpl in Hp. apply andb_true_iff in Hp as [Hc Hp].
    change (String c pre +:+ s) with (String c (pre +:+ s)).
    simpl. rewrite (Hk pos c _ cs) by (left; reflexivity). rewrite Hc.
    rewrite IH; [f_equal; lia | | exact Hp].
    intros. apply Hk. right; assumption.
Qed.

Section CommentFacts.
Import LogParser Re.

(** A character of a nick: anything but a newline and the closing bracket. *)
Definition nick_char (c : ascii) : bool := is_dot c && negb (Ascii.eqb c ">").

(** X1. A line that begins with [<], a nick without [>] or newline, [>]
    and a whitespace character is a COMMENT whose payload is the nick and
    everything after that whitespace character. *)
Theorem comment_line_is_parsed (time : option string) (nick text : string) (sp : ascii) :
  forallb nick_char (list_ascii_of_string nick) = true ->
  is_space sp = true ->
  classify_rest time ("<" +:+ nick +:+ ">" +:+ String sp text)
  = Ok (time, COMMENT, NickText (VStr nick) text).
Proof.
  intros Hn Hs. unfold classify_rest, re_match, match_at, NICK_REGEXP.
  cbn [seqs run Nat.eqb String.app].
  change ("<" +:+ nick +:+ ">" +:+ String sp text)
    with (String "<" (nick +:+ String ">" (String sp text))).
  cbn [Ascii.eqb Bool.eqb].
  rewrite star_lazy_skip.
  - simpl star_lazy. rewrite Hs.
    unfold group, match_len; cbn [m_end m_start m_caps lookup_cap Nat.eqb val_of_group].
    rewrite !Nat.sub_0_r. cbn [substring]. rewrite substring_length_app.
    change (drop_str (S ?n) (String ?c ?s)) with (drop_str n s).
    replace (S (S (String.length nick))) with (String.length nick + 2)%nat by lia.
    rewrite drop_str_add, drop_str_length_app. reflexivity.
  - intros pos' a s' cs' Ha.
    rewrite forallb_forall in Hn. specialize (Hn a Ha).
    unfold nick_char in Hn. apply andb_true_iff in Hn as [_ Hn].
    destruct (Ascii.eqb a ">"); [discriminate | reflexivity].
  - rewrite forallb_forall in Hn |- *. intros a Ha.
    specialize (Hn a Ha). unfold nick_char in Hn.
    apply andb_true_iff in Hn as [Hn _]. exact Hn.
Qed.
End CommentFacts.

Section TimeFacts.
Import LogParser Re.

Lemma digit_not_bracket (d : ascii) : is_digit d = true -> Ascii.eqb d "[" = false.
Proof.
  destruct d as [[] [] [] [] [] [] [] []]; intros H; try reflexivity;
    vm_compute in H; discriminate.
Qed.

(** [c] in front of [s] when [b] holds *)
Definition opt_char (b : bool) (c : ascii) (s : string) : string :=
  if b then String c s else s.

(** The text of a time of day, with or without seconds *)
Definition clock_text (h1 h2 m1 m2 : ascii) (sec : option (ascii * ascii))
    : string :=
  String h1 (String h2 (String ":" (String m1 (String m2
    match sec with
    | Some (s1, s2) => String ":" (String s1 (String s2 EmptyString))
    | None => EmptyString
    end)))).

(** All of [l] are ASCII digits. *)
Definition digits (l : list ascii) : bool := forallb is_digit l.

(** X4. A line that starts with a time of day, with or without seconds and
    with or without brackets, followed by one space and a rest that does not
    start with a space: the time is split off and the rest is what is
    classified. *)
Theorem strip_time_clock (ob cb : bool) (h1 h2 m1 m2 : ascii) (sec : option (ascii * ascii))
    (rest : string) :
  digits [h1; h2; m1; m2] = true ->
  digits match sec with Some (s1, s2) => [s1; s2] | None => [] end = true ->
  startswith rest " " = false ->
  strip_time (opt_char ob "[" (clock_text h1 h2 m1 m2 sec
                                 +:+ opt_char cb "]" (String " " rest)))
  = (Some (clock_text h1 h2 m1 m2 sec), rest).
Proof.
  intros H Hsec Hr.
  assert (Hs : forall k pos cs, star_greedy (Ascii.eqb " ") k pos rest cs = k pos rest cs).
  { intros k pos cs. destruct rest as [|c r]; [reflexivity|].
    destruct (Ascii.ascii_dec " " c) as [<-|Hc];
      [destruct r; vm_compute in Hr; discriminate|].
    cbn [star_greedy]. apply Ascii.eqb_neq in Hc. rewrite Hc. reflexivity. }
  unfold digits in H, Hsec. cbn [forallb] in H.
  repeat (apply andb_true_iff in H as [? H]).
  assert (Hq : match sec with Some (s1, s2) => is_digit s1 = true /\ is_digit s2 = true | None => True end).
  { destruct sec as [[s1 s2]|]; [|exact I]. cbn [forallb] in Hsec.
    repeat (apply andb_true_iff in Hsec as [? Hsec]). split; assumption. }
  unfold strip_time, re_match, match_at, TIME_REGEXP.
  destruct ob, cb, sec as [[s1 s2]|]; try destruct Hq;
    cbv [opt_char clock_text String.append];
    cbn [seqs run Nat.eqb plus digit Ascii.eqb Bool.eqb];
    repeat match goal with
           | E : is_digit ?d = true |- _ =>
               rewrite ?(digit_not_bracket _ E), ?E; clear E
           end;
    rewrite ?Hs; vm_compute; reflexivity.
Qed.
End TimeFacts.

Ltac app_red := cbv [String.append]; fold String.append.
Ltac app_red_in H := cbv [String.append] in H; fold String.append in H.

Lemma star_lazy_sound (p : ascii -> bool) (k : Re.cont) :
  forall s pos cs r,
    Re.star_lazy p k pos s cs = Some r ->
    exists pre post,
      s = pre +:+ post
      /\ forallb p (list_ascii_of_string pre) = true
      /\ k (pos + String.length pre)%nat post cs = Some r
      /\ (forall a b, pre = a +:+ b -> b <> EmptyString ->
            k (pos + String.length a)%nat (b +:+ post) cs = None).
Proof.
  induction s as [|c s IH]; intros pos cs r H; simpl in H.
  - destruct (k pos EmptyString cs) eqn:E; [|discriminate].
    exists EmptyString, EmptyString. rewrite Nat.add_0_r.
    split; [reflexivity|]. split; [reflexivity|]. split; [congruence|].
    intros [|] b Hab Hb; app_red_in Hab; [congruence | discriminate].
  - destruct (k pos (String c s) cs) eqn:E.
    + exists EmptyString, (String c s). rewrite Nat.add_0_r.
      split; [reflexivity|]. split; [reflexivity|]. split; [congruence|].
      intros [|] b Hab Hb; app_red_in Hab; [congruence | discriminate].
    + destruct (p c) eqn:Hc; [|discriminate].
      destruct (IH _ _ _ H) as (pre & post & -> & Hp & Hk & Hmin).
      exists (String c pre), post. app_red. simpl. rewrite Hc, Hp.
      replace (pos + S (String.length pre))%nat
        with (S pos + String.length pre)%nat by lia.
      split; [reflexivity|]. split; [reflexivity|]. split; [exact Hk|].
      intros [|a0 a] b Hab Hb; app_red_in Hab.
      * subst b. app_red. simpl. rewrite Nat.add_0_r. exact E.
      * injection Hab as <- ->. simpl.
        replace (pos + S (String.length a))%nat
          with (S pos + String.length a)%nat by lia.
        apply Hmin; [reflexivity | exact Hb].
Qed.

Section CommentEventFacts.
Import LogParser Re.

(** What a match of the nick pattern tells about the line. *)
Lemma nick_match_inv (rest : string) (m : match_obj) :
  re_match NICK_REGEXP rest = Some m ->
  exists nick sp text,
    rest = "<" +:+ nick +:+ ">" +:+ String sp text
    /\ is_space sp = true
    /\ group m 1 = Some nick
    /\ drop_str (match_len m) rest = text
    /\ (forall a c b, nick = a +:+ ">" +:+ String c b -> is_space c = false).
Proof.
  intros E.
  unfold re_match, match_at, NICK_REGEXP in E.
  cbn [seqs run Nat.eqb] in E.
  destruct rest as [|c0 rest]; [discriminate|].
  destruct (Ascii.eqb_spec c0 "<") as [->|]; [|discriminate].
  destruct (star_lazy _ _ _ _ _) as [[e cs]|] eqn:S; [|discriminate].
  injection E as <-.
  apply star_lazy_sound in S as (pre & post & -> & Hp & Hk & Hmin).
  destruct post as [|g post]; [discriminate|].
  destruct (Ascii.eqb_spec g ">") as [->|]; [|discriminate].
  destruct post as [|sp text]; [discriminate|].
  destruct (is_space sp) eqn:Hsp; [|discriminate].
  injection Hk as <- <-.
  exists pre, sp, text.
  unfold group, match_len; cbn [m_end m_start m_caps lookup_cap Nat.eqb m_subject].
  replace (1 + String.length pre - 1)%nat with (String.length pre) by lia.
  rewrite !Nat.sub_0_r.
  change (substring 1 ?n (String ?c ?s)) with (substring 0 n s).
  rewrite substring_length_app.
  change (drop_str (S ?n) (String ?c ?s)) with (drop_str n s).
  replace (S (S (String.length pre))) with (String.length pre + 2)%nat by lia.
  rewrite drop_str_add, drop_str_length_app.
  split; [reflexivity|]. split; [exact Hsp|]. split; [reflexivity|].
  split; [reflexivity|].
  intros a c b Hn.
  specialize (Hmin a (">" +:+ String c b) Hn ltac:(discriminate)).
  app_red_in Hmin. simpl in Hmin. destruct (is_space c); [discriminate | reflexivity].
Qed.

(** X2. What a COMMENT event tells about the line: the line is [<], the
    nick, [>], one whitespace character and the text, in this order; the
    nick is the shortest that fits (no [>] inside it is followed by
    whitespace), and the time is passed through. *)
Theorem comment_event_line (time : option string) (rest : string) (t : option string)
    (i : info) :
  classify_rest time rest = Ok (t, COMMENT, i) ->
  exists nick sp text,
    rest = "<" +:+ nick +:+ ">" +:+ String sp text
    /\ is_space sp = true
    /\ t = time
    /\ i = NickText (VStr nick) text
    /\ (forall a c b, nick = a +:+ ">" +:+ String c b -> is_space c = false).
Proof.
  unfold classify_rest.
  destruct (re_match NICK_REGEXP rest) as [m|] eqn:E.
  2:{ intros H. exfalso.
      repeat match type of H with
             | context [match ?x with _ => _ end] => destruct x
             end; simpl in H; congruence. }
  intros H. injection H as <- <-.
  destruct (nick_match_inv _ _ E) as (nick & sp & text & Hr & Hsp & Hg & Hd & Hm).
  change (lookup_cap 1 (m_caps m)) with (group m 1). rewrite Hg, Hd.
  exists nick, sp, text. auto.
Qed.
End CommentEventFacts.

Section KindFacts.
Import LogParser Re.

(** X3. What the kind of an event tells about the line left after the
    timestamp. A SERVER event comes only from a line that starts with three
    dashes, never from one that starts with three stars; a PART event only
    from an arrow line without "joined"; no event is a NICKCHANGE; every
    event but a COMMENT carries the whole line. *)
Theorem kind_tells_line (time : option string) (rest : string) (t : option string)
    (k : kind) (i : info) :
  classify_rest time rest = Ok (t, k, i) ->
  t = time
  /\ match k with
     | COMMENT => startswith rest "<" = true
     | ACTION => startswith rest "* " = true /\ i = Line rest
     | JOIN =>
         (startswith rest "*** " = true
          \/ (startswith rest "--> " = true /\ contains "joined" rest = true))
         /\ i = Line rest
     | PART =>
         startswith rest "--> " = true
         /\ contains "joined" rest = false
         /\ (contains "left" rest = true \/ contains "quit" rest = true)
         /\ i = Line rest
     | NICKCHANGE => False
     | SERVER =>
         startswith rest "--- " = true
         /\ nick_change_locals rest = None
         /\ i = Line rest
     | OTHER =>
         startswith rest "* " = false
         /\ startswith rest "*** " = false
         /\ startswith rest "--- " = false
         /\ (startswith rest "--> " = true ->
             contains "joined" rest = false
             /\ contains "left" rest = false
             /\ contains "quit" rest = false)
         /\ i = Line rest
     end.
Proof.
  unfold classify_rest, nick_change_locals.
  destruct (re_match NICK_REGEXP rest) as [m|] eqn:E.
  { intros H. injection H as <- <- <-. split; [reflexivity|].
    unfold re_match, match_at, NICK_REGEXP in E. cbn [seqs run Nat.eqb] in E.
    destruct rest as [|c0 rest]; [discriminate|].
    destruct (Ascii.eqb_spec c0 "<") as [->|]; [|discriminate].
    destruct rest; reflexivity. }
  destruct (startswith rest "* ") eqn:A.
  { intros H; injection H as <- <- <-. auto. }
  destruct (startswith rest "*** ") eqn:S3; cbn [orb].
  { intros H; injection H as <- <- <-. auto. }
  destruct (startswith rest "--> ") eqn:Ar; cbn [andb].
  - destruct (contains "joined" rest) eqn:J.
    { intros H; injection H as <- <- <-. auto. }
    destruct (contains "left" rest) eqn:L; cbn [orb].
    { intros H; injection H as <- <- <-. auto 10. }
    destruct (contains "quit" rest) eqn:Q.
    { intros H; injection H as <- <- <-. auto 10. }
    destruct (re_match NICK_CHANGE_REGEXP rest) as [m|] eqn:N.
    { intros H; simpl in H; discriminate. }
    destruct (startswith rest "--- ") eqn:D3.
    { exfalso. destruct (startswith_split _ _ Ar) as [x ->].
      vm_compute in D3. discriminate. }
    intros H; injection H as <- <- <-. auto 10.
  - destruct (re_match NICK_CHANGE_REGEXP rest) as [m|] eqn:N.
    { intros H; simpl in H; discriminate. }
    destruct (startswith rest "--- ") eqn:D3.
    + intros H; injection H as <- <- <-. auto.
    + intros H; injection H as <- <- <-.
      repeat split; try reflexivity; discriminate.
Qed.
End KindFacts.

(** ** Line ends *)

(** A carriage return or a line feed. *)
Definition is_crlf (c : ascii) : bool :=
  Ascii.eqb c "013" || Ascii.eqb c "010".

Lemma rstrip_crlf_cons (c : ascii) (s : string) :
  rstrip_crlf (String c s)
  = match rstrip_crlf s with
    | EmptyString => if is_crlf c then EmptyString else String c EmptyString
    | r => String c r
    end.
Proof. reflexivity. Qed.

(** X5. Stripping the line end cuts a line in two: what is kept, which does
    not end in a carriage return or a line feed, and what is dropped, which
    holds nothing else. *)
Theorem rstrip_crlf_splits (s : string) :
  exists t,
    s = rstrip_crlf s +:+ t
    /\ forallb is_crlf (list_ascii_of_string t) = true
    /\ (forall r c, rstrip_crlf s = r +:+ String c EmptyString ->
                    is_crlf c = false).
Proof.
  induction s as [|c s (t & Hs & Ht & Hend)].
  - exists EmptyString. split; [reflexivity|]. split; [reflexivity|].
    intros [|] c H; discriminate.
  - rewrite rstrip_crlf_cons. destruct (rstrip_crlf s) as [|d r'] eqn:R.
    + destruct (is_crlf c) eqn:C.
      * exists (String c s). split; [reflexivity|].
        app_red_in Hs. subst t. cbn [list_ascii_of_string forallb].
        rewrite C, Ht. split; [reflexivity|].
        intros [|] x H; discriminate.
      * exists s. split; [app_red; reflexivity|].
        app_red_in Hs. subst t. split; [exact Ht|].
        intros [|a r] x H; app_red_in H.
        -- injection H as <-. exact C.
        -- injection H as _ H. destruct r; discriminate.
    + exists t. split; [app_red; rewrite Hs at 1; reflexivity|].
      split; [exact Ht|].
      intros [|a r] x H; app_red_in H; [discriminate|].
      injection H as _ H. exact (Hend _ _ H).
Qed.

(** ** The colourizer *)

Section ColourizerFacts.
Import NickColourizer.

(** What [choose] returns is never the empty string. *)
Lemma choose_nonempty (self : ColourChooser.t) (i n : Z) (s : string) :
  ColourChooser.choose self i n = Ok s -> exists t, s = String "#" t.
Proof.
  unfold ColourChooser.choose.
  destruct (length (ColourChooser.rgb self)); [discriminate|].
  destruct (_ !! _) as [[[r g] b]|]; [|discriminate].
  destruct (ColourChooser.magnitude _ _ _); [|discriminate].
  cbn [mbind pyresult_bind].
  repeat match goal with
         | |- (?x ≫= _) = Ok _ -> _ =>
             destruct x; cbn [mbind pyresult_bind]; [|discriminate]
         end.
  intros H. injection H as <-. eexists. reflexivity.
Qed.

(** The entry of [nick] asks for a fresh colour: it is missing or empty. *)
Definition unknown (self : t) (nick : string) : Prop :=
  nick_colour self !! nick = None \/ nick_colour self !! nick = Some EmptyString.

(** A nick the colourizer has no colour for is counted and gets a colour of
    the chooser. *)
Lemma getitem_fresh (self : t) (nick : string) :
  colour_chooser self = ColourChooser.default_chooser ->
  (0 <= nickcount self < maxnicks self)%Z ->
  (maxnicks self <= 2 ^ 1016)%Z ->
  unknown self nick ->
  exists colour self',
    getitem self nick = (Ok colour, self')
    /\ matches_colour colour = true
    /\ nick_colour self' = <[nick := colour]> (nick_colour self)
    /\ colour_chooser self' = colour_chooser self
    /\ nickcount self' = (nickcount self + 1)%Z
    /\ (nickcount self' < maxnicks self')%Z
    /\ (maxnicks self <= maxnicks self' <= 2 * maxnicks self)%Z
    /\ (maxnicks self' <= 30 + 2 * nickcount self'
        \/ maxnicks self' = maxnicks self)%Z.
Proof.
  intros Hc Hn Hm Hu. unfold getitem.
  set (n' := if (maxnicks self <=? nickcount self + 1)%Z
             then (maxnicks self * 2)%Z else maxnicks self).
  assert (Hn' : (nickcount self + 1 < n'
                 /\ maxnicks self <= n' <= 2 * maxnicks self
                 /\ (n' <= 30 + 2 * (nickcount self + 1) \/ n' = maxnicks self))%Z).
  { unfold n'. destruct (Z.leb_spec (maxnicks self) (nickcount self + 1)); lia. }
  destruct (ColourFacts.choose_colour (nickcount self + 1) n')
    as (r & g & b & Hch & Hr & Hg & Hb).
  { unfold ColourFacts.max_total.
    change (2 ^ 1017)%Z with (2 * 2 ^ 1016)%Z. lia. }
  { lia. }
  rewrite Hc, Hch.
  destruct Hu as [Hu|Hu]; rewrite Hu;
    (eexists; eexists; split; [reflexivity|];
     cbn [nick_colour colour_chooser nickcount maxnicks];
     split; [apply colour_of_bytes; assumption|];
     split; [reflexivity|]; split; [reflexivity|];
     split; [reflexivity|]; lia).
Qed.

(** X7. A colourizer with the default chooser whose count is below its
    limit (at most [2 ^ 1016]) answers every nick with a colour, which it
    then holds for that nick. A nick with a non-empty colour gets it and
    nothing changes. Any other nick is counted, gets a colour that matches
    the colour pattern, and the count stays below the limit, which at most
    doubles: the assertions of the chooser cannot fail. *)
Theorem getitem_answers (self : t) (nick : string) :
  colour_chooser self = ColourChooser.default_chooser ->
  (0 <= nickcount self < maxnicks self)%Z ->
  (maxnicks self <= 2 ^ 1016)%Z ->
  exists colour self',
    getitem self nick = (Ok colour, self')
    /\ nick_colour self' !! nick = Some colour
    /\ colour_chooser self' = colour_chooser self
    /\ (0 <= nickcount self' < maxnicks self')%Z
    /\ (maxnicks self <= maxnicks self' <= 2 * maxnicks self)%Z
    /\ (unknown self nick ->
        matches_colour colour = true
        /\ nickcount self' = (nickcount self + 1)%Z)
    /\ (~ unknown self nick -> self' = self).
Proof.
  intros Hc Hn Hm.
  destruct (nick_colour self !! nick) as [[|c s]|] eqn:E.
  2:{ exists (String c s), self. unfold getitem. rewrite E.
      split; [reflexivity|]. split; [reflexivity|]. split; [reflexivity|].
      split; [exact Hn|]. split; [lia|]. split; [|reflexivity].
      unfold unknown. intros [H|H]; congruence. }
  all: destruct (getitem_fresh self nick Hc Hn Hm) as
      (colour & self' & G & Hcol & Htab & Hch & Hcount & Hlt & Hmx & _);
    [unfold unknown; auto|];
    exists colour, self'; (split; [exact G|]);
    (split; [rewrite Htab; apply lookup_insert_eq|]);
    (split; [exact Hch|]); (split; [lia|]); (split; [exact Hmx|]);
    (split; [auto|]); intros Hk; exfalso; apply Hk; unfold unknown; auto.
Qed.

(** X8. Once [__getitem__] has answered a nick, asking again gives the same
    colour and changes nothing, and the entries of the other nicks are as
    they were before the first call. *)
Theorem getitem_is_stable (self self' : t) (nick colour : string) :
  getitem self nick = (Ok colour, self') ->
  getitem self' nick = (Ok colour, self')
  /\ nick_colour self' !! nick = Some colour
  /\ (forall other, other <> nick ->
        nick_colour self' !! other = nick_colour self !! other).
Proof.
  unfold getitem at 1.
  destruct (nick_colour self !! nick) as [[|c s]|] eqn:E.
  2:{ intros H. injection H as <- <-. unfold getitem. rewrite E. auto. }
  all: destruct (ColourChooser.choose _ _ _) as [col|] eqn:Hch;
    [|intros H; discriminate];
    intros H; injection H as <- <-;
    destruct (choose_nonempty _ _ _ _ Hch) as [t ->];
    unfold getitem; cbn [nick_colour];
    rewrite lookup_insert_eq;
    (split; [reflexivity|]; split; [reflexivity|]);
    intros other Ho; apply lookup_insert_ne; congruence.
Qed.
End ColourizerFacts.

(** ** Escaping *)

Lemma append_nil_r (s : string) : s +:+ EmptyString = s.
Proof. induction s as [|c s IH]; [reflexivity|]. app_red. rewrite IH. reflexivity. Qed.

Lemma append_assoc (a b c : string) : (a +:+ b) +:+ c = a +:+ (b +:+ c).
Proof. induction a as [|x a IH]; [reflexivity|]. app_red. rewrite IH. reflexivity. Qed.

Lemma prefix_nil (s : string) : String.prefix EmptyString s = true.
Proof. destruct s; reflexivity. Qed.

(** Replacing a one-character string works character by character. *)
Lemma replace_char_cons (x : ascii) (new : string) (c : ascii) (s : string) :
  replace (String x EmptyString) new (String c s)
  = (if Ascii.eqb c x then new else String c EmptyString)
    +:+ replace (String x EmptyString) new s.
Proof.
  unfold replace. cbn [replace_scan String.prefix String.length Nat.sub].
  rewrite prefix_nil.
  destruct (Ascii.ascii_dec x c) as [->|Hne].
  - rewrite Ascii.eqb_refl. reflexivity.
  - assert (E : Ascii.eqb c x = false) by (apply Ascii.eqb_neq; congruence).
    rewrite E. reflexivity.
Qed.

Lemma replace_char_app (x : ascii) (new a b : string) :
  replace (String x EmptyString) new (a +:+ b)
  = replace (String x EmptyString) new a
    +:+ replace (String x EmptyString) new b.
Proof.
  induction a as [|c a IH]; [reflexivity|].
  change (String c a +:+ b) with (String c (a +:+ b)).
  rewrite !replace_char_cons, IH, append_assoc. reflexivity.
Qed.

Lemma filter_str_app (p : ascii -> bool) (a b : string) :
  filter_str p (a +:+ b) = filter_str p a +:+ filter_str p b.
Proof.
  induction a as [|c a IH]; [reflexivity|].
  change (String c a +:+ b) with (String c (a +:+ b)).
  cbn [filter_str]. rewrite IH. destruct (p c); reflexivity.
Qed.

Lemma escape_app (a b : string) : escape (a +:+ b) = escape a +:+ escape b.
Proof.
  unfold escape. rewrite !replace_char_app, filter_str_app. reflexivity.
Qed.

(** What [escape] makes of one character. *)
Definition escape_one (c : ascii) : string :=
  if Ascii.eqb c "&" then "&amp;"
  else if Ascii.eqb c "<" then "&lt;"
  else if Ascii.eqb c ">" then "&gt;"
  else if (31 <? nat_of_ascii c)%nat then String c EmptyString
  else EmptyString.

Lemma escape_single (c : ascii) : escape (String c EmptyString) = escape_one c.
Proof.
  destruct c as [[] [] [] [] [] [] [] []]; vm_compute; reflexivity.
Qed.

Lemma escape_cons (c : ascii) (s : string) :
  escape (String c s) = escape_one c +:+ escape s.
Proof.
  change (String c s) with (String c EmptyString +:+ s).
  rewrite escape_app, escape_single. reflexivity.
Qed.

(** X9. [escape] works character by character: an ampersand, a [<] and a
    [>] become their entities, a control character is dropped, and any other
    character is kept. The ampersand is replaced first, so the ampersands of
    the entities are not escaped again. *)
Theorem escape_by_character :
  escape EmptyString = EmptyString
  /\ (forall c s, escape (String c s) = escape_one c +:+ escape s)
  /\ (forall a b, escape (a +:+ b) = escape a +:+ escape b).
Proof.
  split; [reflexivity|]. split; [exact escape_cons | exact escape_app].
Qed.

(** A character that may stand in escaped text. *)
Definition plain_char (c : ascii) : bool :=
  negb (Ascii.eqb c "<") && negb (Ascii.eqb c ">")
  && (31 <? nat_of_ascii c)%nat.

Lemma escape_one_plain (c : ascii) :
  forallb plain_char (list_ascii_of_string (escape_one c)) = true.
Proof.
  destruct c as [[] [] [] [] [] [] [] []]; vm_compute; reflexivity.
Qed.

Lemma list_ascii_app (a b : string) :
  list_ascii_of_string (a +:+ b)
  = (list_ascii_of_string a ++ list_ascii_of_string b)%list.
Proof.
  induction a as [|c a IH]; [reflexivity|].
  change (String c a +:+ b) with (String c (a +:+ b)).
  cbn [list_ascii_of_string]. rewrite IH. reflexivity.
Qed.

(** X10. What [escape] returns holds no [<], no [>] and no control
    character. *)
Theorem escape_output_plain (s : string) :
  forallb plain_char (list_ascii_of_string (escape s)) = true.
Proof.
  induction s as [|c s IH]; [reflexivity|].
  rewrite escape_cons, list_ascii_app, forallb_app.
  rewrite escape_one_plain, IH. reflexivity.
Qed.

(** X11. [escape] returns unchanged a text without ampersand, [<], [>] and
    control characters. *)
Theorem escape_plain_text (s : string) :
  forallb (fun c => plain_char c && negb (Ascii.eqb c "&"))
          (list_ascii_of_string s) = true ->
  escape s = s.
Proof.
  induction s as [|c s IH]; [reflexivity|]. cbn [list_ascii_of_string forallb].
  intros H. apply andb_true_iff in H as [Hc Hs].
  rewrite escape_cons, (IH Hs).
  unfold plain_char in Hc. unfold escape_one.
  destruct (Ascii.eqb c "&"); [rewrite andb_false_r in Hc; discriminate|].
  destruct (Ascii.eqb c "<"); [discriminate|].
  destruct (Ascii.eqb c ">"); [discriminate|].
  cbn [negb andb] in Hc. rewrite andb_true_r in Hc. rewrite Hc. reflexivity.
Qed.

(** ** Links *)

Section LinkFacts.
Import Re Template.

Lemma expand_literals (l : list ascii) (m : match_obj) :
  expand_template (map TLit l) m = Ok (string_of_list_ascii l).
Proof.
  induction l as [|c l IH]; [reflexivity|].
  cbn [map expand_template]. rewrite IH. reflexivity.
Qed.

(** With a template of literal characters the substitution never fails. *)
Lemma sub_scan_literals (r : regex) (l : list ascii) (subj : string) :
  forall s pos skip i n,
    exists out, sub_scan r (map TLit l) subj pos s skip i n = Ok out.
Proof.
  induction s as [|c s IH]; intros pos skip i n; cbn [sub_scan].
  - destruct skip; [|eauto]. destruct (match_at r subj pos EmptyString); [|eauto].
    destruct (_ && _); [eauto|]. rewrite expand_literals. eauto.
  - destruct skip as [|k]; [|apply IH].
    destruct (match_at r subj pos (String c s)) as [m|].
    + rewrite expand_literals. cbn [mbind pyresult_bind].
      destruct (m_end m =? pos)%nat.
      * destruct (_ && _).
        -- destruct (IH (S pos) 0%nat i n) as [out ->]. eauto.
        -- destruct (IH (S pos) 0%nat pos (S n)) as [out ->]. eauto.
      * destruct (IH (S pos) (m_end m - pos - 1)%nat (m_end m) (S n))
          as [out ->]. eauto.
    + destruct (IH (S pos) 0%nat i n) as [out ->]. eauto.
Qed.

Lemma link_template_literals :
  parse_template link_template
  = Ok (map TLit (list_ascii_of_string nul_anchor)).
Proof. reflexivity. Qed.

Lemma createlinks_returns (text : string) :
  exists out, createlinks text = Ok out.
Proof.
  unfold createlinks, re_sub. rewrite link_template_literals.
  cbn [mbind pyresult_bind]. apply sub_scan_literals.
Qed.

(** A literal word matches only at a string that begins with it. *)
Lemma run_lits_aux (subj : string) (w : string) :
  forall c pos s cs k r,
    run subj (lits_aux c w) pos s cs k = Some r ->
    exists s', s = String c w +:+ s'
               /\ k (pos + S (String.length w))%nat s' cs = Some r.
Proof.
  induction w as [|d w IH]; intros c pos s cs k r H; cbn [lits_aux run] in H.
  - destruct s as [|a s]; [discriminate|].
    destruct (Ascii.eqb_spec a c) as [->|]; [|discriminate].
    exists s. split; [reflexivity|]. cbn [String.length].
    replace (pos + 1)%nat with (S pos) by lia. exact H.
  - destruct s as [|a s]; [discriminate|].
    destruct (Ascii.eqb_spec a c) as [->|]; [|discriminate].
    apply IH in H as (s' & -> & H). exists s'. split; [reflexivity|].
    cbn [String.length].
    replace (pos + S (S (String.length w)))%nat
      with (S pos + S (String.length w))%nat by lia.
    exact H.
Qed.

Lemma contains_app_r (sub a b : string) :
  contains sub b = true -> contains sub (a +:+ b) = true.
Proof.
  intros H. induction a as [|c a IH]; [exact H|].
  change (String c a +:+ b) with (String c (a +:+ b)).
  cbn [contains]. rewrite IH. apply orb_true_r.
Qed.

Lemma contains_prefix (sub s : string) :
  String.prefix sub s = true -> contains sub s = true.
Proof. intros H. destruct s; cbn [contains]; rewrite H; reflexivity. Qed.

(** The URL pattern matches only where a scheme separator follows. *)
Lemma url_match_separator (subj : string) (pos : nat) (s : string)
    (m : match_obj) :
  match_at URL_REGEXP subj pos s = Some m -> contains "://" s = true.
Proof.
  unfold match_at, URL_REGEXP. cbn [seqs run].
  set (k := fun (pos' : nat) (s' : string) (cs' : caps) => _).
  assert (Hk : forall p s0 cs r0, k p s0 cs = Some r0 ->
                                  String.prefix "://" s0 = true).
  { intros p s0 cs r0 H. unfold k in H. unfold lits in H.
    apply run_lits_aux in H as (s' & -> & _). destruct s'; reflexivity. }
  assert (Hw : forall w r0, w <> EmptyString ->
                 run subj (lits w) pos s [] k = Some r0 ->
                 contains "://" s = true).
  { intros [|c w] r0 Hne H; [contradiction|]. unfold lits in H.
    apply run_lits_aux in H as (s' & -> & H). apply Hk in H.
    apply contains_app_r, contains_prefix. exact H. }
  clearbody k.
  repeat match goal with
         | |- context [run subj (lits ?w) pos s [] k] =>
             let F := fresh "F" in
             destruct (run subj (lits w) pos s [] k) eqn:F;
               [intros _; eapply Hw; [|exact F]; discriminate|]
         end.
  discriminate.
Qed.

Lemma contains_tail (sub : string) (c : ascii) (s : string) :
  contains sub (String c s) = false -> contains sub s = false.
Proof. cbn [contains]. intros H. apply orb_false_iff in H as [_ H]. exact H. Qed.

Lemma sub_scan_no_match (r : regex) (t : list item) (subj : string) :
  forall s pos i n,
    (forall p s', match_at r subj p s' = None \/ contains "://" s' = true) ->
    contains "://" s = false ->
    sub_scan r t subj pos s 0 i n = Ok s.
Proof.
  induction s as [|c s IH]; intros pos i n Hm Hs; cbn [sub_scan].
  - destruct (Hm pos EmptyString) as [-> | H]; [reflexivity | discriminate].
  - destruct (Hm pos (String c s)) as [-> | H]; [|congruence].
    rewrite IH; [reflexivity | exact Hm | exact (contains_tail _ _ _ Hs)].
Qed.

Lemma createlinks_plain (text : string) :
  contains "://" text = false -> createlinks text = Ok text.
Proof.
  intros H. unfold createlinks, re_sub. rewrite link_template_literals.
  cbn [mbind pyresult_bind]. apply sub_scan_no_match; [|exact H].
  intros p s'. destruct (match_at URL_REGEXP text p s') as [m|] eqn:E;
    [right; exact (url_match_separator _ _ _ _ E) | left; reflexivity].
Qed.
(** X12. [createlinks] always returns (the template holds no group
    reference, so the substitution cannot fail), and it returns unchanged a
    text in which no scheme separator occurs. *)
Theorem createlinks_keeps_plain_text :
  (forall text, exists out, createlinks text = Ok out)
  /\ (forall text, contains "://" text = false -> createlinks text = Ok text).
Proof. split; [exact createlinks_returns | exact createlinks_plain]. Qed.
End LinkFacts.

(** ** The conversion *)

Section ConversionFacts.
Import LogParser.

(** The events the parser yields have a payload of the shape of their
    kind: a nick and a text for a comment, the line for the other kinds. *)
Definition well_formed (ev : event) : Prop :=
  match ev with
  | (_, COMMENT, NickText (VStr _) _) => True
  | (_, COMMENT, _) => False
  | (_, NICKCHANGE, _) => False
  | (_, _, Line _) => True
  | _ => False
  end.

Lemma classify_well_formed (line : string) (ev : event) :
  classify line = Ok ev -> well_formed ev.
Proof.
  rewrite strip_time_fst_snd.
  generalize (strip_time line).1 (strip_time line).2. intros t l.
  unfold classify_rest.
  destruct (Re.re_match NICK_REGEXP l) as [m|] eqn:E.
  - destruct (nick_match_inv _ _ E) as (nick & sp & text & _ & _ & Hg & _).
    intros H. injection H as <-.
    change (well_formed (t, COMMENT,
              NickText (val_of_group (Re.group m 1))
                       (drop_str (match_len m) l))).
    rewrite Hg. exact I.
  - repeat match goal with
           | |- context [match ?x with _ => _ end] => destruct x
           end; simpl; intros H; inversion H; exact I.
Qed.

Lemma classify_raises (line : string) (e : exn) :
  classify line = Raise e -> e = NameError "oldnick".
Proof.
  rewrite strip_time_fst_snd.
  generalize (strip_time line).1 (strip_time line).2. intros t l.
  unfold classify_rest.
  repeat match goal with
         | |- context [match ?x with _ => _ end] => destruct x
         end; simpl; intros H; inversion H; reflexivity.
Qed.

Lemma iter_well_formed (infile : list string) :
  Forall well_formed (iter infile).1
  /\ ((iter infile).2 = None \/ (iter infile).2 = Some (NameError "oldnick"))
  /\ (length (iter infile).1 <= length infile)%nat.
Proof.
  induction infile as [|raw more IH]; cbn [iter].
  - split; [constructor|]. split; [left; reflexivity | reflexivity].
  - destruct IH as (IH1 & IH2 & IH3).
    destruct (rstrip_crlf raw) as [|c l] eqn:R.
    + split; [exact IH1|]. split; [exact IH2 | cbn [length]; lia].
    + destruct (classify (String c l)) as [ev|e] eqn:C.
      * destruct (iter more) as [evs e]. cbn [fst snd] in *.
        split; [constructor; [exact (classify_well_formed _ _ C) | exact IH1]|].
        split; [exact IH2 | cbn [length]; lia].
      * cbn [fst snd]. rewrite (classify_raises _ _ C).
        split; [constructor|]. split; [right; reflexivity | cbn [length]; lia].
Qed.

(** The colourizer of a conversion, after at most [k] fresh nicks. *)
Definition counted (k : Z) (nc : NickColourizer.t) : Prop :=
  NickColourizer.colour_chooser nc = ColourChooser.default_chooser
  /\ (0 <= NickColourizer.nickcount nc < NickColourizer.maxnicks nc)%Z
  /\ (NickColourizer.maxnicks nc <= 30 + 2 * NickColourizer.nickcount nc)%Z
  /\ (NickColourizer.nickcount nc <= k)%Z.

Lemma getitem_counted (k : Z) (nc : NickColourizer.t) (nick : string) :
  counted k nc -> (k < 2 ^ 1000)%Z ->
  exists colour nc',
    NickColourizer.getitem nc nick = (Ok colour, nc')
    /\ counted (k + 1) nc'.
Proof.
  intros (Hc & Hn & Hm & Hk) Hb.
  destruct (NickColourizer.nick_colour nc !! nick) as [[|c s]|] eqn:E.
  2:{ exists (String c s), nc. unfold NickColourizer.getitem. rewrite E.
      split; [reflexivity|]. repeat split; try assumption; lia. }
  all: destruct (getitem_fresh nc nick Hc Hn) as
      (colour & nc' & -> & _ & _ & Hc' & Hn' & Hlt & Hmx & Hor);
    [ assert (2 ^ 1000 < 2 ^ 1015)%Z by (apply Z.pow_lt_mono_r; lia);
      assert (2 ^ 1016 = 2 * 2 ^ 1015)%Z by (change 1016%Z with (Z.succ 1015);
                                             apply Z.pow_succ_r; lia);
      lia
    | unfold unknown; auto
    | exists colour, nc'; split; [reflexivity|];
      repeat split; try congruence; lia ].
Qed.

Lemma on_event_well_formed (k : Z) (ev : event) (nc : NickColourizer.t) :
  well_formed ev -> counted k nc -> (k < 2 ^ 1000)%Z ->
  exists c nc',
    on_event ev nc = ([c], nc', None)
    /\ counted (k + 1) nc'
    /\ c <> CallFoot /\ (forall title, c <> CallHead title).
Proof.
  intros Hw Hc Hk. destruct ev as [[t what] i]. unfold on_event.
  destruct what; cbn [well_formed] in Hw; try contradiction.
  1:{ destruct i as [[| nick |] text | |]; try contradiction.
      cbn [items map_escape].
      destruct (createlinks_returns (escape text)) as [out ->].
      destruct (getitem_counted k nc (escape nick) Hc Hk)
        as (colour & nc' & -> & Hc').
      eexists; eexists. split; [reflexivity|].
      split; [exact Hc'|]. split; [discriminate | intros; discriminate]. }
  all: destruct i as [| text |]; try contradiction;
    destruct (createlinks_returns (escape text)) as [out ->];
    eexists; eexists; (split; [reflexivity|]);
    (split; [destruct Hc as (? & ? & ? & ?); repeat split; (assumption || lia)|]);
    (split; [discriminate | intros; discriminate]).
Qed.

Lemma loop_well_formed (evs : list event) :
  forall (k : Z) (nc : NickColourizer.t),
    Forall well_formed evs -> counted k nc ->
    (k + Z.of_nat (length evs) <= 2 ^ 1000)%Z ->
    exists body nc',
      log2html_loop evs nc = (body, nc', None)
      /\ length body = length evs
      /\ ~ In CallFoot body /\ (forall title, ~ In (CallHead title) body).
Proof.
  induction evs as [|ev evs IH]; intros k nc Hw Hc Hk.
  - exists [], nc. cbn. repeat split; auto.
  - inversion Hw as [|? ? Hev Hevs]; subst. cbn [length] in Hk.
    destruct (on_event_well_formed k ev nc Hev Hc ltac:(lia))
      as (c & nc1 & E & Hc1 & Hf & Hh).
    destruct (IH (k + 1)%Z nc1 Hevs Hc1 ltac:(lia))
      as (body & nc2 & E2 & Hl & Hf2 & Hh2).
    exists (c :: body), nc2. cbn [log2html_loop]. rewrite E, E2.
    split; [reflexivity|]. split; [cbn [length]; congruence|].
    split.
    + intros [H|H]; [congruence | contradiction].
    + intros title [H|H]; [exact (Hh title H) | exact (Hh2 title H)].
Qed.

(** X13. A conversion of a log of at most [2 ^ 1000] lines makes one call
    on the formatter for each event the parser yields, after the header. If
    the parser reaches the end of the log the footer follows and the
    conversion returns. If the parser stops, the conversion raises the
    NameError of the nick-change branch and the footer is never written. No
    other exception can arise: the payloads have the shape the loop unpacks,
    the link template is valid, and the colourizer stays within the bounds
    its chooser asserts. *)
Theorem log2html_outcome (infile : list string) (title : string) :
  (Z.of_nat (length infile) <= 2 ^ 1000)%Z ->
  exists body,
    length body = length (iter infile).1
    /\ ~ In CallFoot body
    /\ (forall t, ~ In (CallHead t) body)
    /\ log2html infile title
       = match (iter infile).2 with
         | None => (CallHead title :: body ++ [CallFoot], None)
         | Some _ => (CallHead title :: body, Some (Exn (NameError "oldnick")))
         end.
Proof.
  intros Hb. destruct (iter_well_formed infile) as (Hw & He & Hl).
  destruct (loop_well_formed (iter infile).1 0 (NickColourizer.init 30 ∅) Hw)
    as (body & nc' & E & Hlen & Hf & Hh).
  { repeat split; cbn; lia. }
  { lia. }
  exists body. split; [exact Hlen|]. split; [exact Hf|]. split; [exact Hh|].
  unfold log2html. destruct (iter infile) as [evs stop]. cbn [fst snd] in *.
  rewrite E. destruct He as [-> | ->]; reflexivity.
Qed.
End ConversionFacts.

Section ColourFactsOfConversion.
Import LogParser.

Lemma getitem_keeps (nc nc' : NickColourizer.t) (nick : string)
    (r : pyresult string) :
  NickColourizer.getitem nc nick = (r, nc') ->
  (forall n c, NickColourizer.nick_colour nc !! n = Some c ->
               c <> EmptyString ->
               NickColourizer.nick_colour nc' !! n = Some c)
  /\ (forall c, r = Ok c ->
        NickColourizer.nick_colour nc' !! nick = Some c /\ c <> EmptyString).
Proof.
  unfold NickColourizer.getitem.
  destruct (NickColourizer.nick_colour nc !! nick) as [[|a s]|] eqn:E.
  2:{ intros H. injection H as <- <-. split; [auto|].
      intros c H. injection H as <-. split; [exact E | discriminate]. }
  all: destruct (ColourChooser.choose _ _ _) as [col|e] eqn:Hch;
    intros H; injection H as <- <-; cbn [NickColourizer.nick_colour];
    (split; [|intros c H; try discriminate]).
  all: try (intros n c Hn Hc; destruct (decide (n = nick)) as [->|Hne];
            [congruence | rewrite lookup_insert_ne by congruence; exact Hn]).
  all: try (intros n c Hn Hc; exact Hn).
  all: injection H as <-; rewrite lookup_insert_eq;
    destruct (choose_nonempty _ _ _ _ Hch) as [t ->];
    split; [reflexivity | discriminate].
Qed.

Lemma on_event_colours (ev : event) (nc nc' : NickColourizer.t)
    (cs : list call) (r : option raised) :
  on_event ev nc = (cs, nc', r) ->
  (forall n c, NickColourizer.nick_colour nc !! n = Some c ->
               c <> EmptyString ->
               NickColourizer.nick_colour nc' !! n = Some c)
  /\ (forall n x c, In (CallNickText n x c) cs ->
        NickColourizer.nick_colour nc' !! n = Some c /\ c <> EmptyString)
  /\ (forall w x, In (CallServerMsg w x) cs -> w <> NICKCHANGE).
Proof.
  destruct ev as [[t what] i]. unfold on_event.
  assert (Hnone : forall e : option raised,
            ([], nc, e) = (cs, nc', r) ->
            (forall n c, NickColourizer.nick_colour nc !! n = Some c ->
                         c <> EmptyString ->
                         NickColourizer.nick_colour nc' !! n = Some c)
            /\ (forall n x c, In (CallNickText n x c) cs ->
                  NickColourizer.nick_colour nc' !! n = Some c
                  /\ c <> EmptyString)
            /\ (forall w x, In (CallServerMsg w x) cs -> w <> NICKCHANGE)).
  { intros e H. injection H as <- <- <-.
    split; [auto|]. split; intros; contradiction. }
  assert (Hserver : forall w text,
            w <> NICKCHANGE ->
            match createlinks (escape text) with
            | Ok text => ([CallServerMsg w text], nc, None)
            | Raise e => ([], nc, Some (Exn e))
            end = (cs, nc', r) ->
            (forall n c, NickColourizer.nick_colour nc !! n = Some c ->
                         c <> EmptyString ->
                         NickColourizer.nick_colour nc' !! n = Some c)
            /\ (forall n x c, In (CallNickText n x c) cs ->
                  NickColourizer.nick_colour nc' !! n = Some c
                  /\ c <> EmptyString)
            /\ (forall w x, In (CallServerMsg w x) cs -> w <> NICKCHANGE)).
  { intros w text Hw. destruct (createlinks (escape text)); [|apply Hnone].
    intros H. injection H as <- <- <-. split; [auto|]. split.
    - intros n x c [H|H]; [discriminate | contradiction].
    - intros w' x [H|H]; [congruence | contradiction]. }
  destruct what.
  1:{ destruct (map_escape (items i)) as [[|nick [|text [|]]]|];
        try apply Hnone.
      destruct (createlinks text) as [text'|]; [|apply Hnone].
      destruct (NickColourizer.getitem nc nick) as [[colour|e] nc1] eqn:G;
        destruct (getitem_keeps _ _ _ _ G) as [Hk Ho];
        intros H; injection H as <- <- <-.
      - split; [exact Hk|]. split.
        + intros n x c [H|H]; [|contradiction]. injection H as <- <- <-.
          apply Ho. reflexivity.
        + intros w x [H|H]; [discriminate | contradiction].
      - split; [exact Hk|]. split; intros; contradiction. }
  4:{ destruct (map_escape (items i)) as [[|? [|? [|? [|]]]]|]; apply Hnone. }
  all: destruct i; try apply Hnone; apply Hserver; discriminate.
Qed.

Lemma loop_colours (evs : list event) :
  forall (nc nc' : NickColourizer.t) (cs : list call) (r : option raised),
    log2html_loop evs nc = (cs, nc', r) ->
    (forall n c, NickColourizer.nick_colour nc !! n = Some c ->
                 c <> EmptyString ->
                 NickColourizer.nick_colour nc' !! n = Some c)
    /\ (forall n x c, In (CallNickText n x c) cs ->
          NickColourizer.nick_colour nc' !! n = Some c /\ c <> EmptyString)
    /\ (forall w x, In (CallServerMsg w x) cs -> w <> NICKCHANGE).
Proof.
  induction evs as [|ev evs IH]; intros nc nc' cs r; cbn [log2html_loop].
  - intros H. injection H as <- <- <-. split; [auto|]. split; intros; contradiction.
  - destruct (on_event ev nc) as [[cs1 nc1] [e|]] eqn:E;
      destruct (on_event_colours _ _ _ _ _ E) as (K1 & N1 & S1).
    + intros H. injection H as <- <- <-. auto.
    + destruct (log2html_loop evs nc1) as [[cs2 nc2] r2] eqn:L.
      destruct (IH _ _ _ _ L) as (K2 & N2 & S2).
      intros H. injection H as <- <- <-.
      split; [intros n c Hn Hc; apply K2; auto|]. split.
      * intros n x c Hin. apply in_app_or in Hin as [Hin|Hin].
        -- destruct (N1 _ _ _ Hin) as [Hn Hc]. split; [apply K2; auto | exact Hc].
        -- apply (N2 _ _ _ Hin).
      * intros w x Hin. apply in_app_or in Hin as [Hin|Hin];
          [exact (S1 _ _ Hin) | exact (S2 _ _ Hin)].
Qed.

(** The calls of a conversion between the header and the footer. *)
Lemma log2html_calls (infile : list string) (title : string) (c : call) :
  In c (log2html infile title).1 ->
  c = CallHead title \/ c = CallFoot
  \/ In c (log2html_loop (iter infile).1 (NickColourizer.init 30 ∅)).1.1.
Proof.
  unfold log2html. destruct (iter infile) as [evs stop]. cbn [fst].
  destruct (log2html_loop evs _) as [[cs nc] r]. cbn [fst].
  destruct r as [e|]; [|destruct stop as [e|]]; cbn [fst].
  - intros [H|H]; auto.
  - intros [H|H]; auto.
  - intros [H|H]; [auto|]. apply in_app_or in H as [H|[H|[]]]; auto.
Qed.

(** X14. Within one conversion a nick keeps its colour: two comments by the
    same nick are written in the same colour. *)
Theorem nick_keeps_colour (infile : list string) (title : string)
    (nick text text' colour colour' : string) :
  In (CallNickText nick text colour) (log2html infile title).1 ->
  In (CallNickText nick text' colour') (log2html infile title).1 ->
  colour = colour'.
Proof.
  intros H1 H2.
  apply log2html_calls in H1 as [H1|[H1|H1]]; try discriminate.
  apply log2html_calls in H2 as [H2|[H2|H2]]; try discriminate.
  destruct (log2html_loop _ _) as [[cs nc] r] eqn:L. cbn [fst] in *.
  destruct (loop_colours _ _ _ _ _ L) as (_ & N & _).
  destruct (N _ _ _ H1) as [E1 _]. destruct (N _ _ _ H2) as [E2 _].
  congruence.
Qed.

Lemma colours_without_action (given : gmap string string) (v : string)
    (k : kind) :
  k <> NICKCHANGE ->
  colours_of_options (<["colour_action" := v]> given) k
  = colours_of_options given k.
Proof.
  intros Hk. unfold colours_of_options, COLOURS, option_value, set_colour.
  cbn [fold_left]. cbv [String.append].
  destruct k; try contradiction; cbn [kind_eqb];
    rewrite ?lookup_insert_ne by discriminate; reflexivity.
Qed.

Lemma written_ext (st : Style.t) (c1 c2 : colours_t) (cs : list call) :
  (forall w x, In (CallServerMsg w x) cs -> c1 w = c2 w) ->
  written st c1 cs = written st c2 cs.
Proof.
  induction cs as [|c cs IH]; intros H; [reflexivity|].
  cbn [written fold_right]. fold (written st c1 cs) (written st c2 cs).
  rewrite IH by (intros; apply (H w x); right; assumption).
  f_equal. destruct c; try reflexivity.
  cbn [render]. unfold Style.servermsg.
  rewrite (H what text) by (left; reflexivity). reflexivity.
Qed.

(** X15. The table COLOURS pairs the option named action with the
    NICKCHANGE events and the option named nickchange with the ACTION
    events. No NICKCHANGE event reaches the formatter, so what a conversion
    writes does not depend on the colour given for actions, in any style;
    and the colour of an ACTION line is the one given for nick changes. *)
Theorem colour_action_is_unused (st : Style.t) (given : gmap string string)
    (v : string) (infile : list string) (title : string) :
  written st (colours_of_options (<["colour_action" := v]> given))
          (log2html infile title).1
  = written st (colours_of_options given) (log2html infile title).1
  /\ colours_of_options given ACTION
     = Some (option_value given "nickchange" "#009900").
Proof.
  split; [|reflexivity].
  apply written_ext. intros w x H. apply colours_without_action.
  apply log2html_calls in H as [H|[H|H]]; try discriminate.
  destruct (log2html_loop _ _) as [[cs nc] r] eqn:L. cbn [fst] in H.
  destruct (loop_colours _ _ _ _ _ L) as (_ & _ & S). exact (S _ _ H).
Qed.
End ColourFactsOfConversion.

(** ** Runs of spaces *)

Lemma prefix_cons (a b : ascii) (p s : string) :
  String.prefix (String a p) (String b s) = Ascii.eqb a b && String.prefix p s.
Proof.
  cbn [String.prefix]. destruct (Ascii.ascii_dec a b) as [->|Hne].
  - rewrite Ascii.eqb_refl. reflexivity.
  - apply Ascii.eqb_neq in Hne. rewrite Hne. reflexivity.
Qed.

(** The replacement for a pair of spaces. *)
Definition nbsp2 : string := "&nbsp;&nbsp;".

Lemma contains_spaces_nbsp2 (s : string) :
  contains "  " (nbsp2 +:+ s) = contains "  " s.
Proof.
  unfold nbsp2. cbv [String.append]. fold String.append.
  repeat (match goal with
          | |- contains _ (String ?c ?x) = _ =>
              change (contains "  " (String c x))
                with (String.prefix "  " (String c x) || contains "  " x);
              rewrite prefix_cons; cbn [Ascii.eqb Bool.eqb andb orb]
          end).
  reflexivity.
Qed.

Lemma replace_spaces_pair (s : string) :
  replace "  " nbsp2 (String " " (String " " s))
  = nbsp2 +:+ replace "  " nbsp2 s.
Proof.
  unfold replace. cbn [replace_scan String.length Nat.sub].
  rewrite !prefix_cons, prefix_nil. cbn [Ascii.eqb Bool.eqb andb].
  reflexivity.
Qed.

Lemma replace_spaces_other (c : ascii) (s : string) :
  String.prefix "  " (String c s) = false ->
  replace "  " nbsp2 (String c s) = String c (replace "  " nbsp2 s).
Proof.
  intros H. unfold replace. cbn [replace_scan]. rewrite H. reflexivity.
Qed.

Lemma replace_leaves_no_pair (n : nat) :
  forall s, (String.length s <= n)%nat ->
            contains "  " (replace "  " nbsp2 s) = false.
Proof.
  induction n as [|n IH]; intros s Hn.
  - destruct s; [reflexivity | cbn in Hn; lia].
  - destruct s as [|c s]; [reflexivity|].
    destruct (String.prefix "  " (String c s)) eqn:P.
    + rewrite prefix_cons in P. apply andb_true_iff in P as [Pc Ps].
      apply Ascii.eqb_eq in Pc. subst c.
      destruct s as [|d s]; [discriminate|].
      rewrite prefix_cons, prefix_nil, andb_true_r in Ps.
      apply Ascii.eqb_eq in Ps. subst d.
      rewrite replace_spaces_pair, contains_spaces_nbsp2.
      apply IH. cbn in Hn. lia.
    + rewrite (replace_spaces_other _ _ P).
      change (contains "  " (String c ?x))
        with (String.prefix "  " (String c x) || contains "  " x).
      rewrite (IH s) by (cbn in Hn; lia). rewrite orb_false_r.
      rewrite prefix_cons in *.
      destruct (Ascii.eqb " " c); [|reflexivity]. cbn [andb] in *.
      destruct s as [|d s]; [reflexivity|].
      rewrite prefix_cons, prefix_nil, andb_true_r in P.
      destruct (String.prefix "  " (String d s)) eqn:P2.
      * rewrite prefix_cons, P in P2. discriminate.
      * rewrite (replace_spaces_other _ _ P2), prefix_cons, P. reflexivity.
Qed.

Section SpacesInConversion.
Import LogParser.

Lemma on_event_text (ev : event) (nc nc' : NickColourizer.t)
    (cs : list call) (r : option raised) (n x c : string) :
  on_event ev nc = (cs, nc', r) ->
  In (CallNickText n x c) cs ->
  exists text, x = replace "  " "&nbsp;&nbsp;" text.
Proof.
  destruct ev as [[t what] i]. unfold on_event.
  destruct what.
  1:{ destruct (map_escape (items i)) as [[|nick [|text [|]]]|];
        try (intros H; injection H as <- _ _; contradiction).
      destruct (createlinks text) as [text'|];
        [|intros H; injection H as <- _ _; contradiction].
      destruct (NickColourizer.getitem nc nick) as [[colour|e] nc1];
        intros H; injection H as <- _ _; [|contradiction].
      intros [H|[]]. injection H as _ <- _. eauto. }
  4:{ destruct (map_escape (items i)) as [[|? [|? [|? [|]]]]|];
        intros H; injection H as <- _ _; contradiction. }
  all: destruct i; try (intros H; injection H as <- _ _; contradiction);
    destruct (createlinks _); intros H; injection H as <- _ _;
    cbn [In]; intros Hin; intuition discriminate.
Qed.

Lemma loop_text (evs : list event) :
  forall (nc nc' : NickColourizer.t) (cs : list call) (r : option raised)
         (n x c : string),
    log2html_loop evs nc = (cs, nc', r) ->
    In (CallNickText n x c) cs ->
    exists text, x = replace "  " "&nbsp;&nbsp;" text.
Proof.
  induction evs as [|ev evs IH]; intros nc nc' cs r n x c; cbn [log2html_loop].
  - intros H. injection H as <- _ _. contradiction.
  - destruct (on_event ev nc) as [[cs1 nc1] [e|]] eqn:E.
    + intros H. injection H as <- _ _. exact (on_event_text _ _ _ _ _ _ _ _ E).
    + destruct (log2html_loop evs nc1) as [[cs2 nc2] r2] eqn:L.
      intros H. injection H as <- _ _. intros Hin.
      apply in_app_or in Hin as [Hin|Hin];
        [exact (on_event_text _ _ _ _ _ _ _ _ E Hin)
        | exact (IH _ _ _ _ _ _ _ L Hin)].
Qed.

(** X16. The text of a comment that reaches the formatter never holds two
    spaces in a row: every pair has been replaced by two non-breaking
    spaces. *)
Theorem comment_text_has_no_double_space (infile : list string)
    (title nick text colour : string) :
  In (CallNickText nick text colour) (log2html infile title).1 ->
  contains "  " text = false.
Proof.
  intros H. apply log2html_calls in H as [H|[H|H]]; try discriminate.
  destruct (log2html_loop _ _) as [[cs nc] r] eqn:L. cbn [fst] in H.
  destruct (loop_text _ _ _ _ _ _ _ _ L H) as [t ->].
  exact (replace_leaves_no_pair _ t (le_n _)).
Qed.
End SpacesInConversion.

(** ** More on the scheduler *)

Lemma newfile_cached (n : nat) (w : world) (b : bool) :
  cache_of w n = Some b -> newfile n w = (Ok b, w).
Proof.
  unfold cache_of, newfile, obj. intros H.
  destruct (objs w !! n) as [lf|] eqn:E; [|discriminate].
  cbv [mbind run_bind]. rewrite E, H. reflexivity.
Qed.

(** X17. [newfile] answers once: after a first answer, a later call gives
    the same answer and changes nothing, whatever has become of the
    files. *)
Theorem newfile_answer_is_kept (n : nat) (w w1 : world) (b : bool)
    (f : files) :
  newfile n w = (Ok b, w1) ->
  newfile n (set_fs f w1) = (Ok b, set_fs f w1).
Proof.
  intros H. apply newfile_inv in H as (_ & _ & H).
  destruct (H b eq_refl) as [Hc _].
  apply newfile_cached. exact Hc.
Qed.

Section MoreSchedulerFacts.
Context (strftime : date -> string -> string).
Context (irclog2html_main : list string -> Z -> files -> pyresult unit * files).

(** X18. [generate] remembers that a file was new: if the object held no
    answer and the artifact was missing when [generate] was called, then
    after the call, whether the renderer made the artifact or failed,
    [newfile] answers true. *)
Theorem generate_keeps_newness (n : nat) (style prefix : string)
    (prev next : option nat) (extra : list string) (w w' : world)
    (r : pyresult unit) (lf : LogFile.t) :
  objs w !! n = Some lf ->
  LogFile.newfile_cache lf = None ->
  artifact_missing (fs w) lf ->
  generate strftime irclog2html_main n style prefix prev next extra w = (r, w') ->
  newfile n w' = (Ok true, w').
Proof.
  intros Hl Hc Hm Hg.
  destruct (newfile n w) as [r1 w1] eqn:N.
  assert (Hr1 : r1 = Ok true).
  { unfold newfile, obj in N. cbv [mbind run_bind] in N. rewrite Hl, Hc in N.
    cbv [get_world modify mret run_ret] in N.
    unfold artifact_missing in Hm. unfold path_exists in N. rewrite Hm in N.
    rewrite bool_decide_eq_false_2 in N by (intros [? ?]; discriminate).
    injection N as <- _. reflexivity. }
  subst r1.
  pose proof (newfile_inv _ _ _ _ N) as (_ & _ & Hb).
  destruct (Hb true eq_refl) as [C1 _].
  assert (Hg1 : generate strftime irclog2html_main n style prefix prev next
                         extra w1 = (r, w')).
  { unfold generate in *. unfold mbind at 1, run_bind at 1 in Hg.
    rewrite N in Hg. unfold mbind at 1, run_bind at 1.
    rewrite (newfile_cached _ _ _ C1). exact Hg. }
  apply generate_inv in Hg1.
  apply newfile_cached. eapply caches_kept_cache; eauto.
Qed.

Lemma process_loop_forced (o : options) (ea : list string) (len : nat)
    (ns : list nat) :
  opt_force o = true ->
  forall w gs w',
    process_loop strftime irclog2html_main o ea len ns w = (Ok gs, w') ->
    gs = ns.
Proof.
  intros Hf. induction ns as [|n ns IH]; intros w gs w' H; cbn [process_loop] in H.
  - injection H as <- _. reflexivity.
  - apply run_bind_ok in H as (g & w1 & H1 & H).
    apply run_bind_ok in H as (gs' & w2 & H2 & H).
    injection H as <- _. rewrite (IH _ _ _ H2).
    unfold process_one, needs_generating in H1. rewrite Hf in H1.
    cbv [mbind run_bind mret run_ret] in H1.
    destruct (generate _ _ _ _ _ _ _ _ _) as [[[]|e] w3]; [|discriminate].
    injection H1 as <- _. reflexivity.
Qed.
End MoreSchedulerFacts.

Section MoreProcessFacts.
Context (pick_output_filename : string -> string).
Context (strftime : date -> string -> string).
Context (irclog2html_main : list string -> Z -> files -> pyresult unit * files).
Context (glob_glob : string -> list string).
Context (has_symlink : bool).
Context (symlink_error : string -> string -> option string).
Context (open_write : string -> pyresult unit).
Context (write_index :
  string -> list LogFile.t -> bool -> option string -> pyresult unit).
Context (shutil_copy : string -> string -> pyresult unit).
Context (CSS_FILE : string).

Local Abbreviation find :=
  (find_log_files pick_output_filename strftime glob_glob).
Local Abbreviation loop := (process_loop strftime irclog2html_main).
Local Abbreviation run :=
  (process pick_output_filename strftime irclog2html_main glob_glob
           has_symlink symlink_error open_write write_index shutil_copy
           CSS_FILE).
Local Abbreviation init := (LogFile_init pick_output_filename strftime).

(** What [LogFile.__init__] builds. *)
Lemma LogFile_init_inv (f : string) (lf : LogFile.t) :
  init f = Ok lf ->
  LogFile.filename lf = f
  /\ LogFile.link lf = pick_output_filename (basename f)
  /\ LogFile.newfile_cache lf = None
  /\ (1 <= year (LogFile.date_ lf) <= 9999)%Z
  /\ (1 <= month (LogFile.date_ lf) <= 12)%Z
  /\ (1 <= day (LogFile.date_ lf)
      <= days_in_month (year (LogFile.date_ lf)) (month (LogFile.date_ lf)))%Z
  /\ (1900 <= year (LogFile.date_ lf))%Z
  /\ LogFile.title lf = strftime (LogFile.date_ lf) "%Y-%m-%d (%A)".
Proof.
  unfold LogFile_init.
  destruct (Re.re_match DATE_REGEXP (basename f)) as [m|]; [|discriminate].
  cbv [mbind pyresult_bind]. unfold make_date.
  set (y := int_of_digits _). set (mo := int_of_digits _).
  set (d := int_of_digits _).
  destruct ((1 <=? y)%Z && (y <=? 9999)%Z) eqn:Ey; [|discriminate].
  destruct ((1 <=? mo)%Z && (mo <=? 12)%Z) eqn:Em; [|discriminate].
  destruct ((1 <=? d)%Z && (d <=? days_in_month y mo)%Z) eqn:Ed; [|discriminate].
  cbn [negb]. unfold date_strftime. cbn [year].
  destruct (y <? 1900)%Z eqn:Ec; [discriminate|].
  intros H. injection H as <-. cbn.
  apply andb_true_iff in Ey as [?%Z.leb_le ?%Z.leb_le].
  apply andb_true_iff in Em as [?%Z.leb_le ?%Z.leb_le].
  apply andb_true_iff in Ed as [?%Z.leb_le ?%Z.leb_le].
  apply Z.ltb_ge in Ec.
  repeat split; assumption.
Qed.

Lemma make_logfiles_names (names : list string) (l : list LogFile.t) :
  make_logfiles pick_output_filename strftime names = Ok l ->
  map LogFile.filename l = names.
Proof.
  revert l. induction names as [|a names IH]; intros l H; cbn [make_logfiles] in H.
  - injection H as <-. reflexivity.
  - cbv [mbind pyresult_bind] in H.
    destruct (init a) as [lf|] eqn:Ea; [|discriminate].
    destruct (make_logfiles _ _ names) as [rest|]; [|discriminate].
    injection H as <-. cbn [map].
    rewrite (IH rest eq_refl).
    destruct (LogFile_init_inv _ _ Ea) as [-> _]. reflexivity.
Qed.

Lemma insert_sorted_perm {A} (key : A -> string) (x : A) (l : list A) :
  insert_sorted key x l ≡ₚ x :: l.
Proof.
  induction l as [|y l IH]; cbn [insert_sorted]; [reflexivity|].
  destruct (String.leb (key x) (key y)); [reflexivity|].
  rewrite IH. apply Permutation_swap.
Qed.

Lemma sorted_perm {A} (key : A -> string) (l : list A) : sorted key l ≡ₚ l.
Proof.
  induction l as [|x l IH]; [reflexivity|].
  unfold sorted. cbn [fold_right]. fold (sorted key l).
  rewrite insert_sorted_perm, IH. reflexivity.
Qed.

(** Each element is at most its successor. *)
Definition ascending {A} (key : A -> string) (l : list A) : Prop :=
  forall i a b, l !! i = Some a -> l !! S i = Some b ->
                String.leb (key a) (key b) = true.

Lemma ascending_cons {A} (key : A -> string) (x : A) (l : list A) :
  (forall y, head l = Some y -> String.leb (key x) (key y) = true) ->
  ascending key l -> ascending key (x :: l).
Proof.
  intros Hh Hl [|i] a b Ha Hb; cbn in Ha, Hb.
  - injection Ha as <-. apply Hh. destruct l; [discriminate|]. cbn in *. congruence.
  - exact (Hl i a b Ha Hb).
Qed.

Lemma ascending_tail {A} (key : A -> string) (x : A) (l : list A) :
  ascending key (x :: l) -> ascending key l.
Proof. intros H i a b Ha Hb. exact (H (S i) a b Ha Hb). Qed.

Lemma insert_sorted_ascending {A} (key : A -> string) (x : A) (l : list A) :
  ascending key l -> ascending key (insert_sorted key x l).
Proof.
  induction l as [|y l IH]; intros Hl; cbn [insert_sorted].
  - intros [|i] a b Ha Hb; cbn in Hb; discriminate.
  - destruct (String.leb (key x) (key y)) eqn:E.
    + apply ascending_cons; [|exact Hl].
      intros y' Hy. cbn in Hy. injection Hy as <-. exact E.
    + apply ascending_cons; [|exact (IH (ascending_tail _ _ _ Hl))].
      intros z Hz. destruct l as [|y2 l]; cbn [insert_sorted] in Hz.
      * cbn in Hz. injection Hz as <-.
        destruct (String.leb_total (key x) (key y)); congruence.
      * destruct (String.leb (key x) (key y2)); cbn in Hz; injection Hz as <-.
        -- destruct (String.leb_total (key x) (key y)); congruence.
        -- exact (Hl 0%nat y y2 eq_refl eq_refl).
Qed.

Lemma sorted_ascending {A} (key : A -> string) (l : list A) :
  ascending key (sorted key l).
Proof.
  induction l as [|x l IH].
  - intros i a b Ha; discriminate.
  - unfold sorted. cbn [fold_right]. fold (sorted key l).
    apply insert_sorted_ascending. exact IH.
Qed.

(** X20. [find_log_files] returns one object for each name the two globs
    give, in ascending order of file name; each object holds no answer about
    newness, links to the output name of its base name, and has a month and
    a day of the calendar. *)
Theorem find_log_files_sorted (dir pattern : string) (found : list LogFile.t) :
  find dir pattern = Ok found ->
  map LogFile.filename found
    ≡ₚ glob_glob (path_join dir pattern)
       ++ glob_glob (path_join dir pattern +:+ ".gz")
  /\ ascending LogFile.filename found
  /\ Forall (fun lf =>
       LogFile.newfile_cache lf = None
       /\ LogFile.link lf = pick_output_filename (basename (LogFile.filename lf))
       /\ (1 <= month (LogFile.date_ lf) <= 12)%Z
       /\ (1 <= day (LogFile.date_ lf)
           <= days_in_month (year (LogFile.date_ lf))
                            (month (LogFile.date_ lf)))%Z) found.
Proof.
  unfold find_log_files. cbv [mbind pyresult_bind].
  destruct (make_logfiles _ _ _) as [l|] eqn:E; [|discriminate].
  intros H. injection H as <-.
  split; [|split].
  - rewrite <- (make_logfiles_names _ _ E).
    apply Permutation_map, sorted_perm.
  - apply sorted_ascending.
  - apply sorted_Forall. clear -E. revert l E.
    induction (_ ++ _) as [|a names IH]; intros l E; cbn [make_logfiles] in E.
    + injection E as <-. constructor.
    + cbv [mbind pyresult_bind] in E.
      destruct (init a) as [lf|] eqn:Ea; [|discriminate].
      destruct (make_logfiles _ _ names) as [rest|]; [|discriminate].
      injection E as <-. constructor; [|apply IH; reflexivity].
      destruct (LogFile_init_inv _ _ Ea) as (-> & Hl & Hc & _ & Hm & Hd & _).
      auto.
Qed.
End MoreProcessFacts.

(** ** What a run does to the outside *)

(** What a step leaves alone: the files, the clock and the effects. *)
Definition outside_kept (w w' : world) : Prop :=
  fs w' = fs w /\ clock w' = clock w /\ trace w' = trace w
  /\ length (objs w') = length (objs w).

Lemma outside_kept_refl w : outside_kept w w.
Proof. repeat split. Qed.

Lemma outside_kept_trans w1 w2 w3 :
  outside_kept w1 w2 -> outside_kept w2 w3 -> outside_kept w1 w3.
Proof. intros (?&?&?&?) (?&?&?&?). repeat split; congruence. Qed.

Lemma newfile_outside n w r w' :
  newfile n w = (r, w') -> outside_kept w w'.
Proof.
  unfold newfile, obj. cbv [mbind run_bind get_world modify mret run_ret].
  destruct (objs w !! n) as [lf|] eqn:E.
  - destruct (LogFile.newfile_cache lf); intros H; injection H as <- <-;
      repeat split. cbn. apply length_insert.
  - intros H; injection H as <- <-. repeat split.
Qed.

Lemma and_newfile_outside x w r w' :
  and_newfile x w = (r, w') -> outside_kept w w'.
Proof.
  destruct x as [i|]; cbn [and_newfile].
  - apply newfile_outside.
  - intros H; injection H as <- <-. apply outside_kept_refl.
Qed.

Lemma needs_generating_outside force n prev next w r w' :
  needs_generating force n prev next w = (r, w') -> outside_kept w w'.
Proof.
  unfold needs_generating. destruct force.
  { intros H; injection H as <- <-. apply outside_kept_refl. }
  intros H.
  apply run_bind_inv in H as [(u & w1 & Hu & H)|(e & Hu & ->)];
    apply uptodate_inv in Hu as [-> _]; [|apply outside_kept_refl].
  destruct u; cbn [negb] in H.
  2:{ injection H as <- <-. apply outside_kept_refl. }
  apply run_bind_inv in H as [(p & w1 & Hp & H)|(e & Hp & ->)];
    apply and_newfile_outside in Hp; [|exact Hp].
  destruct p.
  - injection H as <- <-. exact Hp.
  - apply and_newfile_outside in H. eapply outside_kept_trans; eauto.
Qed.

Section EffectFacts.
Context (strftime : date -> string -> string).
Context (irclog2html_main : list string -> Z -> files -> pyresult unit * files).

(** [generate] calls the renderer once, on the file at hand, unless it
    fails before the call. *)
Lemma generate_effect n style prefix prev next extra w r w' :
  generate strftime irclog2html_main n style prefix prev next extra w = (r, w') ->
  (exists argv lf,
      trace w' = trace w ++ [EGenerate argv]
      /\ objs w !! n = Some lf
      /\ List.last argv EmptyString = LogFile.filename lf
      /\ length (objs w') = length (objs w))
  \/ (outside_kept w w' /\ exists e, r = Raise e).
Proof.
  intros H. apply generate_shape in H as (rn & w1 & Hn & H).
  pose proof (newfile_outside _ _ _ _ Hn) as O1.
  pose proof (newfile_inv _ _ _ _ Hn) as (K1 & _).
  destruct H as [[-> He]|(argv & self & Ho & Hlast & H)]; [right; auto|].
  assert (Hself : exists lf, objs w !! n = Some lf
                             /\ LogFile.filename self = LogFile.filename lf).
  { destruct (objs w !! n) as [lf|] eqn:E.
    - destruct (K1 _ _ E) as (lf' & E' & Hname & _).
      exists lf. split; [reflexivity|]. congruence.
    - exfalso. destruct O1 as (_ & _ & _ & Hlen).
      apply lookup_lt_Some in Ho. apply lookup_ge_None in E. lia. }
  destruct Hself as (lf & Hlf & Hname).
  left. unfold call_main in H. destruct (irclog2html_main _ _ _) as [r0 f].
  injection H as <- <-.
  destruct O1 as (_ & _ & Ht & Hlen).
  exists argv, lf. cbn [trace emit set_fs objs]. rewrite Ht.
  split; [reflexivity|]. split; [exact Hlf|]. split; [|exact Hlen].
  congruence.
Qed.

Lemma process_one_effect o ea len n w g w' :
  process_one strftime irclog2html_main o ea len n w = (Ok g, w') ->
  length (objs w') = length (objs w)
  /\ if g then exists argv lf,
                 trace w' = trace w ++ [EGenerate argv]
                 /\ objs w !! n = Some lf
                 /\ List.last argv EmptyString = LogFile.filename lf
     else outside_kept w w'.
Proof.
  unfold process_one. intros H.
  apply run_bind_ok in H as (g0 & w1 & Hg & H).
  pose proof (needs_generating_outside _ _ _ _ _ _ _ Hg) as O1.
  assert (K1 : caches_kept w w1).
  { apply needs_generating_checked in Hg. tauto. }
  destruct g0.
  - apply run_bind_ok in H as ([] & w2 & Hgen & H). injection H as <- <-.
    apply generate_effect in Hgen
      as [(argv & lf & Ht & Hl & Hlast & Hlen)|(_ & e & He)]; [|discriminate].
    destruct O1 as (_ & _ & Ht1 & Hlen1).
    split; [congruence|].
    destruct (objs w !! n) as [lf0|] eqn:E.
    + destruct (K1 _ _ E) as (lf' & E' & Hname & _).
      exists argv, lf0. split; [congruence|]. split; [reflexivity|]. congruence.
    + exfalso. apply lookup_lt_Some in Hl. apply lookup_ge_None in E. lia.
  - injection H as <- <-. split; [apply O1 | exact O1].
Qed.

(** The loop calls the renderer once for each position it reports, in
    order, each time on the log file at that position; it has no other
    effect. *)
Lemma process_loop_effects o ea len ns :
  forall w gs w',
    process_loop strftime irclog2html_main o ea len ns w = (Ok gs, w') ->
    exists argvs,
      trace w' = trace w ++ map EGenerate argvs
      /\ Forall2 (fun n argv =>
                    exists lf, objs w !! n = Some lf
                      /\ List.last argv EmptyString = LogFile.filename lf)
                 gs argvs.
Proof.
  induction ns as [|n ns IH]; intros w gs w' H; cbn [process_loop] in H.
  - injection H as <- <-. exists []. rewrite app_nil_r. split; [reflexivity|].
    constructor.
  - apply run_bind_ok in H as (g & w1 & H1 & H).
    apply run_bind_ok in H as (gs' & w2 & H2 & H). injection H as <- <-.
    pose proof (process_one_inv _ _ _ _ _ _ _ _ _ H1) as [K1 _].
    apply process_one_effect in H1 as [Hlen H1].
    destruct (IH _ _ _ H2) as (argvs & Ht & Hall).
    assert (Hall' : Forall2 (fun n argv =>
                       exists lf, objs w !! n = Some lf
                         /\ List.last argv EmptyString = LogFile.filename lf)
                     gs' argvs).
    { eapply Forall2_impl; [exact Hall|]. intros k argv (lf1 & Hk & Hlast).
      cbv beta.
      destruct (objs w !! k) as [lf|] eqn:E.
      - destruct (K1 _ _ E) as (lf' & E' & Hname & _).
        exists lf. split; [reflexivity|]. congruence.
      - exfalso. apply lookup_lt_Some in Hk. apply lookup_ge_None in E. lia. }
    destruct g.
    + destruct H1 as (argv & lf & Ht1 & Hl & Hlast).
      exists (argv :: argvs). cbn [map]. rewrite Ht, Ht1, <- app_assoc.
      split; [reflexivity|]. constructor; [eauto | exact Hall'].
    + destruct H1 as (_ & _ & Ht1 & _).
      exists argvs. rewrite Ht, Ht1. split; [reflexivity | exact Hall'].
Qed.
End EffectFacts.

(** The world after the effects [es], in order. *)
Definition emits (es : list effect) (w : world) : world :=
  fold_left (fun w e => emit e w) es w.

Section RunFacts.
Context (pick_output_filename : string -> string).
Context (strftime : date -> string -> string).
Context (irclog2html_main : list string -> Z -> files -> pyresult unit * files).
Context (glob_glob : string -> list string).
Context (has_symlink : bool).
Context (symlink_error : string -> string -> option string).
Context (open_write : string -> pyresult unit).
Context (write_index :
  string -> list LogFile.t -> bool -> option string -> pyresult unit).
Context (shutil_copy : string -> string -> pyresult unit).
Context (CSS_FILE : string).

Local Abbreviation find :=
  (find_log_files pick_output_filename strftime glob_glob).
Local Abbreviation loop := (process_loop strftime irclog2html_main).
Local Abbreviation run :=
  (process pick_output_filename strftime irclog2html_main glob_glob
           has_symlink symlink_error open_write write_index shutil_copy
           CSS_FILE).
Local Abbreviation init := (LogFile_init pick_output_filename strftime).

(** The effects of [move_symlink] on the shortcut to the newest log. *)
Definition latest_effects (dir : string) (logfiles : list LogFile.t)
    : list effect :=
  match logfiles with
  | newest :: _ =>
      if has_symlink
      then [EUnlink (path_join dir "latest.log.html");
            ESymlink (LogFile.link newest) (path_join dir "latest.log.html")]
      else []
  | [] => []
  end.

(** The error of [os.symlink] in [move_symlink], when the shortcut is made
    and cannot be. *)
Definition latest_error (dir : string) (logfiles : list LogFile.t)
    : option string :=
  match logfiles with
  | newest :: _ =>
      if has_symlink
      then symlink_error (LogFile.link newest)
                         (path_join dir "latest.log.html")
      else None
  | [] => None
  end.

(** [latest_log_link], as [process] hands it to [write_index]. *)
Definition latest_link (logfiles : list LogFile.t) : option string :=
  match logfiles with
  | _ :: _ => if has_symlink then Some "latest.log.html" else None
  | [] => None
  end.

(** The end of [process], from the opening of the index on, in a world
    [w2]. *)
Definition write_out (dir : string) (o : options)
    (logfiles : list LogFile.t) (gs : list nat) (w2 : world)
    : pyresult (list nat) * world :=
  let index := path_join dir "index.html" in
  let css := path_join dir "irclog.css" in
  match open_write index with
  | Raise (IOError text) =>
      (Raise (Error ("cannot open " +:+ index +:+ " for writing: "
                     +:+ text)), w2)
  | Raise e => (Raise e, w2)
  | Ok _ =>
      let w3 := emit (EWriteIndex index (map LogFile.link logfiles))
                     (set_fs (<[index := clock w2]> (fs w2)) w2) in
      match write_index (opt_title o) logfiles (opt_searchbox o)
                        (latest_link logfiles) with
      | Raise e => (Raise e, w3)
      | Ok _ =>
          if negb (path_exists (fs w3) css) && path_exists (fs w3) CSS_FILE
          then
            match shutil_copy CSS_FILE css with
            | Raise e => (Raise e, emit (ECopy CSS_FILE css) w3)
            | Ok _ =>
                (Ok gs, emit (ECopy CSS_FILE css)
                             (set_fs (<[css := clock w3]> (fs w3)) w3))
            end
          else (Ok gs, w3)
      end
  end.

(** [process] from the loop on. *)
Lemma process_unfold (dir : string) (o : options) (w : world)
    (found : list LogFile.t) :
  find dir (opt_pattern o) = Ok found ->
  run dir o w
  = match loop o (extra_args_of o) (length (rev found))
               (seq 0 (length (rev found))) (set_objs (rev found) w) with
    | (Raise e, wl) => (Raise e, wl)
    | (Ok gs, wl) =>
        let w2 := emits (latest_effects dir (rev found)) wl in
        match latest_error dir (rev found) with
        | Some text => (Raise (OSError text), w2)
        | None => write_out dir o (rev found) gs w2
        end
    end.
Proof.
  intros Hf. unfold process, lift. unfold mbind at 1, run_bind at 1.
  rewrite Hf. cbv [mbind run_bind modify].
  change (if opt_dircproxy o
          then (if opt_searchbox o then [] ++ ["-S"] else []) ++ ["--dircproxy"]
          else if opt_searchbox o then [] ++ ["-S"] else [])
    with (extra_args_of o).
  destruct (process_loop _ _ _ _ _ _ _) as [[gs|e] wl]; [|reflexivity].
  cbv zeta. unfold write_out, latest_effects, latest_error, latest_link.
  destruct (rev found) as [|newest rest]; [|destruct has_symlink];
    cbv [move_symlink mbind run_bind modify mret run_ret raise get_world
         emits fold_left];
    try (destruct (symlink_error _ _); [reflexivity|]);
    (destruct (open_write _) as [[]|[]]; try reflexivity);
    cbv [lift];
    (destruct (write_index _ _ _ _) as [[]|]; [|reflexivity]);
    match goal with
    | |- context [negb ?a && ?b] => destruct (negb a && b)
    end; try reflexivity;
    destruct (shutil_copy _ _) as [[]|]; reflexivity.
Qed.

Lemma emits_outside (es : list effect) (w : world) :
  fs (emits es w) = fs w /\ objs (emits es w) = objs w
  /\ clock (emits es w) = clock w /\ trace (emits es w) = trace w ++ es.
Proof.
  revert w. induction es as [|e es IH]; intros w.
  - cbn. rewrite app_nil_r. auto.
  - change (emits (e :: es) w) with (emits es (emit e w)).
    destruct (IH (emit e w)) as (-> & -> & -> & ->). cbn.
    rewrite <- app_assoc. auto.
Qed.

(** The end of [process], when it ends well: the index is written, then
    the style sheet is copied if the directory has none. *)
Lemma write_out_ok (dir : string) (o : options) (logfiles : list LogFile.t)
    (gs gs' : list nat) (w2 w1 : world) :
  write_out dir o logfiles gs w2 = (Ok gs', w1) ->
  gs' = gs
  /\ exists css,
       trace w1
       = trace w2 ++ [EWriteIndex (path_join dir "index.html")
                                  (map LogFile.link logfiles)] ++ css
       /\ (css = [] \/ css = [ECopy CSS_FILE (path_join dir "irclog.css")]).
Proof.
  unfold write_out.
  destruct (open_write _) as [[]|[]]; try discriminate.
  destruct (write_index _ _ _ _) as [[]|]; [|discriminate].
  cbv zeta. destruct (negb _ && _).
  - destruct (shutil_copy _ _) as [[]|]; [|discriminate].
    intros H; injection H as <- <-. split; [reflexivity|].
    exists [ECopy CSS_FILE (path_join dir "irclog.css")].
    cbn [trace emit set_fs]. rewrite <- app_assoc. auto.
  - intros H; injection H as <- <-. split; [reflexivity|].
    exists []. cbn [trace emit set_fs]. auto.
Qed.

(** The calls of a run that ends well. *)
Lemma run_trace (dir : string) (o : options) (w w1 : world)
    (gs : list nat) :
  run dir o w = (Ok gs, w1) ->
  exists found argvs css,
    find dir (opt_pattern o) = Ok found
    /\ trace w1
       = trace w ++ map EGenerate argvs
         ++ latest_effects dir (rev found)
         ++ [EWriteIndex (path_join dir "index.html")
                         (map LogFile.link (rev found))]
         ++ css
    /\ Forall2 (fun n argv =>
                  exists lf, rev found !! n = Some lf
                    /\ List.last argv EmptyString = LogFile.filename lf)
               gs argvs
    /\ (css = [] \/ css = [ECopy CSS_FILE (path_join dir "irclog.css")]).
Proof.
  intros H.
  pose proof (process_ok_inv _ _ _ _ _ _ _ _ _ _ _ _ _ _ _ H)
    as (found & wl0 & Hf & _).
  rewrite (process_unfold dir o w found Hf) in H.
  destruct (process_loop _ _ _ _ _ _ _) as [[gs0|e] wl] eqn:L; [|discriminate].
  apply process_loop_effects in L as (argvs & Ht & Hall).
  cbv zeta in H.
  destruct (emits_outside (latest_effects dir (rev found)) wl)
    as (Efs & Eobjs & Eclock & Etrace).
  destruct (latest_error dir (rev found)); [discriminate|].
  apply write_out_ok in H as (-> & css & Hw & Hcss).
  exists found, argvs, css. split; [exact Hf|].
  split; [|split; [exact Hall | exact Hcss]].
  rewrite Hw, Etrace, Ht. cbn [trace set_objs].
  rewrite <- !app_assoc. reflexivity.
Qed.

(** X21. What a run that ends well has done: it called the renderer once for
    each position it reports, each time with the log file of that position
    as the last argument, then moved the shortcut to the newest log, wrote
    the index of all the logs, newest first, and copied the style sheet if
    the directory had none. *)
Theorem run_effects (dir : string) (o : options) (w w1 : world)
    (gs : list nat) :
  run dir o w = (Ok gs, w1) ->
  exists found argvs css,
    find dir (opt_pattern o) = Ok found
    /\ trace w1
       = trace w ++ map EGenerate argvs
         ++ latest_effects dir (rev found)
         ++ [EWriteIndex (path_join dir "index.html")
                         (map LogFile.link (rev found))]
         ++ css
    /\ Forall2 (fun n argv =>
                  exists lf, rev found !! n = Some lf
                    /\ List.last argv EmptyString = LogFile.filename lf)
               gs argvs
    /\ (css = [] \/ css = [ECopy CSS_FILE (path_join dir "irclog.css")]).
Proof. exact (run_trace dir o w w1 gs). Qed.

Lemma Forall2_seq_lookup {A B C} (f : B -> C) (g : A -> C) (l2 : list A) :
  forall (l1 : list A) (bs : list B),
    Forall2 (fun n b => exists a, (l1 ++ l2) !! n = Some a /\ f b = g a)
            (seq (length l1) (length l2)) bs ->
    map f bs = map g l2.
Proof.
  induction l2 as [|a l2 IH]; intros l1 bs H; cbn [seq length] in H.
  - inversion H. reflexivity.
  - inversion H as [|n b ns bs' (a' & Ha & Hfb) Hrest]; subst.
    rewrite lookup_app_r in Ha by lia.
    rewrite Nat.sub_diag in Ha. injection Ha as <-.
    cbn [map]. rewrite Hfb. f_equal.
    apply (IH (l1 ++ [a])).
    rewrite length_app, <- app_assoc. cbn [length app].
    replace (length l1 + 1)%nat with (S (length l1)) by lia. exact Hrest.
Qed.

(** X19. With the force flag a run that ends well has called the renderer
    exactly once for every log file found, newest first, each time with the
    file name of the log as the last argument; it reports every position,
    and what it does afterwards calls no renderer. *)
Theorem force_generates_all (dir : string) (o : options) (w w1 : world)
    (gs : list nat) :
  opt_force o = true ->
  run dir o w = (Ok gs, w1) ->
  exists found argvs rest,
    find dir (opt_pattern o) = Ok found
    /\ gs = seq 0 (length found)
    /\ trace w1 = trace w ++ map EGenerate argvs ++ rest
    /\ map (fun argv => List.last argv EmptyString) argvs
       = map LogFile.filename (rev found)
    /\ (forall argv, ~ In (EGenerate argv) rest).
Proof.
  intros Hf H.
  pose proof (process_ok_inv _ _ _ _ _ _ _ _ _ _ _ _ _ _ _ H)
    as (found0 & w_loop & Hfind0 & Hl & _).
  rewrite length_rev in Hl.
  apply (process_loop_forced _ _ _ _ _ _ Hf) in Hl.
  destruct (run_trace _ _ _ _ _ H) as (found & argvs & css & Hfind & Ht & Hall & Hcss).
  assert (found0 = found) as -> by congruence.
  exists found, argvs,
    (latest_effects dir (rev found)
     ++ [EWriteIndex (path_join dir "index.html")
                     (map LogFile.link (rev found))] ++ css).
  split; [exact Hfind|]. split; [exact Hl|]. split; [exact Ht|]. split.
  - apply (Forall2_seq_lookup _ _ (rev found) []).
    cbn [length app]. rewrite length_rev, <- Hl. exact Hall.
  - intros argv Hin. rewrite !in_app_iff in Hin.
    destruct Hin as [Hin|[[Hin|[]]|Hin]]; [|discriminate|].
    + unfold latest_effects in Hin.
      destruct (rev found); [|destruct has_symlink]; cbn in Hin;
        intuition discriminate.
    + destruct Hcss as [->| ->]; cbn in Hin; intuition discriminate.
Qed.

(** X22. When the shortcut is in place and the index cannot be opened, the
    run fails with the application error, whose message ends with the text
    of the IOError; this happens after the loop and the shortcut: what the
    loop generated stays generated. *)
Theorem index_unwritable (dir : string) (o : options) (w wl : world)
    (found : list LogFile.t) (gs : list nat) (text : string) :
  find dir (opt_pattern o) = Ok found ->
  loop o (extra_args_of o) (length found) (seq 0 (length found))
       (set_objs (rev found) w) = (Ok gs, wl) ->
  latest_error dir (rev found) = None ->
  open_write (path_join dir "index.html") = Raise (IOError text) ->
  exists w1,
    run dir o w
    = (Raise (Error ("cannot open " +:+ path_join dir "index.html"
                     +:+ " for writing: " +:+ text)), w1)
    /\ fs w1 = fs wl
    /\ trace w1 = trace wl ++ latest_effects dir (rev found).
Proof.
  intros Hf Hl Hs Hw. rewrite (process_unfold dir o w found Hf).
  rewrite length_rev, Hl. cbv zeta. rewrite Hs. unfold write_out. rewrite Hw.
  destruct (emits_outside (latest_effects dir (rev found)) wl)
    as (Efs & _ & _ & Etrace).
  eexists. split; [reflexivity|]. auto.
Qed.

(** X30. When [os.symlink] fails, its OSError leaves [process], and [main],
    which catches the application error only, lets it pass: the loop has
    run, and no index is written. *)
Theorem shortcut_failure_escapes (progname dir : string) (o : options)
    (w wl : world) (found : list LogFile.t) (gs : list nat) (text : string) :
  find dir (opt_pattern o) = Ok found ->
  loop o (extra_args_of o) (length found) (seq 0 (length found))
       (set_objs (rev found) w) = (Ok gs, wl) ->
  latest_error dir (rev found) = Some text ->
  exists w1,
    run dir o w = (Raise (OSError text), w1)
    /\ main_try progname (run dir o) w = (Raise (OSError text), w1)
    /\ fs w1 = fs wl
    /\ trace w1 = trace wl ++ latest_effects dir (rev found)
    /\ (forall path links, ~ In (EWriteIndex path links)
                               (latest_effects dir (rev found))).
Proof.
  intros Hf Hl Hs.
  assert (Hr : run dir o w
               = (Raise (OSError text),
                  emits (latest_effects dir (rev found)) wl)).
  { rewrite (process_unfold dir o w found Hf).
    rewrite length_rev, Hl. cbv zeta. rewrite Hs. reflexivity. }
  destruct (emits_outside (latest_effects dir (rev found)) wl)
    as (Efs & _ & _ & Etrace).
  eexists. split; [exact Hr|]. split; [unfold main_try; rewrite Hr; reflexivity|].
  split; [exact Efs|]. split; [exact Etrace|].
  intros path links. unfold latest_effects.
  destruct (rev found); [|destruct has_symlink]; cbn; intuition discriminate.
Qed.

(** X23. A directory with a name that lacks the date, and no name that
    [LogFile.__init__] refuses with ValueError: [main] exits with the one-line message that names
    such a file, and nothing has been done. *)
Theorem main_exits_on_dateless_name (progname dir : string) (o : options)
    (w : world) :
  (exists f, In f (discovered glob_glob dir o)
             /\ Re.re_match DATE_REGEXP (basename f) = None) ->
  (forall g msg, In g (discovered glob_glob dir o) ->
                 init g <> Raise (ValueError msg)) ->
  exists f,
    In f (discovered glob_glob dir o)
    /\ Re.re_match DATE_REGEXP (basename f) = None
    /\ main_try progname (run dir o) w
       = (Raise (SystemExit
                   (progname +:+ ": "
                    +:+ "File name does not contain a YYYY-MM-DD date: "
                    +:+ f)), w).
Proof.
  intros H Hv.
  destruct (dateless_name_aborts pick_output_filename strftime
              irclog2html_main glob_glob has_symlink symlink_error
              open_write write_index shutil_copy CSS_FILE dir o w H)
    as (e & He & [(f & Hin & Hm & ->)|(g & msg & Hin & Hg & _)]).
  - exists f. split; [exact Hin|]. split; [exact Hm|].
    unfold main_try. rewrite He. reflexivity.
  - exfalso. exact (Hv g msg Hin Hg).
Qed.

(** The file named after the log, with [.html] added, exists and is
    strictly newer than the log. *)
Definition rendered (f : files) (lf : LogFile.t) : Prop :=
  exists h l, f !! (LogFile.filename lf +:+ ".html") = Some h
    /\ f !! LogFile.filename lf = Some l /\ (l < h)%Z.

(** Every object of the run is rendered and none is known to be new. *)
Definition settled (w : world) : Prop :=
  forall k lf, objs w !! k = Some lf ->
    rendered (fs w) lf /\ LogFile.newfile_cache lf <> Some true.

Lemma uptodate_settled (n : nat) (w : world) :
  settled w -> (n < length (objs w))%nat -> uptodate n w = (Ok true, w).
Proof.
  intros Hs Hn. destruct (lookup_lt_is_Some_2 _ _ Hn) as [lf Hl].
  destruct (Hs _ _ Hl) as [(h & l & Hh & Hlog & Hlt) _].
  unfold uptodate, obj, stat_mtime.
  cbv [mbind run_bind get_world lift mret run_ret].
  rewrite Hl, Hlog, Hh. apply Z.ltb_lt in Hlt. rewrite Hlt. reflexivity.
Qed.

Lemma newfile_settled (n : nat) (w : world) :
  settled w -> (n < length (objs w))%nat ->
  exists w', newfile n w = (Ok false, w')
             /\ settled w' /\ outside_kept w w'.
Proof.
  intros Hs Hn. destruct (lookup_lt_is_Some_2 _ _ Hn) as [lf Hl].
  destruct (Hs _ _ Hl) as [(h & l & Hh & Hlog & Hlt) Hc].
  unfold newfile, obj.
  cbv [mbind run_bind get_world modify mret run_ret]. rewrite Hl.
  destruct (LogFile.newfile_cache lf) as [[|]|] eqn:Ec.
  - contradiction.
  - exists w. split; [reflexivity|]. split; [exact Hs | apply outside_kept_refl].
  - unfold path_exists. rewrite Hh.
    rewrite bool_decide_eq_true_2 by eauto. cbn [negb].
    eexists. split; [reflexivity|]. split.
    + intros k lf' Hk. cbn [objs set_objs fs] in *.
      destruct (decide (k = n)) as [->|Hne].
      * rewrite list_lookup_insert_eq in Hk by exact Hn.
        injection Hk as <-. cbn. split; [|discriminate].
        exists h, l. auto.
      * rewrite list_lookup_insert_ne in Hk by congruence. exact (Hs _ _ Hk).
    + repeat split. cbn. apply length_insert.
Qed.

Lemma and_newfile_settled (x : option nat) (w : world) :
  settled w -> (forall i, x = Some i -> (i < length (objs w))%nat) ->
  exists w', and_newfile x w = (Ok false, w')
             /\ settled w' /\ outside_kept w w'.
Proof.
  intros Hs Hx. destruct x as [i|]; cbn [and_newfile].
  - apply newfile_settled; auto.
  - exists w. split; [reflexivity|]. split; [exact Hs | apply outside_kept_refl].
Qed.

Lemma process_one_settled (o : options) (ea : list string) (n : nat)
    (w : world) :
  opt_force o = false -> settled w -> (n < length (objs w))%nat ->
  exists w', process_one strftime irclog2html_main o ea (length (objs w)) n w
             = (Ok false, w')
             /\ settled w' /\ outside_kept w w'.
Proof.
  intros Hf Hs Hn. unfold process_one, needs_generating. rewrite Hf.
  unfold mbind at 1, run_bind at 1. unfold mbind at 1, run_bind at 1.
  rewrite (uptodate_settled n w Hs Hn). cbn [negb].
  set (prev := if (n + 1 <? length (objs w))%nat then Some (n + 1)%nat else None).
  set (next := if (0 <? n)%nat then Some (n - 1)%nat else None).
  destruct (and_newfile_settled prev w Hs) as (w1 & E1 & Hs1 & O1).
  { intros i. unfold prev. destruct (Nat.ltb_spec (n + 1) (length (objs w)));
      intros Hi; inversion Hi; lia. }
  destruct (and_newfile_settled next w1 Hs1) as (w2 & E2 & Hs2 & O2).
  { intros i. unfold next. destruct O1 as (_ & _ & _ & Hlen).
    destruct (Nat.ltb_spec 0 n); intros Hi; inversion Hi; lia. }
  exists w2. unfold mbind at 1, run_bind at 1. rewrite E1.
  rewrite E2. split; [reflexivity|]. split; [exact Hs2|].
  eapply outside_kept_trans; eauto.
Qed.

Lemma process_loop_settled (o : options) (ea : list string) (ns : list nat) :
  opt_force o = false ->
  forall w, settled w -> Forall (fun n => (n < length (objs w))%nat) ns ->
    exists w', process_loop strftime irclog2html_main o ea (length (objs w)) ns w
               = (Ok [], w')
               /\ settled w' /\ outside_kept w w'.
Proof.
  intros Hf. induction ns as [|n ns IH]; intros w Hs Hns.
  - exists w. split; [reflexivity|]. split; [exact Hs | apply outside_kept_refl].
  - inversion Hns as [|? ? Hn Hns']; subst.
    destruct (process_one_settled o ea n w Hf Hs Hn) as (w1 & E1 & Hs1 & O1).
    assert (Hlen : length (objs w1) = length (objs w)) by apply O1.
    destruct (IH w1 Hs1) as (w2 & E2 & Hs2 & O2).
    { rewrite Hlen. exact Hns'. }
    exists w2. cbn [process_loop]. unfold mbind at 1, run_bind at 1.
    rewrite E1. unfold mbind at 1, run_bind at 1.
    rewrite <- Hlen, E2. split; [reflexivity|]. split; [exact Hs2|].
    eapply outside_kept_trans; eauto.
Qed.


(** The end of [process] calls no renderer and touches two files only; it
    ends well when the index can be opened and written and the style sheet
    copied. *)
Lemma write_out_any (dir : string) (o : options) (logfiles : list LogFile.t)
    (gs : list nat) (w2 w1 : world) (r : pyresult (list nat)) :
  write_out dir o logfiles gs w2 = (r, w1) ->
  (open_write (path_join dir "index.html") = Ok tt ->
   write_index (opt_title o) logfiles (opt_searchbox o) (latest_link logfiles)
     = Ok tt ->
   shutil_copy CSS_FILE (path_join dir "irclog.css") = Ok tt ->
   r = Ok gs)
  /\ (forall argv, In (EGenerate argv) (trace w1) ->
                   In (EGenerate argv) (trace w2))
  /\ (forall p, path_join dir "index.html" <> p ->
                path_join dir "irclog.css" <> p ->
                fs w1 !! p = fs w2 !! p).
Proof.
  unfold write_out.
  destruct (open_write _) as [[]|e] eqn:Eo.
  2:{ intros H.
      assert (w1 = w2) as -> by (destruct e; injection H as _ <-; reflexivity).
      split; [discriminate | auto]. }
  destruct (write_index _ _ _ _) as [[]|e] eqn:Ew; cbv zeta.
  2:{ intros H; injection H as <- <-. split; [discriminate|]. split.
      - intros argv. cbn [trace emit set_fs]. rewrite in_app_iff. cbn [In].
        intros [Hin|[Hin|[]]]; [exact Hin | discriminate].
      - intros p Hi _. cbn [fs emit set_fs]. unfold files.
        rewrite lookup_insert_ne by assumption. reflexivity. }
  destruct (negb _ && _).
  - destruct (shutil_copy _ _) as [[]|e] eqn:Ec; intros H; injection H as <- <-.
    + split; [reflexivity|]. split.
      * intros argv. cbn [trace emit set_fs]. rewrite !in_app_iff. cbn [In].
        intros [[Hin|[Hin|[]]]|[Hin|[]]];
          [exact Hin | discriminate | discriminate].
      * intros p Hi Hc. cbn [fs emit set_fs]. unfold files.
        rewrite !lookup_insert_ne by assumption. reflexivity.
    + split; [discriminate|]. split.
      * intros argv. cbn [trace emit set_fs]. rewrite !in_app_iff. cbn [In].
        intros [[Hin|[Hin|[]]]|[Hin|[]]];
          [exact Hin | discriminate | discriminate].
      * intros p Hi Hc. cbn [fs emit set_fs]. unfold files.
        rewrite !lookup_insert_ne by assumption. reflexivity.
  - intros H; injection H as <- <-. split; [reflexivity|]. split.
    + intros argv. cbn [trace emit set_fs]. rewrite in_app_iff. cbn [In].
      intros [Hin|[Hin|[]]]; [exact Hin | discriminate].
    + intros p Hi _. cbn [fs emit set_fs]. unfold files.
      rewrite lookup_insert_ne by assumption. reflexivity.
Qed.

(** X24. A directory whose logs are all rendered, run without the force flag:
    no renderer is called and no artifact is touched, whatever becomes of
    the shortcut, the index and the style sheet; when these four calls
    succeed the run ends well and reports that nothing was generated. *)
Theorem rendered_archive_is_left_alone (dir : string) (o : options)
    (w : world) (found : list LogFile.t) :
  find dir (opt_pattern o) = Ok found ->
  opt_force o = false ->
  (forall lf, In lf found -> rendered (fs w) lf) ->
  exists r w1,
    run dir o w = (r, w1)
    /\ (latest_error dir (rev found) = None ->
        open_write (path_join dir "index.html") = Ok tt ->
        write_index (opt_title o) (rev found) (opt_searchbox o)
                    (latest_link (rev found)) = Ok tt ->
        shutil_copy CSS_FILE (path_join dir "irclog.css") = Ok tt ->
        r = Ok [])
    /\ (forall argv, In (EGenerate argv) (trace w1) ->
                     In (EGenerate argv) (trace w))
    /\ (forall lf, In lf found ->
          path_join dir "index.html" <> LogFile.filename lf +:+ ".html" ->
          path_join dir "irclog.css" <> LogFile.filename lf +:+ ".html" ->
          fs w1 !! (LogFile.filename lf +:+ ".html")
          = fs w !! (LogFile.filename lf +:+ ".html")).
Proof.
  intros Hf Hforce Hr.
  rewrite (process_unfold dir o w found Hf).
  assert (Hs : settled (set_objs (rev found) w)).
  { intros k lf Hk. cbn [objs set_objs fs] in *.
    pose proof (find_fresh pick_output_filename strftime glob_glob
                  dir (opt_pattern o) found w k Hf) as Hc.
    unfold cache_of in Hc. cbn [objs set_objs] in Hc. rewrite Hk in Hc.
    split; [|congruence].
    apply Hr. apply in_rev. apply list_elem_of_In.
    eapply list_elem_of_lookup_2; eauto. }
  destruct (process_loop_settled o (extra_args_of o)
              (seq 0 (length (rev found))) Hforce _ Hs)
    as (wl & El & _ & (Efs & _ & Etrace & _)).
  { cbn [objs set_objs]. apply List.Forall_forall. intros n Hn.
    apply in_seq in Hn. lia. }
  cbn [objs set_objs] in El. rewrite El. cbv zeta.
  destruct (emits_outside (latest_effects dir (rev found)) wl)
    as (Efs2 & _ & _ & Etrace2).
  cbn [fs trace set_objs] in Efs, Etrace.
  assert (Hlatest : forall argv,
            In (EGenerate argv)
               (trace (emits (latest_effects dir (rev found)) wl)) ->
            In (EGenerate argv) (trace w)).
  { intros argv. rewrite Etrace2, Etrace, in_app_iff.
    intros [Hin|Hin]; [exact Hin|]. exfalso. unfold latest_effects in Hin.
    destruct (rev found); [|destruct has_symlink]; cbn in Hin;
      intuition discriminate. }
  destruct (latest_error dir (rev found)) as [text|].
  { eexists; eexists. split; [reflexivity|]. split; [discriminate|].
    split; [exact Hlatest|]. intros lf _ _ _. rewrite Efs2, Efs. reflexivity. }
  destruct (write_out dir o (rev found) [] _) as [r w1] eqn:E.
  apply write_out_any in E as (Hok & Hgen & Hfs).
  exists r, w1. split; [reflexivity|]. split; [intros _; exact Hok|].
  split; [intros argv Hin; apply Hlatest, Hgen, Hin|].
  intros lf _ Hi Hc. rewrite (Hfs _ Hi Hc), Efs2, Efs. reflexivity.
Qed.

(** From [w] to [w'] calls were made, and none forgotten. *)
Definition trace_grows (w w' : world) : Prop :=
  exists es, trace w' = trace w ++ es.

Lemma trace_grows_refl w : trace_grows w w.
Proof. exists []. rewrite app_nil_r. reflexivity. Qed.

Lemma trace_grows_trans w1 w2 w3 :
  trace_grows w1 w2 -> trace_grows w2 w3 -> trace_grows w1 w3.
Proof.
  intros [e1 H1] [e2 H2]. exists (e1 ++ e2). rewrite H2, H1, app_assoc.
  reflexivity.
Qed.

Lemma outside_kept_grows w w' : outside_kept w w' -> trace_grows w w'.
Proof. intros (_ & _ & H & _). exists []. rewrite app_nil_r. exact H. Qed.

Lemma process_one_grows o ea len n w r w' :
  process_one strftime irclog2html_main o ea len n w = (r, w') ->
  trace_grows w w'.
Proof.
  unfold process_one. intros H.
  apply run_bind_inv in H as [(g & w1 & Hg & H)|(e & Hg & ->)];
    apply needs_generating_outside, outside_kept_grows in Hg; [|exact Hg].
  eapply trace_grows_trans; [exact Hg|]. destruct g.
  - assert (Hgen : exists r0, generate strftime irclog2html_main n (opt_style o)
                     (opt_prefix o)
                     (if (n + 1 <? len)%nat then Some (n + 1)%nat else None)
                     (if (0 <? n)%nat then Some (n - 1)%nat else None)
                     ea w1 = (r0, w')).
    { apply run_bind_inv in H as [([] & w2 & Hgen & H)|(e & Hgen & ->)].
      - injection H as _ <-. eauto.
      - eauto. }
    destruct Hgen as (r0 & Hgen).
    apply generate_effect in Hgen as [(argv & lf & Ht & _)|[Ho _]].
    + exists [EGenerate argv]. exact Ht.
    + apply outside_kept_grows. exact Ho.
  - injection H as _ <-. apply trace_grows_refl.
Qed.

Lemma process_loop_grows o ea len ns :
  forall w r w',
    process_loop strftime irclog2html_main o ea len ns w = (r, w') ->
    trace_grows w w'.
Proof.
  induction ns as [|n ns IH]; intros w r w' H; cbn [process_loop] in H.
  - injection H as _ <-. apply trace_grows_refl.
  - apply run_bind_inv in H as [(g & w1 & H1 & H)|(e & H1 & ->)];
      apply process_one_grows in H1; [|exact H1].
    eapply trace_grows_trans; [exact H1|].
    apply run_bind_inv in H as [(gs & w2 & H2 & H)|(e & H2 & ->)];
      apply IH in H2; [|exact H2].
    injection H as _ <-. exact H2.
Qed.

Lemma write_out_grows dir o logfiles gs w2 r w1 :
  write_out dir o logfiles gs w2 = (r, w1) ->
  trace_grows w2 w1.
Proof.
  unfold write_out.
  destruct (open_write _) as [[]|e].
  2:{ intros H.
      assert (w1 = w2) as -> by (destruct e; injection H as _ <-; reflexivity).
      apply trace_grows_refl. }
  destruct (write_index _ _ _ _) as [[]|e]; cbv zeta.
  2:{ intros H; injection H as _ <-. eexists. reflexivity. }
  destruct (negb _ && _).
  - destruct (shutil_copy _ _) as [[]|e]; intros H; injection H as _ <-;
      eexists; cbn [trace emit set_fs]; rewrite <- app_assoc; reflexivity.
  - intros H; injection H as _ <-. eexists. reflexivity.
Qed.

(** Every call a run makes is kept to its end, however it ends. *)
Lemma run_after_loop dir o w found r wl :
  find dir (opt_pattern o) = Ok found ->
  loop o (extra_args_of o) (length (rev found)) (seq 0 (length (rev found)))
       (set_objs (rev found) w) = (r, wl) ->
  trace_grows wl (run dir o w).2.
Proof.
  intros Hf Hl. rewrite (process_unfold dir o w found Hf), Hl.
  destruct r as [gs|e]; [|apply trace_grows_refl]. cbv zeta.
  destruct (emits_outside (latest_effects dir (rev found)) wl)
    as (_ & _ & _ & Etrace).
  eapply trace_grows_trans; [eexists; exact Etrace|].
  destruct (latest_error dir (rev found)); [apply trace_grows_refl|].
  destruct (write_out _ _ _ _ _) as [r1 w1] eqn:E.
  apply write_out_grows in E. exact E.
Qed.

(** The objects [find_log_files] returns are those [LogFile.__init__]
    builds from their file names. *)
Lemma find_objects dir pattern found :
  find dir pattern = Ok found ->
  Forall (fun lf => init (LogFile.filename lf) = Ok lf) found.
Proof.
  unfold find_log_files. cbv [mbind pyresult_bind].
  destruct (make_logfiles _ _ _) as [l|] eqn:E; [|discriminate].
  intros H. injection H as <-. apply sorted_Forall.
  revert l E. induction (_ ++ _) as [|a names IH]; intros l E;
    cbn [make_logfiles] in E.
  - injection E as <-. constructor.
  - cbv [mbind pyresult_bind] in E.
    destruct (init a) as [lf|] eqn:Ea; [|discriminate].
    destruct (make_logfiles _ _ names) as [rest|]; [|discriminate].
    injection E as <-. constructor; [|apply IH; reflexivity].
    destruct (LogFile_init_inv _ _ _ _ Ea) as (-> & _). exact Ea.
Qed.

Lemma strftime_accepts (lf : LogFile.t) (format : string) :
  init (LogFile.filename lf) = Ok lf ->
  date_strftime strftime (LogFile.date_ lf) format
  = Ok (strftime (LogFile.date_ lf) format).
Proof.
  intros H. destruct (LogFile_init_inv _ _ _ _ H) as (_ & _ & _ & _ & _ & _ & Hy & _).
  unfold date_strftime. apply Z.ltb_ge in Hy. rewrite Hy. reflexivity.
Qed.

(** Without the force flag, the newest log is rendered whenever no file
    bears its name followed by [.html], whatever else the directory
    holds: the renderer is called on it before anything else is done. *)
Lemma newest_log_rendered dir o w found newest rest l :
  opt_force o = false ->
  find dir (opt_pattern o) = Ok found ->
  rev found = newest :: rest ->
  fs w !! LogFile.filename newest = Some l ->
  fs w !! (LogFile.filename newest +:+ ".html") = None ->
  exists argv es,
    trace (run dir o w).2 = trace w ++ EGenerate argv :: es
    /\ List.last argv EmptyString = LogFile.filename newest.
Proof.
  intros Hforce Hf Hrev Hlog Hhtml.
  assert (Hobjs : Forall (fun lf => init (LogFile.filename lf) = Ok lf)
                         (newest :: rest)).
  { rewrite <- Hrev. apply Forall_rev. exact (find_objects _ _ _ Hf). }
  destruct (loop o (extra_args_of o) (length (rev found))
                 (seq 0 (length (rev found))) (set_objs (rev found) w))
    as [r wl] eqn:Hl.
  pose proof (run_after_loop dir o w found r wl Hf Hl) as [es2 Hes2].
  rewrite Hrev in Hl. cbn [length seq process_loop] in Hl.
  assert (H1 : exists argv r1 w1,
             process_one strftime irclog2html_main o (extra_args_of o)
               (S (length rest)) 0 (set_objs (newest :: rest) w) = (r1, w1)
             /\ trace w1 = trace w ++ [EGenerate argv]
             /\ List.last argv EmptyString = LogFile.filename newest).
  { inversion Hobjs as [|? ? Hn Hrest]; subst.
    destruct (LogFile_init_inv _ _ _ _ Hn) as (_ & _ & Hc & _).
    unfold process_one, needs_generating. rewrite Hforce.
    unfold uptodate, obj, stat_mtime.
    cbv [mbind run_bind get_world lift mret run_ret].
    cbn [objs set_objs fs lookup list_lookup]. rewrite Hlog, Hhtml.
    cbn [negb]. unfold generate, newfile, obj.
    cbv [mbind run_bind get_world lift mret run_ret modify].
    cbn [objs set_objs fs lookup list_lookup]. rewrite Hc.
    cbn [objs set_objs fs insert list_insert lookup list_lookup
         LogFile.date_ LogFile.set_cache LogFile.filename].
    rewrite (strftime_accepts newest _ Hn).
    assert (Hprev : forall argv args w0,
              objs w0 !! 1%nat = rest !! 0%nat ->
              exists argv1,
                neighbour_args strftime argv
                  (if (0 + 1 <? S (length rest))%nat then Some (0 + 1)%nat
                   else None) args w0
                = (Ok argv1, w0)).
    { intros argv args w0 Hw0. destruct rest as [|lf1 rest'].
      - exists argv. reflexivity.
      - inversion Hrest as [|? ? Hn1 _]; subst.
        cbn [length Nat.ltb Nat.leb Nat.add]. unfold neighbour_args, obj.
        cbv [mbind run_bind lift mret run_ret]. rewrite Hw0.
        cbn [lookup list_lookup]. rewrite (strftime_accepts lf1 _ Hn1).
        eexists. reflexivity. }
    destruct (Hprev ((["irclog2html.py"; "-s"; opt_style o] ++ extra_args_of o)
                     ++ ["-t"; opt_prefix o
                               +:+ strftime (LogFile.date_ newest)
                                     "%A, %Y-%m-%d"])
                (fun (prev : LogFile.t) (day : string) =>
                   ["--prev-url"; LogFile.link prev; "--prev-title";
                    "&#171; " +:+ day])
                (set_objs
                   (LogFile.set_cache
                      (negb (path_exists (fs w)
                               (LogFile.filename newest +:+ ".html")))
                      newest :: rest)
                   (set_objs (newest :: rest) w)))
      as (argv1 & ->); [reflexivity|].
    cbn [Nat.ltb Nat.leb neighbour_args]. cbv [mret run_ret].
    unfold call_main. destruct (irclog2html_main _ _ _) as [[[]|e0] f];
      (eexists; eexists; eexists; split; [reflexivity|]);
      cbn [trace emit set_fs set_objs]; (split; [reflexivity|]);
      apply last_last. }
  destruct H1 as (argv & r1 & w1 & H1 & Ht1 & Hlast).
  exists argv.
  assert (Hg : trace_grows w1 wl).
  { unfold mbind at 1, run_bind at 1 in Hl. rewrite H1 in Hl.
    destruct r1 as [g|e]; [|injection Hl as _ <-; apply trace_grows_refl].
    apply run_bind_inv in Hl as [(gs & w2 & H2 & Hl)|(e & H2 & _)];
      apply process_loop_grows in H2; [|exact H2].
    injection Hl as _ <-. exact H2. }
  destruct Hg as [es1 Hes1].
  exists (es1 ++ es2). split; [|exact Hlast].
  rewrite Hes2, Hes1, Ht1, <- !app_assoc. reflexivity.
Qed.
End RunFacts.

(** ** A compressed log and its page

    A naming of pages that drops the [.gz] of a compressed log, a renderer
    that writes the page so named beside the log, at the current time, and
    a directory [d] that holds one compressed log and its page, which is
    newer. *)

Definition example_gz_pick (base : string) : string :=
  (if endswith base ".gz" then take_str (String.length base - 3) base
   else base) +:+ ".html".

Definition example_gz_main (argv : list string) (now : Z) (f : files)
    : pyresult unit * files :=
  (Ok tt, <[example_gz_pick (List.last argv EmptyString) := now]> f).

Definition example_gz_glob (pattern : string) : list string :=
  if endswith pattern ".gz" then ["d/2005-01-01.log.gz"] else [].

Definition example_gz_files : files :=
  list_to_map [("d/2005-01-01.log.gz", 10%Z); ("d/2005-01-01.log.html", 50%Z)].

Definition example_gz_world : world :=
  {| fs := example_gz_files; objs := []; clock := 100; trace := [] |}.

Definition example_gz_process : run_t (list nat) :=
  process example_gz_pick (fun _ fmt => fmt) example_gz_main example_gz_glob
          true example_symlink example_open example_write_index example_copy
          "/usr/share/irclog.css" "d" example_options.

(** The call of the renderer on the compressed log. *)
Definition example_gz_call : effect :=
  EGenerate ["irclog2html.py"; "-s"; "xhtmltable"; "-t"; "%A, %Y-%m-%d";
             "--index-url=index.html"; "--index-title=Index";
             "d/2005-01-01.log.gz"].

(** The same directory with the log uncompressed. *)
Definition example_plain_world : world :=
  {| fs := list_to_map [("d/2005-01-01.log", 10%Z);
                        ("d/2005-01-01.log.html", 50%Z)];
     objs := []; clock := 100; trace := [] |}.

Definition example_plain_process : run_t (list nat) :=
  process example_gz_pick (fun _ fmt => fmt) example_gz_main
          (example_glob ["d/2005-01-01.log"])
          true example_symlink example_open example_write_index example_copy
          "/usr/share/irclog.css" "d" example_options.

(** C4. A log should be rendered again only when the force flag is set, when
    its rendered page is missing or not strictly newer than the log, or
    when a neighbour is new. The rendered page of a log is the one its
    [link] names, in the directory of the run: the shortcut, the index and
    the neighbours' navigation all point to it. [newfile] and [uptodate]
    look for the file name of the log followed by [.html] instead. The two
    names differ for a compressed log, which [find_log_files] collects on
    purpose and whose page does not bear the [.gz]; no rendering ever makes
    the file looked for, so such a log is rendered on every run.

    In general: without the force flag, the newest log is rendered whenever
    no file bears its name followed by [.html], though its page exists and
    is strictly newer than the log. At the directory [d], which holds
    [2005-01-01.log.gz] and its newer page [2005-01-01.log.html]: the log
    has no neighbour, its page exists and is newer, and the run renders it;
    the next run, which finds the page just written, renders it again. The
    same log uncompressed is left alone. *)
Theorem C4_compressed_log_rendered_again :
  (forall pick_output_filename strftime irclog2html_main glob_glob
          has_symlink symlink_error open_write write_index shutil_copy
          CSS_FILE dir o w found newest rest l h,
     opt_force o = false ->
     find_log_files pick_output_filename strftime glob_glob
                    dir (opt_pattern o) = Ok found ->
     rev found = newest :: rest ->
     fs w !! LogFile.filename newest = Some l ->
     fs w !! path_join dir (LogFile.link newest) = Some h ->
     (l < h)%Z ->
     fs w !! (LogFile.filename newest +:+ ".html") = None ->
     exists argv es,
       trace (process pick_output_filename strftime irclog2html_main
                      glob_glob has_symlink symlink_error open_write
                      write_index shutil_copy CSS_FILE dir o w).2
       = trace w ++ EGenerate argv :: es
       /\ List.last argv EmptyString = LogFile.filename newest)
  /\ (let w1 := (example_gz_process example_gz_world).2 in
      let w2 := (example_gz_process w1).2 in
      fs example_gz_world !! "d/2005-01-01.log.gz" = Some 10%Z
      /\ fs example_gz_world !! "d/2005-01-01.log.html" = Some 50%Z
      /\ (example_gz_process example_gz_world).1 = Ok [0%nat]
      /\ trace w1
         = [example_gz_call; EUnlink "d/latest.log.html";
            ESymlink "2005-01-01.log.html" "d/latest.log.html";
            EWriteIndex "d/index.html" ["2005-01-01.log.html"]]
      /\ fs w1 !! "d/2005-01-01.log.html" = Some 100%Z
      /\ (example_gz_process w1).1 = Ok [0%nat]
      /\ trace w2
         = trace w1
           ++ [example_gz_call; EUnlink "d/latest.log.html";
               ESymlink "2005-01-01.log.html" "d/latest.log.html";
               EWriteIndex "d/index.html" ["2005-01-01.log.html"]])
  /\ (example_plain_process example_plain_world).1 = Ok []
  /\ trace (example_plain_process example_plain_world).2
     = [EUnlink "d/latest.log.html";
        ESymlink "2005-01-01.log.html" "d/latest.log.html";
        EWriteIndex "d/index.html" ["2005-01-01.log.html"]].
Proof.
  split; [|split; [|split]].
  - intros. eapply newest_log_rendered; eassumption.
  - vm_compute. repeat split.
  - vm_compute. reflexivity.
  - vm_compute. reflexivity.
Qed.

(** C4, at the directory [d] with its compressed log. *)
Lemma C4_witness :
  exists argv es,
    trace (example_gz_process example_gz_world).2
    = trace example_gz_world ++ EGenerate argv :: es
    /\ List.last argv EmptyString = "d/2005-01-01.log.gz".
Proof.
  apply (proj1 C4_compressed_log_rendered_again
           example_gz_pick (fun _ fmt => fmt) example_gz_main example_gz_glob
           true example_symlink example_open example_write_index example_copy
           "/usr/share/irclog.css" "d" example_options example_gz_world
           [{| LogFile.filename := "d/2005-01-01.log.gz";
               LogFile.date_ := {| year := 2005; month := 1; day := 1 |};
               LogFile.link := "2005-01-01.log.html";
               LogFile.title := "%Y-%m-%d (%A)";
               LogFile.newfile_cache := None |}]
           {| LogFile.filename := "d/2005-01-01.log.gz";
              LogFile.date_ := {| year := 2005; month := 1; day := 1 |};
              LogFile.link := "2005-01-01.log.html";
              LogFile.title := "%Y-%m-%d (%A)";
              LogFile.newfile_cache := None |}
           [] 10%Z 50%Z).
  - reflexivity.
  - vm_compute. reflexivity.
  - reflexivity.
  - reflexivity.
  - reflexivity.
  - lia.
  - reflexivity.
Defined.

(** ** The date in a file name *)








Section DateFacts.
Context (pick_output_filename : string -> string).
Context (strftime : date -> string -> string).

End DateFacts.

(** ** More on the WSGI handler *)

Lemma contains_char_cons (x c : ascii) (s : string) :
  contains (String x EmptyString) (String c s)
  = Ascii.eqb c x || contains (String x EmptyString) s.
Proof.
  cbn [contains String.prefix]. rewrite prefix_nil.
  destruct (Ascii.ascii_dec x c) as [->|Hne].
  - rewrite Ascii.eqb_refl. reflexivity.
  - assert (E : Ascii.eqb c x = false) by (apply Ascii.eqb_neq; congruence).
    rewrite E. reflexivity.
Qed.

Lemma split_slash_fst (s : string) :
  contains "/" (split_slash s).1 = false.
Proof.
  induction s as [|c s IH]; [reflexivity|]. cbn [split_slash].
  destruct (Ascii.eqb c "/") eqn:E; [reflexivity|].
  destruct (split_slash s) as [a b]. cbn [fst] in *.
  rewrite contains_char_cons, E, IH. reflexivity.
Qed.

Lemma split_slash_app (a b : string) :
  contains "/" a = false -> split_slash (a +:+ "/" +:+ b) = (a, b).
Proof.
  induction a as [|c a IH]; intros H.
  - reflexivity.
  - rewrite contains_char_cons in H. apply orb_false_iff in H as [Hc Ha].
    change (String c a +:+ "/" +:+ b) with (String c (a +:+ "/" +:+ b)).
    cbn [split_slash]. rewrite Hc, (IH Ha). reflexivity.
Qed.

Section MoreServerFacts.
Context (pick_output_filename : string -> string).
Context (strftime : date -> string -> string).
Context (glob_glob : string -> list string).
Context (CSS_FILE DEFAULT_LOGFILE_PATH DEFAULT_LOGFILE_PATTERN : string).
Context (os_environ : gmap string string).
Context (store : gmap string string).
Context (convert_irc_log : string -> string -> pyresult string).
Context (write_index : string -> list LogFile.t -> string).
Context (form : Type).
Context (query_fields : gmap string string -> form).
Context (body_fields : gmap string string -> pyresult form).
Context (search_page : form -> string -> string -> pyresult string).
Context (dir_listing : string -> pyresult string).
Context (decode_lines : string -> string).

Local Abbreviation app :=
  (application pick_output_filename strftime glob_glob CSS_FILE
               DEFAULT_LOGFILE_PATH DEFAULT_LOGFILE_PATTERN os_environ store
               convert_irc_log write_index form query_fields body_fields
               search_page dir_listing decode_lines).

(** [s] holds no slash and no backslash. *)
Definition separator_free (s : string) : bool :=
  negb (contains "/" s) && negb (contains (String backslash EmptyString) s).

(** X26. A file name that [parse_path] lets through holds no slash and no
    backslash and is not empty; a channel it returns holds no slash, is not
    the parent directory, and is returned only when a channel directory is
    configured. *)
Theorem parse_path_is_safe (environ : gmap string string)
    (channel : option string) (path : string) :
  parse_path os_environ environ = (channel, Some path) ->
  separator_free path = true
  /\ path <> EmptyString
  /\ (forall c, channel = Some c ->
        contains "/" c = false /\ c <> ".."
        /\ truthy (getenv os_environ environ "IRCLOG_CHAN_DIR") = true).
Proof.
  unfold parse_path, separator_free.
  set (p := drop_str 1 (default "/" (environ !! "PATH_INFO"))).
  destruct (truthy (getenv os_environ environ "IRCLOG_CHAN_DIR")
            && contains "/" p) eqn:E.
  - pose proof (split_slash_fst p) as Hc.
    destruct (split_slash p) as [c rest]. cbn [fst] in Hc.
    destruct (String.eqb_spec c "..") as [->|Hne]; [discriminate|].
    destruct (contains "/" rest || contains (String backslash EmptyString) rest)
      eqn:S; [discriminate|].
    apply orb_false_iff in S as [S1 S2].
    apply andb_true_iff in E as [E _].
    intros H. injection H as <- <-.
    split; [|split].
    + destruct rest; [reflexivity|]. rewrite S1, S2. reflexivity.
    + destruct rest; discriminate.
    + intros c' Hc'. injection Hc' as <-. auto.
  - destruct (contains "/" p || contains (String backslash EmptyString) p)
      eqn:S; [discriminate|].
    apply orb_false_iff in S as [S1 S2].
    intros H. injection H as <- <-.
    split; [|split].
    + destruct p; [reflexivity|]. rewrite S1, S2. reflexivity.
    + destruct p; discriminate.
    + intros c' Hc'. discriminate.
Qed.

(** X27. With a channel directory configured, a request path made of a
    channel, a slash and a file name is split at its first slash; an empty
    file name stands for the index. *)
Theorem parse_path_channel (environ : gmap string string)
    (channel file : string) :
  truthy (getenv os_environ environ "IRCLOG_CHAN_DIR") = true ->
  environ !! "PATH_INFO" = Some ("/" +:+ channel +:+ "/" +:+ file) ->
  contains "/" channel = false ->
  channel <> ".." ->
  separator_free file = true ->
  parse_path os_environ environ
  = (Some channel,
     Some (match file with EmptyString => "index.html" | _ => file end)).
Proof.
  intros Hd Hp Hc Hne Hf. unfold parse_path. rewrite Hp, Hd.
  cbn [default]. unfold id.
  change (drop_str 1 ("/" +:+ channel +:+ "/" +:+ file))
    with (channel +:+ "/" +:+ file).
  assert (Hs : contains "/" (channel +:+ "/" +:+ file) = true).
  { apply contains_app_r. change ("/" +:+ file) with (String "/" file).
    rewrite contains_char_cons. reflexivity. }
  rewrite Hs. cbn [andb]. rewrite (split_slash_app _ _ Hc).
  destruct (String.eqb_spec channel "..") as [->|_]; [contradiction|].
  unfold separator_free in Hf. apply andb_true_iff in Hf as [H1 H2].
  apply negb_true_iff in H1, H2. rewrite H1, H2. reflexivity.
Qed.

Local Abbreviation parse_form :=
  (FieldStorage form query_fields body_fields).
Local Abbreviation answer :=
  (respond pick_output_filename strftime glob_glob CSS_FILE
           DEFAULT_LOGFILE_PATH DEFAULT_LOGFILE_PATTERN os_environ store
           convert_irc_log write_index form search_page dir_listing
           decode_lines).

Lemma respond_no_path (environ : gmap string string)
    (channel : option string) (f : form) :
  parse_path os_environ environ = (channel, None) ->
  answer environ f = Ok not_found.
Proof. intros H. unfold respond. rewrite H. reflexivity. Qed.

(** X28. A request whose file name holds a slash or a backslash, or whose
    channel is the parent directory, is answered 404, whatever the files
    are, once its form is parsed; when [cgi.FieldStorage] cannot parse the
    body of the request, its exception leaves the handler instead. *)
Theorem separator_is_refused (environ : gmap string string) (p : string) :
  environ !! "PATH_INFO" = Some p ->
  (truthy (getenv os_environ environ "IRCLOG_CHAN_DIR") = false
   /\ separator_free (drop_str 1 p) = false)
  \/ (truthy (getenv os_environ environ "IRCLOG_CHAN_DIR") = true
      /\ contains "/" (drop_str 1 p) = true
      /\ ((split_slash (drop_str 1 p)).1 = ".."
          \/ separator_free (split_slash (drop_str 1 p)).2 = false)) ->
  app environ
  = match parse_form environ with
    | Ok _ => Ok not_found
    | Raise e => Raise e
    end.
Proof.
  intros Hp H.
  assert (E : exists c, parse_path os_environ environ = (c, None)).
  { unfold parse_path. rewrite Hp. cbn [default]. unfold id.
    destruct H as [[Hd Hs]|(Hd & Hc & Hs)]; rewrite Hd.
    - cbn [andb]. unfold separator_free in Hs.
      destruct (contains "/" (drop_str 1 p));
        [|destruct (contains (String backslash EmptyString) (drop_str 1 p))];
        try discriminate; cbn [orb]; eauto.
    - rewrite Hc. cbn [andb].
      destruct (split_slash (drop_str 1 p)) as [c rest]. cbn [fst snd] in Hs.
      destruct Hs as [-> | Hs]; [cbn; eauto|].
      destruct (String.eqb c ".."); [eauto|]. unfold separator_free in Hs.
      destruct (contains "/" rest);
        [|destruct (contains (String backslash EmptyString) rest)];
        try discriminate; cbn [orb]; eauto. }
  destruct E as [c E]. unfold application. cbv [mbind pyresult_bind].
  destruct (parse_form environ) as [f|e]; [|reflexivity].
  exact (respond_no_path _ _ _ E).
Qed.

(** X29. The listing of the logs is made outside any try statement: when
    no channel directory is configured, the index is not cached and the
    list of log files cannot be built, the exception leaves the handler
    (after the form of the request is parsed, which may itself raise). *)
Theorem index_listing_error_escapes (environ : gmap string string)
    (e : exn) :
  parse_path os_environ environ = (None, Some "index.html") ->
  truthy (getenv os_environ environ "IRCLOG_CHAN_DIR") = false ->
  store !! path_join (or_default (getenv os_environ environ "IRCLOG_LOCATION")
                                 DEFAULT_LOGFILE_PATH) "index.html" = None ->
  find_log_files pick_output_filename strftime glob_glob
    (or_default (getenv os_environ environ "IRCLOG_LOCATION")
                DEFAULT_LOGFILE_PATH)
    (or_default (getenv os_environ environ "IRCLOG_GLOB")
                DEFAULT_LOGFILE_PATTERN) = Raise e ->
  app environ
  = match parse_form environ with
    | Ok _ => Raise e
    | Raise e' => Raise e'
    end.
Proof.
  intros Hp Hd Hs Hf. unfold application. cbv [mbind pyresult_bind].
  destruct (parse_form environ) as [f|e']; [|reflexivity].
  unfold respond. rewrite Hp, Hd. cbn [truthy].
  rewrite andb_false_r. cbn [String.eqb Ascii.eqb Bool.eqb andb].
  unfold read_file. rewrite Hs. unfold log_listing.
  cbv [mbind pyresult_bind]. rewrite Hf. reflexivity.
Qed.
End MoreServerFacts.

(** ** The properties above at concrete inputs *)

(** X1, at a comment of bob. *)
Lemma comment_line_is_parsed_witness :
  LogParser.classify_rest (Some "12:34") "<bob> hi there"
  = Ok (Some "12:34", LogParser.COMMENT,
        LogParser.NickText (VStr "bob") "hi there").
Proof.
  exact (comment_line_is_parsed (Some "12:34") "bob" "hi there" " "
           eq_refl eq_refl).
Defined.

(** X2, at the event of a comment whose text holds a closing bracket. *)
Lemma comment_event_line_witness :
  exists nick sp text,
    "<bob> a> b" = "<" +:+ nick +:+ ">" +:+ String sp text
    /\ is_space sp = true
    /\ @None string = None
    /\ LogParser.NickText (VStr "bob") "a> b"
       = LogParser.NickText (VStr nick) text
    /\ (forall a c b, nick = a +:+ ">" +:+ String c b -> is_space c = false).
Proof.
  exact (comment_event_line None "<bob> a> b" None
           (LogParser.NickText (VStr "bob") "a> b") eq_refl).
Defined.

(** X3, at a server line. *)
Lemma kind_tells_line_witness :
  @None string = None
  /\ startswith "--- Log opened" "--- " = true
  /\ LogParser.nick_change_locals "--- Log opened" = None
  /\ LogParser.Line "--- Log opened" = LogParser.Line "--- Log opened".
Proof.
  exact (kind_tells_line None "--- Log opened" None LogParser.SERVER
           (LogParser.Line "--- Log opened") eq_refl).
Defined.

(** X4, at a bracketed time with seconds. *)
Lemma strip_time_clock_witness :
  LogParser.strip_time "[12:34:56] <bob> hi"
  = (Some "12:34:56", "<bob> hi").
Proof.
  exact (strip_time_clock true true "1" "2" "3" "4" (Some ("5", "6"))%char
           "<bob> hi" eq_refl eq_refl eq_refl).
Defined.

(** X7, at a fresh colourizer and its first nick. *)
Lemma getitem_answers_witness :
  exists colour self',
    NickColourizer.getitem (NickColourizer.init 30 ∅) "bob" = (Ok colour, self')
    /\ NickColourizer.nick_colour self' !! "bob" = Some colour
    /\ NickColourizer.colour_chooser self'
       = NickColourizer.colour_chooser (NickColourizer.init 30 ∅)
    /\ (0 <= NickColourizer.nickcount self' < NickColourizer.maxnicks self')%Z
    /\ (NickColourizer.maxnicks (NickColourizer.init 30 ∅)
        <= NickColourizer.maxnicks self'
        <= 2 * NickColourizer.maxnicks (NickColourizer.init 30 ∅))%Z
    /\ (unknown (NickColourizer.init 30 ∅) "bob" ->
        matches_colour colour = true
        /\ NickColourizer.nickcount self'
           = (NickColourizer.nickcount (NickColourizer.init 30 ∅) + 1)%Z)
    /\ (~ unknown (NickColourizer.init 30 ∅) "bob" ->
        self' = NickColourizer.init 30 ∅).
Proof.
  apply (getitem_answers (NickColourizer.init 30 ∅) "bob").
  - reflexivity.
  - cbn. lia.
  - cbn. apply Z.leb_le. vm_compute. reflexivity.
Defined.

(** X8, at the first nick of a fresh colourizer. *)
Lemma getitem_is_stable_witness :
  let self := NickColourizer.init 30 ∅ in
  let self' := (NickColourizer.getitem self "bob").2 in
  NickColourizer.getitem self "bob" = (Ok "#407a40", self')
  /\ NickColourizer.getitem self' "bob" = (Ok "#407a40", self')
  /\ NickColourizer.nick_colour self' !! "bob" = Some "#407a40".
Proof.
  intros self self'.
  assert (H : NickColourizer.getitem self "bob" = (Ok "#407a40", self'))
    by (vm_compute; reflexivity).
  split; [exact H|].
  destruct (getitem_is_stable self self' "bob" "#407a40" H) as (H1 & H2 & _).
  split; assumption.
Defined.

(** X11, at a text without markup. *)
Lemma escape_plain_text_witness : escape "hello, world" = "hello, world".
Proof. exact (escape_plain_text "hello, world" eq_refl). Defined.

(** X13, at a log with a nick change in its second line. *)
Lemma log2html_outcome_witness :
  exists body,
    length body = 1%nat
    /\ log2html ["<bob> hi"; "--- bob is now known as rob"; "<rob> ho"] "log"
       = (CallHead "log" :: body, Some (Exn (NameError "oldnick"))).
Proof.
  destruct (log2html_outcome
              ["<bob> hi"; "--- bob is now known as rob"; "<rob> ho"] "log")
    as (body & Hlen & _ & _ & H).
  - apply Z.leb_le. vm_compute. reflexivity.
  - exists body. split; [exact Hlen | exact H].
Defined.

(** X14, at two comments by bob with alice in between. *)
Lemma nick_keeps_colour_witness :
  let calls := (log2html ["<bob> a"; "<alice> b"; "<bob> c"] "log").1 in
  In (CallNickText "bob" "a" "#407a40") calls
  /\ forall colour, In (CallNickText "bob" "c" colour) calls ->
                    "#407a40" = colour.
Proof.
  intros calls.
  assert (H : In (CallNickText "bob" "a" "#407a40") calls)
    by (vm_compute; auto).
  split; [exact H|]. intros colour H'.
  exact (nick_keeps_colour _ _ _ _ _ _ _ H H').
Defined.

(** X16, at a comment with three spaces in a row. *)
Lemma comment_text_has_no_double_space_witness :
  In (CallNickText "bob" "a&nbsp;&nbsp; b" "#407a40")
     (log2html ["<bob> a   b"] "log").1
  /\ contains "  " "a&nbsp;&nbsp; b" = false.
Proof.
  assert (H : In (CallNickText "bob" "a&nbsp;&nbsp; b" "#407a40")
                 (log2html ["<bob> a   b"] "log").1)
    by (vm_compute; auto).
  split; [exact H|].
  exact (comment_text_has_no_double_space _ _ _ _ _ H).
Defined.

(** The example archive again: its log files as [find_log_files] builds
    them, a world whose only object is the oldest log, which has no
    artifact, and an archive in which every log is rendered. *)
Definition example_found : list LogFile.t :=
  Eval vm_compute in
    match find_log_files (fun base => base +:+ ".html") (fun _ fmt => fmt)
                         (example_glob example_names) "d" "*.log" with
    | Ok l => l
    | Raise _ => []
    end.

Definition example_oldest : world :=
  set_objs (take 1 example_found) example_world.

Definition example_rendered : world :=
  set_fs (<["d/2005-01-01.log.html" := 50%Z]> example_files) example_world.

Definition example_forced : options :=
  {| opt_style := "xhtmltable"; opt_title := "IRC logs";
     opt_prefix := EmptyString; opt_force := true; opt_searchbox := false;
     opt_dircproxy := false; opt_pattern := "*.log" |}.

(** X17, at the oldest log of the example, after all files are gone. *)
Lemma newfile_answer_is_kept_witness :
  let w1 := (newfile 0 example_oldest).2 in
  newfile 0 example_oldest = (Ok true, w1)
  /\ newfile 0 (set_fs ∅ w1) = (Ok true, set_fs ∅ w1).
Proof.
  intros w1.
  assert (H : newfile 0 example_oldest = (Ok true, w1))
    by (vm_compute; reflexivity).
  split; [exact H|]. exact (newfile_answer_is_kept 0 example_oldest w1 true ∅ H).
Defined.

(** X18, at the oldest log of the example: the renderer has made the
    artifact, and the log still counts as new. *)
Lemma generate_keeps_newness_witness :
  let w' := (generate (fun _ fmt => fmt) example_main 0 "table" EmptyString
                      None None [] example_oldest).2 in
  path_exists (fs w') "d/2005-01-01.log.html" = true
  /\ newfile 0 w' = (Ok true, w').
Proof.
  intros w'. split; [vm_compute; reflexivity|].
  eapply (generate_keeps_newness (fun _ fmt => fmt) example_main 0 "table"
            EmptyString None None [] example_oldest w').
  - vm_compute. reflexivity.
  - vm_compute. reflexivity.
  - vm_compute. reflexivity.
  - apply surjective_pairing.
Defined.

(** The run of the example archive with the force flag. *)
Definition example_forced_process : run_t (list nat) :=
  process (fun base => base +:+ ".html") (fun _ fmt => fmt) example_main
          (example_glob example_names) true example_symlink example_open
          example_write_index example_copy "/usr/share/irclog.css"
          "d" example_forced.

(** X19, at the example archive with the force flag. *)
Lemma force_generates_all_witness :
  exists found argvs rest,
    find_log_files (fun base => base +:+ ".html") (fun _ fmt => fmt)
                   (example_glob example_names) "d" "*.log" = Ok found
    /\ [0; 1; 2]%nat = seq 0 (length found)
    /\ trace (example_forced_process example_world).2
       = trace example_world ++ map EGenerate argvs ++ rest
    /\ map (fun argv => List.last argv EmptyString) argvs
       = map LogFile.filename (rev found)
    /\ (forall argv, ~ In (EGenerate argv) rest).
Proof.
  apply (force_generates_all (fun base => base +:+ ".html") (fun _ fmt => fmt)
           example_main (example_glob example_names) true example_symlink
           example_open example_write_index example_copy
           "/usr/share/irclog.css" "d" example_forced example_world
           (example_forced_process example_world).2).
  - reflexivity.
  - vm_compute. reflexivity.
Defined.

(** X20, at the example archive, whose names are discovered out of
    order. *)
Lemma find_log_files_sorted_witness :
  map LogFile.filename example_found ≡ₚ example_names ++ []
  /\ ascending LogFile.filename example_found.
Proof.
  destruct (find_log_files_sorted (fun base => base +:+ ".html")
              (fun _ fmt => fmt) (example_glob example_names) "d" "*.log"
              example_found) as (H1 & H2 & _).
  - vm_compute. reflexivity.
  - split; [exact H1 | exact H2].
Defined.

(** X21, at the example archive: two calls of the renderer, the shortcut,
    the index. *)
Lemma run_effects_witness :
  exists found argvs css,
    find_log_files (fun base => base +:+ ".html") (fun _ fmt => fmt)
                   (example_glob example_names) "d" "*.log" = Ok found
    /\ trace (example_process example_names example_world).2
       = trace example_world ++ map EGenerate argvs
         ++ latest_effects true "d" (rev found)
         ++ [EWriteIndex (path_join "d" "index.html")
                         (map LogFile.link (rev found))]
         ++ css
    /\ Forall2 (fun n argv =>
                  exists lf, rev found !! n = Some lf
                    /\ List.last argv EmptyString = LogFile.filename lf)
               [1; 2]%nat argvs
    /\ (css = []
        \/ css = [ECopy "/usr/share/irclog.css" (path_join "d" "irclog.css")]).
Proof.
  apply (run_effects (fun base => base +:+ ".html") (fun _ fmt => fmt)
           example_main (example_glob example_names) true example_symlink
           example_open example_write_index example_copy
           "/usr/share/irclog.css" "d" example_options example_world).
  vm_compute. reflexivity.
Defined.

(** An index that cannot be opened. *)
Definition example_denied (path : string) : pyresult unit :=
  Raise (IOError ("[Errno 13] Permission denied: '" +:+ path +:+ "'")).

(** X22, at the example archive with an index that cannot be opened. *)
Lemma index_unwritable_witness :
  let wl := (process_loop (fun _ fmt => fmt) example_main example_options
               (extra_args_of example_options) 3 (seq 0 3)
               (set_objs (rev example_found) example_world)).2 in
  exists w1,
    process (fun base => base +:+ ".html") (fun _ fmt => fmt) example_main
            (example_glob example_names) true example_symlink example_denied
            example_write_index example_copy
            "/usr/share/irclog.css" "d" example_options example_world
    = (Raise (Error ("cannot open " +:+ path_join "d" "index.html"
                     +:+ " for writing: "
                     +:+ "[Errno 13] Permission denied: 'd/index.html'")), w1)
    /\ fs w1 = fs wl
    /\ trace w1 = trace wl ++ latest_effects true "d" (rev example_found).
Proof.
  intros wl.
  apply (index_unwritable (fun base => base +:+ ".html") (fun _ fmt => fmt)
           example_main (example_glob example_names) true example_symlink
           example_denied example_write_index example_copy
           "/usr/share/irclog.css" "d" example_options example_world wl
           example_found [1; 2]%nat
           "[Errno 13] Permission denied: 'd/index.html'").
  - vm_compute. reflexivity.
  - vm_compute. reflexivity.
  - reflexivity.
  - reflexivity.
Defined.

(** A shortcut that is in the way and cannot be removed. *)
Definition example_taken (src dst : string) : option string :=
  Some ("[Errno 17] File exists: '" +:+ dst +:+ "'").

(** X30, at the example archive with a shortcut that cannot be replaced. *)
Lemma shortcut_failure_escapes_witness :
  let wl := (process_loop (fun _ fmt => fmt) example_main example_options
               (extra_args_of example_options) 3 (seq 0 3)
               (set_objs (rev example_found) example_world)).2 in
  let run :=
    process (fun base => base +:+ ".html") (fun _ fmt => fmt) example_main
            (example_glob example_names) true example_taken example_open
            example_write_index example_copy
            "/usr/share/irclog.css" "d" example_options in
  exists w1,
    run example_world
    = (Raise (OSError "[Errno 17] File exists: 'd/latest.log.html'"), w1)
    /\ main_try "logs2html" run example_world
       = (Raise (OSError "[Errno 17] File exists: 'd/latest.log.html'"), w1)
    /\ fs w1 = fs wl
    /\ trace w1 = trace wl ++ latest_effects true "d" (rev example_found)
    /\ (forall path links, ~ In (EWriteIndex path links)
                               (latest_effects true "d" (rev example_found))).
Proof.
  intros wl run.
  apply (shortcut_failure_escapes (fun base => base +:+ ".html")
           (fun _ fmt => fmt) example_main (example_glob example_names) true
           example_taken example_open example_write_index example_copy
           "/usr/share/irclog.css" "logs2html" "d" example_options
           example_world wl example_found [1; 2]%nat
           "[Errno 17] File exists: 'd/latest.log.html'").
  - vm_compute. reflexivity.
  - vm_compute. reflexivity.
  - reflexivity.
Defined.

(** X23, at a directory with a dated and an undated name. *)
Lemma main_exits_on_dateless_name_witness :
  exists f,
    In f (discovered (example_glob ["d/2005-01-02.log"; "d/nodate.log"])
                     "d" example_options)
    /\ Re.re_match DATE_REGEXP (basename f) = None
    /\ main_try "logs2html"
         (example_process ["d/2005-01-02.log"; "d/nodate.log"]) example_world
       = (Raise (SystemExit
                   ("logs2html" +:+ ": "
                    +:+ "File name does not contain a YYYY-MM-DD date: "
                    +:+ f)), example_world).
Proof.
  apply (main_exits_on_dateless_name (fun base => base +:+ ".html")
           (fun _ fmt => fmt) example_main
           (example_glob ["d/2005-01-02.log"; "d/nodate.log"]) true
           example_symlink example_open example_write_index example_copy
           "/usr/share/irclog.css" "logs2html" "d"
           example_options example_world).
  - exists "d/nodate.log". split; [right; left; reflexivity | reflexivity].
  - intros g msg [<-|[<-|[]]]; vm_compute; discriminate.
Defined.

(** X24, at the example archive with every log rendered. *)
Lemma rendered_archive_is_left_alone_witness :
  exists r w1,
    example_process example_names example_rendered = (r, w1)
    /\ r = Ok []
    /\ (forall argv, In (EGenerate argv) (trace w1) ->
                     In (EGenerate argv) (trace example_rendered)).
Proof.
  destruct (rendered_archive_is_left_alone (fun base => base +:+ ".html")
              (fun _ fmt => fmt) example_main (example_glob example_names)
              true example_symlink example_open example_write_index
              example_copy "/usr/share/irclog.css" "d"
              example_options example_rendered example_found)
    as (r & w1 & H1 & H2 & H3 & _).
  - vm_compute. reflexivity.
  - reflexivity.
  - intros lf [<-|[<-|[<-|[]]]].
    + exists 50%Z, 10%Z. repeat split.
    + exists 50%Z, 20%Z. repeat split.
    + exists 50%Z, 30%Z. repeat split.
  - exists r, w1. split; [exact H1|].
    split; [exact (H2 eq_refl eq_refl eq_refl eq_refl) | exact H3].
Defined.


(** A name whose last eight digits are a date before 1900. *)
Example init_refuses_early_year :
  LogFile_init (fun base => base +:+ ".html") (fun _ fmt => fmt)
               "200501020304.log"
  = Raise (ValueError
             ("year=102 is before 1900; "
              +:+ "the datetime strftime() methods require year >= 1900")).
Proof. vm_compute. reflexivity. Qed.

(** A request with a channel directory configured. *)
Definition channel_request (path_info : string) : gmap string string :=
  {[ "PATH_INFO" := path_info; "IRCLOG_CHAN_DIR" := "chans" ]}.

(** X26, at the request for the page of a log. *)
Lemma parse_path_is_safe_witness :
  parse_path ∅ (request "/2005-01-02.log.html")
    = (None, Some "2005-01-02.log.html")
  /\ separator_free "2005-01-02.log.html" = true
  /\ "2005-01-02.log.html" <> EmptyString.
Proof.
  assert (H : parse_path ∅ (request "/2005-01-02.log.html")
              = (None, Some "2005-01-02.log.html")) by reflexivity.
  split; [exact H|].
  destruct (parse_path_is_safe ∅ _ _ _ H) as (H1 & H2 & _).
  split; assumption.
Defined.

(** X27, at the request for a page of a channel. *)
Lemma parse_path_channel_witness :
  parse_path ∅ (channel_request "/#rocq/2005-01-02.log.html")
  = (Some "#rocq", Some "2005-01-02.log.html").
Proof.
  apply (parse_path_channel ∅ (channel_request "/#rocq/2005-01-02.log.html")
           "#rocq" "2005-01-02.log.html").
  - reflexivity.
  - reflexivity.
  - reflexivity.
  - discriminate.
  - reflexivity.
Defined.

(** X28, at a request that climbs out of the log directory. *)
Lemma separator_is_refused_witness :
  application (fun base => base +:+ ".html") (fun _ fmt => fmt)
    (fun _ => []) "/usr/share/irclog.css" "/var/www/irclogs" "*.log" ∅ ∅
    (fun _ _ => Ok EmptyString) (fun _ _ => EmptyString)
    unit (fun _ => tt) (fun _ => Ok tt)
    (fun _ _ _ => Ok EmptyString) (fun _ => Ok EmptyString) (fun s => s)
    (request "/../secret.html")
  = Ok not_found.
Proof.
  apply (separator_is_refused (fun base => base +:+ ".html") (fun _ fmt => fmt)
           (fun _ => []) "/usr/share/irclog.css" "/var/www/irclogs" "*.log" ∅ ∅
           (fun _ _ => Ok EmptyString) (fun _ _ => EmptyString)
           unit (fun _ => tt) (fun _ => Ok tt)
           (fun _ _ _ => Ok EmptyString) (fun _ => Ok EmptyString) (fun s => s)
           (request "/../secret.html") "/../secret.html").
  - reflexivity.
  - left. split; reflexivity.
Defined.

(** X29, at the request for the index of a directory that holds a name
    without a date. *)
Lemma index_listing_error_escapes_witness :
  application (fun base => base +:+ ".html") (fun _ fmt => fmt)
    (example_glob ["logs/2005-01-02.log"; "logs/nodate.log"])
    "/usr/share/irclog.css" "/var/www/irclogs" "*.log" ∅ ∅
    (fun _ _ => Ok EmptyString) (fun _ _ => EmptyString)
    unit (fun _ => tt) (fun _ => Ok tt)
    (fun _ _ _ => Ok EmptyString) (fun _ => Ok EmptyString) (fun s => s)
    (request "/")
  = Raise (Error "File name does not contain a YYYY-MM-DD date: logs/nodate.log").
Proof.
  apply (index_listing_error_escapes (fun base => base +:+ ".html")
           (fun _ fmt => fmt)
           (example_glob ["logs/2005-01-02.log"; "logs/nodate.log"])
           "/usr/share/irclog.css" "/var/www/irclogs" "*.log" ∅ ∅
           (fun _ _ => Ok EmptyString) (fun _ _ => EmptyString)
           unit (fun _ => tt) (fun _ => Ok tt)
           (fun _ _ _ => Ok EmptyString) (fun _ => Ok EmptyString) (fun s => s)
           (request "/")).
  - reflexivity.
  - reflexivity.
  - reflexivity.
  - vm_compute. reflexivity.
Defined.
